(** * Signal generator: indicators, z-scores and strategy returns

    A shallow embedding of the notebook [Signal_Generator_Final_Version.ipynb]
    (date normalisation, returns, moving statistics, z-score normalisation,
    trend-following and counter-trend strategy columns) together with the
    properties of its specification.

    Numbers are the reals extended with the missing marker NaN; rounding is
    not modelled.  Python exceptions are values of [exn]. *)

From Stdlib Require Import Reals Lra List String Ascii Arith Lia Bool.
From Stdlib Require Import DecimalString DecimalNat.
Import ListNotations.

(* ================================================================== *)
(** * Python exceptions and the error monad *)

Inductive exn : Type :=
| KeyError
| IndexError
| UnboundLocalError
| ZeroDivisionError.

Inductive result (A : Type) : Type :=
| Ok (a : A)
| Raise (e : exn).

Arguments Ok {A} a.
Arguments Raise {A} e.

Definition bind {A B : Type} (m : result A) (k : A -> result B) : result B :=
  match m with
  | Ok a => k a
  | Raise e => Raise e
  end.

Notation "x <- m ;; k" := (bind m (fun x => k))
  (at level 61, m at next level, right associativity).

(** Sequential evaluation of [f] on the elements of a list; the first
    exception aborts the traversal. *)
Fixpoint mapM {A B : Type} (f : A -> result B) (l : list A) : result (list B) :=
  match l with
  | [] => Ok []
  | a :: r => b <- f a ;; bs <- mapM f r ;; Ok (b :: bs)
  end.

(* ================================================================== *)
(** * Floats: reals plus NaN *)

Definition float : Type := option R.

Definition nan : float := None.

Definition num (x : R) : float := Some x.

Definition fadd (a b : float) : float :=
  match a, b with
  | Some x, Some y => Some (x + y)%R
  | _, _ => nan
  end.

Definition fsub (a b : float) : float :=
  match a, b with
  | Some x, Some y => Some (x - y)%R
  | _, _ => nan
  end.

Definition fmul (a b : float) : float :=
  match a, b with
  | Some x, Some y => Some (x * y)%R
  | _, _ => nan
  end.

(** Division of Python floats: a zero divisor raises, whatever the
    dividend; NaN propagates otherwise. *)
Definition fdiv (a b : float) : result float :=
  match b with
  | Some y =>
      if Req_dec_T y 0 then Raise ZeroDivisionError
      else match a with
           | Some x => Ok (Some (x / y)%R)
           | None => Ok nan
           end
  | None => Ok nan
  end.

(** Comparisons: any comparison with NaN is false. *)
Definition flt (a b : float) : bool :=
  match a, b with
  | Some x, Some y => if Rlt_dec x y then true else false
  | _, _ => false
  end.

Definition fgt (a b : float) : bool := flt b a.

Definition feq (a b : float) : bool :=
  match a, b with
  | Some x, Some y => if Req_dec_T x y then true else false
  | _, _ => false
  end.

(* ================================================================== *)
(** * Strings *)

Open Scope string_scope.
Open Scope list_scope.

(** [c in s] for a one-character [c]. *)
Fixpoint contains_char (c : ascii) (s : string) : bool :=
  match s with
  | EmptyString => false
  | String a r => Ascii.eqb a c || contains_char c r
  end.

(** [p in s] for a string [p]. *)
Fixpoint contains_str (p s : string) : bool :=
  prefix p s ||
  match s with
  | EmptyString => false
  | String _ r => contains_str p r
  end.

(** [s.split(sep)] for a one-character separator: every occurrence cuts,
    empty fields are kept. *)
Fixpoint split (sep : ascii) (s : string) : list string :=
  match s with
  | EmptyString => [EmptyString]
  | String a r =>
      if Ascii.eqb a sep then EmptyString :: split sep r
      else match split sep r with
           | f :: fs => String a f :: fs
           | [] => [String a EmptyString]
           end
  end.

(** [sep.join(l)]. *)
Fixpoint join (sep : string) (l : list string) : string :=
  match l with
  | [] => EmptyString
  | [s] => s
  | s :: r => (s ++ sep ++ join sep r)%string
  end.

(** [l[i]] on a Python list. *)
Definition item {A : Type} (l : list A) (i : nat) : result A :=
  match nth_error l i with
  | Some a => Ok a
  | None => Raise IndexError
  end.

(** [str(n)] for a non-negative integer. *)
Definition str (n : nat) : string := NilEmpty.string_of_uint (Nat.to_uint n).

(* ================================================================== *)
(** * Date normalisation *)

Definition standardizeTimeString (timeString : string) : result string :=
  timeStringList <-
    (if contains_char "-" timeString then Ok (split "-" timeString)
     else if contains_char "/" timeString then Ok (split "/" timeString)
     else Raise UnboundLocalError) ;;
  f1 <- item timeStringList 1 ;;
  let add_zero := if (String.length f1 =? 1)%nat then "0" else "" in
  f2 <- item timeStringList 2 ;;
  let add_zero2 := if (String.length f2 =? 1)%nat then "0" else "" in
  f0 <- item timeStringList 0 ;;
  Ok (join "/" [f0; (add_zero ++ f1)%string; (add_zero2 ++ f2)%string]).

(** The canonical form [YYYY/MM/DD]: ten characters, digits everywhere
    but the two slashes at offsets 4 and 7. *)
Definition is_digit (c : ascii) : bool :=
  let n := nat_of_ascii c in (48 <=? n)%nat && (n <=? 57)%nat.

Fixpoint all_digits (s : string) : bool :=
  match s with
  | EmptyString => true
  | String a r => is_digit a && all_digits r
  end.

Definition is_canonical_date (s : string) : bool :=
  match split "/" s with
  | [y; m; d] =>
      (String.length y =? 4)%nat && (String.length m =? 2)%nat
      && (String.length d =? 2)%nat
      && all_digits y && all_digits m && all_digits d
  | _ => false
  end.

(* ================================================================== *)
(** * Data frames

    A frame is its number of rows and its named numeric columns, in
    column order.  The rows are labelled [0 .. nrows-1].  The [Date]
    column is text and takes part in no computation below; its presence
    is what makes the rows handed to [DataFrame.apply] hold Python floats
    (hence [fdiv]). *)

Definition column : Type := list float.

Record DataFrame : Type := mkFrame {
  nrows : nat;
  cols : list (string * column)
}.

Fixpoint lookup (l : list (string * column)) (name : string) : option column :=
  match l with
  | [] => None
  | (n, c) :: r => if String.eqb n name then Some c else lookup r name
  end.

Fixpoint assign (l : list (string * column)) (name : string) (c : column)
  : list (string * column) :=
  match l with
  | [] => [(name, c)]
  | (n, c') :: r =>
      if String.eqb n name then (n, c) :: r else (n, c') :: assign r name c
  end.

Fixpoint remove (l : list (string * column)) (name : string)
  : list (string * column) :=
  match l with
  | [] => []
  | (n, c) :: r => if String.eqb n name then r else (n, c) :: remove r name
  end.

(** [name in df.columns] *)
Definition has_col (df : DataFrame) (name : string) : bool :=
  match lookup (cols df) name with Some _ => true | None => false end.

(** [df[name]] *)
Definition get_col (df : DataFrame) (name : string) : result column :=
  match lookup (cols df) name with
  | Some c => Ok c
  | None => Raise KeyError
  end.

(** [df[name] = c]: replaces the column in place or appends it. *)
Definition set_col (df : DataFrame) (name : string) (c : column) : DataFrame :=
  mkFrame (nrows df) (assign (cols df) name c).

(** [df.drop(name, axis=1, inplace=True)] *)
Definition drop_col (df : DataFrame) (name : string) : result DataFrame :=
  if has_col df name then Ok (mkFrame (nrows df) (remove (cols df) name))
  else Raise KeyError.

(** [df.loc[i, name]] *)
Definition loc (df : DataFrame) (i : nat) (name : string) : result float :=
  c <- get_col df name ;;
  match nth_error c i with
  | Some v => Ok v
  | None => Raise KeyError
  end.

Fixpoint update (i : nat) (v : float) (c : column) : column :=
  match c, i with
  | [], _ => []
  | _ :: r, O => v :: r
  | x :: r, S j => x :: update j v r
  end.

(** [df.loc[i, name] = v] for a row label that exists.  (On an absent
    label pandas would enlarge the frame; no call below does so on a
    path that returns, see [calEMA].) *)
Definition loc_set (df : DataFrame) (i : nat) (name : string) (v : float)
  : result DataFrame :=
  c <- get_col df name ;;
  if (i <? List.length c)%nat then Ok (set_col df name (update i v c))
  else Raise KeyError.

(** A row as seen by the function given to [df.apply(..., axis=1)]:
    [row name] is [row[name]]. *)
Definition Row : Type := string -> result float.

Definition row_of (df : DataFrame) (i : nat) : Row := fun name => loc df i name.

(** [df.apply(f, axis=1)]: [f] on every row, in order. *)
Definition apply_rows (df : DataFrame) (f : Row -> result float) : result column :=
  mapM (fun i => f (row_of df i)) (seq 0 (nrows df)).

(** Every column has one entry per row. *)
Definition well_formed (df : DataFrame) : Prop :=
  Forall (fun nc => List.length (snd nc) = nrows df) (cols df).

(* ================================================================== *)
(** * Series operations: shift and rolling windows *)

(** [s.shift(n)] for [n >= 0]. *)
Definition shift (n : nat) (xs : column) : column :=
  firstn (List.length xs) (repeat nan n ++ xs).

(** The [w] values ending at position [i], when there are that many. *)
Definition trailing (w i : nat) (xs : column) : option (list float) :=
  if (w <=? S i)%nat then Some (firstn w (skipn (S i - w) xs)) else None.

(** The numbers of a window; [None] as soon as it holds a NaN (pandas
    wants [min_periods = window] observations). *)
Fixpoint observed (l : list float) : option (list R) :=
  match l with
  | [] => Some []
  | None :: _ => None
  | Some x :: r => option_map (cons x) (observed r)
  end.

Definition Rsum (l : list R) : R := fold_right Rplus 0%R l.

Definition mean (l : list R) : float :=
  match l with
  | [] => nan
  | _ => Some (Rsum l / INR (List.length l))%R
  end.

(** Sample standard deviation ([ddof = 1]); NaN below two values. *)
Definition std_ddof1 (l : list R) : float :=
  match mean l with
  | Some m =>
      if (List.length l <? 2)%nat then nan
      else Some (sqrt (Rsum (map (fun x => (x - m) * (x - m))%R l)
                       / (INR (List.length l) - 1)))
  | None => nan
  end.

(** [xs.rolling(window=w).stat()] *)
Definition rolling (stat : list R -> float) (w : nat) (xs : column) : column :=
  map (fun i =>
         match trailing w i xs with
         | Some win =>
             match observed win with
             | Some obs => stat obs
             | None => nan
             end
         | None => nan
         end)
      (seq 0 (List.length xs)).

(** [s.mean()] of a series: NaN entries are skipped. *)
Fixpoint dropna (l : list float) : list R :=
  match l with
  | [] => []
  | Some x :: r => x :: dropna r
  | None :: r => dropna r
  end.

Definition series_mean (l : list float) : float := mean (dropna l).

(* ================================================================== *)
(** * Bars and the initial table *)

Record Bar : Type := mkBar {
  bar_open : R;
  bar_high : R;
  bar_low : R;
  bar_close : R
}.

Definition frame_of_bars (bars : list Bar) : DataFrame :=
  mkFrame (List.length bars)
    [ ("Open", map (fun b => num (bar_open b)) bars);
      ("High", map (fun b => num (bar_high b)) bars);
      ("Low", map (fun b => num (bar_low b)) bars);
      ("Close", map (fun b => num (bar_close b)) bars) ].

(* ================================================================== *)
(** * Return calculator *)

Definition calEndOfDayRet (df : DataFrame) (col : string) : result DataFrame :=
  c <- get_col df col ;;
  let df := set_col df "past_Close" (shift 1 c) in
  r <- apply_rows df (fun row =>
         a <- row "Close" ;;
         b <- row "past_Close" ;;
         q <- fdiv a b ;;
         Ok (fsub q (num 1))) ;;
  let df := set_col df "eodRet" r in
  drop_col df "past_Close".

(* ================================================================== *)
(** * Moving statistics *)

Definition calSMA (df : DataFrame) (period : nat) (col : string)
  : result DataFrame :=
  c <- get_col df col ;;
  Ok (set_col df ("SMA_" ++ str period)%string (rolling mean period c)).

(** One turn of the loop of [calEMA]. *)
Definition ema_step (period : nat) (col col_name : string) (k : R)
  (acc : result DataFrame) (i : nat) : result DataFrame :=
  df <- acc ;;
  prev <- loc df (period + i - 1) col_name ;;
  x <- loc df (period + i) col ;;
  loc_set df (period + i) col_name
    (fadd (fmul prev (num (1 - k))) (fmul x (num k))).

(** [calEMA].  The seed is written at label [period-1] from the labels
    [0 .. period-1]: with [period = 0] the write goes to a label [-1] that
    is not in the index and the loop then reads the absent label
    [len(df)]; with [period] beyond the last row the labels read for the
    seed are absent.  Both are a [KeyError]. *)
Definition calEMA (df : DataFrame) (period : nat) (col : string) (numerator : R)
  : result DataFrame :=
  let k := (numerator / INR (period + 1))%R in
  let col_name := ("EMA_" ++ str period)%string in
  let df := set_col df col_name (repeat nan (nrows df)) in
  c <- get_col df col ;;
  if (1 <=? period)%nat && (period <=? List.length c)%nat then
    df <- loc_set df (period - 1) col_name (series_mean (firstn period c)) ;;
    c <- get_col df col ;;
    fold_left (ema_step period col col_name k)
      (seq 0 (List.length c - period)) (Ok df)
  else Raise KeyError.

Definition calMV (df : DataFrame) (period : nat) (col : string)
  : result DataFrame :=
  c <- get_col df col ;;
  Ok (set_col df ("MV_" ++ str period)%string (rolling std_ddof1 period c)).

(** The strictly negative entries of a slice ([ret < 0] is false on NaN). *)
Fixpoint negatives (l : list float) : list R :=
  match l with
  | [] => []
  | Some x :: r => if Rlt_dec x 0 then x :: negatives r else negatives r
  | None :: r => negatives r
  end.

(** [calSortinoMV] returns [result_list] and stores a column.  The two
    loops run [range(period-1)] and [range(len(df)-(period-1))]. *)
Definition calSortinoMV (df : DataFrame) (period : nat) (col : string)
  : result (list float * DataFrame) :=
  whole_data <- get_col df col ;;
  let result_list := repeat nan (period - 1) in
  let result_list :=
    fold_left
      (fun acc k =>
         let neg_ret := negatives (firstn period (skipn k whole_data)) in
         acc ++ [std_ddof1 neg_ret])
      (seq 0 (nrows df + 1 - period)) result_list in
  c <- get_col df col ;;
  let df := set_col df ("Sortino_MV_" ++ str period)%string (rolling std_ddof1 period c) in
  Ok (result_list, df).

(** The call site: [calMV] then [calSortinoMV], whose returned list is
    dropped. *)
Definition moving_vol_pass (df : DataFrame) (p : nat) (col : string)
  : result DataFrame :=
  df <- calMV df p col ;;
  r <- calSortinoMV df p col ;;
  Ok (snd r).

Definition calPreviousDayrange (df : DataFrame) (period : nat)
  : result DataFrame :=
  dayrange <- apply_rows df (fun row =>
                h <- row "High" ;;
                l <- row "Low" ;;
                Ok (fsub h l)) ;;
  let df := set_col df "Dayrange" dayrange in
  d <- get_col df "Dayrange" ;;
  let df := set_col df "temp" (rolling mean period d) in
  t <- get_col df "temp" ;;
  let df := set_col df ("Prev_" ++ str period ++ "_AvDayrange")%string (shift 1 t) in
  drop_col df "temp".

(* ================================================================== *)
(** * Normalisation: rolling z-scores

    [zCol], [zzCol] and [zzzCol] are the same body with another prefix for
    the new column (and another default window). *)

Definition zCol_as (prefix : string) (df : DataFrame) (col : string)
  (norm_period : nat) : result DataFrame :=
  if contains_str "z_" col then Ok df
  else
    c <- get_col df col ;;
    let df := set_col df "temp_base_mean" (rolling mean norm_period c) in
    m <- get_col df "temp_base_mean" ;;
    let df := set_col df "temp_base_mean" (shift 1 m) in
    c <- get_col df col ;;
    let df := set_col df "temp_base_std" (rolling std_ddof1 norm_period c) in
    s <- get_col df "temp_base_std" ;;
    let df := set_col df "temp_base_std" (shift 1 s) in
    z <- apply_rows df (fun row =>
           x <- row col ;;
           mu <- row "temp_base_mean" ;;
           sd <- row "temp_base_std" ;;
           fdiv (fsub x mu) sd) ;;
    Ok (set_col df (prefix ++ col)%string z).

Definition zCol : DataFrame -> string -> nat -> result DataFrame :=
  zCol_as "z_".

Definition zzCol : DataFrame -> string -> nat -> result DataFrame :=
  zCol_as "zz_".

Definition zzzCol : DataFrame -> string -> nat -> result DataFrame :=
  zCol_as "zzz_".

(** [for col in to_be_normalized_cols: zCol(df, col)] and the removal of
    the two scratch columns. *)
Definition normalize_all (z : DataFrame -> string -> nat -> result DataFrame)
  (norm_period : nat) (names : list string) (df : DataFrame)
  : result DataFrame :=
  df <- fold_left (fun acc col => d <- acc ;; z d col norm_period) names (Ok df) ;;
  df <- drop_col df "temp_base_mean" ;;
  drop_col df "temp_base_std".

(* ================================================================== *)
(** * Trend-following strategies *)

(** The body of [if f_col not in df.columns: ...]; an unknown type only
    prints and leaves the table as it is. *)
Definition compute_MA (df : DataFrame) (MA_type : string) (period : nat)
  (col : string) : result DataFrame :=
  if String.eqb MA_type "SMA" then calSMA df period col
  else if String.eqb MA_type "EMA" then calEMA df period col 2
  else Ok df.

Definition create_FS_ret (df : DataFrame) (F S : nat) (MA_type col : string)
  : result DataFrame :=
  let F_str := str F in
  let S_str := str S in
  let f_col := (MA_type ++ "_" ++ F_str)%string in
  let s_col := (MA_type ++ "_" ++ S_str)%string in
  df <- (if has_col df f_col then Ok df else compute_MA df MA_type F col) ;;
  df <- (if has_col df s_col then Ok df else compute_MA df MA_type S col) ;;
  let signal_col := (MA_type ++ "_" ++ F_str ++ "_" ++ S_str ++ "_Signal")%string in
  sig <- apply_rows df (fun row =>
           f <- row f_col ;;
           s <- row s_col ;;
           Ok (if fgt f s then num 1 else num (-1))) ;;
  let df := set_col df signal_col sig in
  sg <- get_col df signal_col ;;
  let df := set_col df signal_col (shift 1 sg) in
  df <- calEndOfDayRet df "Close" ;;
  let return_col := (MA_type ++ "_" ++ F_str ++ "_" ++ S_str ++ "_Return")%string in
  ret <- apply_rows df (fun row =>
           s <- row signal_col ;;
           e <- row "eodRet" ;;
           Ok (fmul s e)) ;;
  Ok (set_col df return_col ret).

(* ================================================================== *)
(** * Counter-trend strategies *)

(** [df['Prev_high'] = df['High'].shift(1)] and the same for the low. *)
Definition add_prev_extremes (df : DataFrame) : result DataFrame :=
  h <- get_col df "High" ;;
  let df := set_col df "Prev_high" (shift 1 h) in
  l <- get_col df "Low" ;;
  Ok (set_col df "Prev_low" (shift 1 l)).

Section CounterTrend.

(** [str(retracement)]: the decimal text Python prints for a float; only
    used to name columns. *)
Variable str_float : R -> string.

Definition ct_suffix (period : nat) (retracement : R) : string :=
  (str period ++ "_" ++ str_float retracement)%string.

Definition long_return_col (period : nat) (retracement : R) : string :=
  ("Long_" ++ ct_suffix period retracement ++ "_Return")%string.

Definition long_hit_col (period : nat) (retracement : R) : string :=
  ("Hit?" ++ "_long_" ++ ct_suffix period retracement)%string.

Definition short_return_col (period : nat) (retracement : R) : string :=
  ("Short_" ++ ct_suffix period retracement ++ "_Return")%string.

Definition short_hit_col (period : nat) (retracement : R) : string :=
  ("Hit?" ++ "_short_" ++ ct_suffix period retracement)%string.

(** The last lambda of each half: realized return of the row. *)
Definition ct_return (row : Row) : result float :=
  q <- row "Hit?" ;;
  if feq q (num 1) then
    e <- row "ExitPr" ;;
    a <- row "HitAt" ;;
    d <- fdiv e a ;;
    Ok (fsub d (num 1))
  else Ok (num 0).

Definition ct_exit (row : Row) : result float :=
  c <- row "Close" ;;
  q <- row "Hit?" ;;
  Ok (fmul c q).

Definition create_CT_ret (df : DataFrame) (period : nat) (retracement : R)
  : result DataFrame :=
  let av := ("Prev_" ++ str period ++ "_AvDayrange")%string in
  (* long counter-trend strategy *)
  lvl <- apply_rows df (fun row =>
           ph <- row "Prev_high" ;;
           a <- row av ;;
           Ok (fsub ph (fmul a (num retracement)))) ;;
  let df := set_col df "Hit_level" lvl in
  hit <- apply_rows df (fun row =>
           l <- row "Low" ;;
           h <- row "Hit_level" ;;
           Ok (if flt l h then num 1 else num 0)) ;;
  let df := set_col df "Hit?" hit in
  hitat <- apply_rows df (fun row =>
             o <- row "Open" ;;
             h <- row "Hit_level" ;;
             q <- row "Hit?" ;;
             Ok (if flt o h then fmul o q else fmul h q)) ;;
  let df := set_col df "HitAt" hitat in
  exitpr <- apply_rows df ct_exit ;;
  let df := set_col df "ExitPr" exitpr in
  ret <- apply_rows df ct_return ;;
  let df := set_col df (long_return_col period retracement) ret in
  flag <- get_col df "Hit?" ;;
  let df := set_col df (long_hit_col period retracement) flag in
  (* short counter-trend strategy *)
  lvl <- apply_rows df (fun row =>
           pl <- row "Prev_low" ;;
           a <- row av ;;
           Ok (fadd pl (fmul a (num retracement)))) ;;
  let df := set_col df "Hit_level" lvl in
  hit <- apply_rows df (fun row =>
           hi <- row "High" ;;
           h <- row "Hit_level" ;;
           Ok (if fgt hi h then num 1 else num 0)) ;;
  let df := set_col df "Hit?" hit in
  hitat <- apply_rows df (fun row =>
             o <- row "Open" ;;
             h <- row "Hit_level" ;;
             q <- row "Hit?" ;;
             Ok (if fgt o h then fmul o q else fmul h q)) ;;
  let df := set_col df "HitAt" hitat in
  exitpr <- apply_rows df ct_exit ;;
  let df := set_col df "ExitPr" exitpr in
  ret <- apply_rows df ct_return ;;
  let df := set_col df (short_return_col period retracement) ret in
  flag <- get_col df "Hit?" ;;
  let df := set_col df (short_hit_col period retracement) flag in
  df <- drop_col df "Hit_level" ;;
  df <- drop_col df "Hit?" ;;
  df <- drop_col df "HitAt" ;;
  drop_col df "ExitPr".

End CounterTrend.

(* ================================================================== *)
(** * Reading and cleaning the input

    [pd.read_csv] is taken as given: its result on a file with the header
    [Date,Open,High,Low,Close] is a list of rows whose absent fields are
    missing.  The two [print]s of [read_and_clean_df] are the report it
    returns here beside the table. *)

Record RawRow : Type := mkRaw {
  raw_Date : option string;
  raw_Open : option R;
  raw_High : option R;
  raw_Low : option R;
  raw_Close : option R
}.

Record DatedBar : Type := mkDated {
  bar_date : string;
  bar_prices : Bar
}.

Record CleanReport : Type := mkReport {
  original_length : nat;
  cleaned_length : nat;
  duplicate_alert : bool
}.

(** A row without missing field. *)
Definition complete (r : RawRow) : option DatedBar :=
  match raw_Date r, raw_Open r, raw_High r, raw_Low r, raw_Close r with
  | Some d, Some o, Some h, Some l, Some c => Some (mkDated d (mkBar o h l c))
  | _, _, _, _, _ => None
  end.

(** [df.dropna(inplace=True)] and [df.reset_index(drop=True)] on the raw
    rows. *)
Fixpoint dropna_raw (rows : list RawRow) : list DatedBar :=
  match rows with
  | [] => []
  | r :: rest =>
      match complete r with
      | Some b => b :: dropna_raw rest
      | None => dropna_raw rest
      end
  end.

Definition read_and_clean_df (raw : list RawRow)
  : result (list DatedBar * CleanReport) :=
  let original := List.length raw in
  let df := dropna_raw raw in
  let cleaned := List.length df in
  dates <- mapM (fun b => standardizeTimeString (bar_date b)) df ;;
  let alert :=
    negb (List.length (nodup string_dec dates) =? List.length dates)%nat in
  Ok (map (fun db => mkDated (fst db) (bar_prices (snd db))) (combine dates df),
      mkReport original cleaned alert).

(* ================================================================== *)
(** * Future and past returns *)

(** [s.shift(-n)] for [n >= 0]. *)
Definition shift_back (n : nat) (xs : column) : column :=
  skipn n xs ++ repeat nan (Nat.min n (List.length xs)).

Definition calFret (df : DataFrame) (period : nat) (col : string)
  : result DataFrame :=
  c <- get_col df col ;;
  let df := set_col df "future_Close" (shift_back period c) in
  r <- apply_rows df (fun row =>
         f <- row "future_Close" ;;
         c <- row "Close" ;;
         q <- fdiv f c ;;
         Ok (fsub q (num 1))) ;;
  let df := set_col df ("fret" ++ str period)%string r in
  drop_col df "future_Close".

Definition calPret (df : DataFrame) (period : nat) (col : string)
  : result DataFrame :=
  c <- get_col df col ;;
  let df := set_col df "past_Close" (shift (period + 1) c) in
  c <- get_col df col ;;
  let df := set_col df "yesterday_Close" (shift 1 c) in
  r <- apply_rows df (fun row =>
         y <- row "yesterday_Close" ;;
         p <- row "past_Close" ;;
         q <- fdiv y p ;;
         Ok (fsub q (num 1))) ;;
  let df := set_col df ("pret" ++ str period)%string r in
  df <- drop_col df "yesterday_Close" ;;
  drop_col df "past_Close".

(* ================================================================== *)
(** * Dropping the rows with a missing value *)

Definition cell_present (c : column) (i : nat) : bool :=
  match nth_error c i with
  | Some (Some _) => true
  | _ => false
  end.

Definition complete_row (df : DataFrame) (i : nat) : bool :=
  forallb (fun nc => cell_present (snd nc) i) (cols df).

(** [df.dropna(inplace=True)]: the rows without missing cell are kept, in
    order.  Only the values are modelled: the rows are renumbered here,
    while pandas leaves each remaining row its label. *)
Definition df_dropna (df : DataFrame) : DataFrame :=
  let keep := filter (complete_row df) (seq 0 (nrows df)) in
  mkFrame (List.length keep)
    (map (fun nc => (fst nc, map (fun i => nth i (snd nc) nan) keep)) (cols df)).

(* ================================================================== *)
(** * The sweep over the trend-following strategies *)

(** [while len(fs_choices) > 0: f = fs_choices.pop(0); for s in
    fs_choices: ...] with both moving averages for every pair. *)
Fixpoint trend_sweep (fs_choices : list nat) (df : DataFrame)
  : result DataFrame :=
  match fs_choices with
  | [] => Ok df
  | f :: rest =>
      df <- fold_left
              (fun acc s =>
                 d <- acc ;;
                 d <- create_FS_ret d f s "SMA" "Close" ;;
                 create_FS_ret d f s "EMA" "Close")
              rest (Ok df) ;;
      trend_sweep rest df
  end.

(* ================================================================== *)
(** * Vocabulary of the properties *)

(** The padding of lines 75-76: one ["0"] before a field of length one. *)
Definition pad (f : string) : string :=
  ((if (String.length f =? 1)%nat then "0" else "") ++ f)%string.

(** The range of a bar, and a bar to stand for positions out of range. *)
Definition day_range (b : Bar) : R := (bar_high b - bar_low b)%R.

Definition no_bar : Bar := mkBar 0 0 0 0.

(** Names of the columns the properties read. *)
Definition avdayrange_col (period : nat) : string :=
  ("Prev_" ++ str period ++ "_AvDayrange")%string.

Definition signal_col (ma : string) (F S : nat) : string :=
  (ma ++ "_" ++ str F ++ "_" ++ str S ++ "_Signal")%string.

(** The update of one turn of the loop of [calEMA]. *)
Definition ema_next (k : R) (prev x : float) : float :=
  fadd (fmul prev (num (1 - k))) (fmul x (num k)).

(** [e] is the column of [calEMA] on [c] as far as position [upto]
    (exclusive): NaN before [period-1], the seed there, the recurrence
    after. *)
Definition ema_filled (period : nat) (k : R) (c e : column) (upto : nat) : Prop :=
  List.length e = List.length c /\
  (forall i, i < period - 1 -> nth_error e i = Some nan) /\
  nth_error e (period - 1) = Some (series_mean (firstn period c)) /\
  (forall i, period <= i < upto ->
     exists prev x,
       nth_error e (i - 1) = Some prev /\
       nth_error c i = Some x /\
       nth_error e i = Some (ema_next k prev x)).

(** Two tables agree before [t]: same rows, same column names, every
    column with one entry per row, and corresponding columns equal at
    all positions before [t]. *)
Definition agree (t : nat) (df1 df2 : DataFrame) : Prop :=
  nrows df1 = nrows df2 /\
  forall name,
    match get_col df1 name, get_col df2 name with
    | Ok c1, Ok c2 =>
        List.length c1 = nrows df1 /\ List.length c2 = nrows df2 /\
        firstn t c1 = firstn t c2
    | Raise _, Raise _ => True
    | _, _ => False
    end.

(** A table over the closes [xs]: well formed, one row per close, the
    [Close] column holding them. *)
Definition priced (xs : list R) (df : DataFrame) : Prop :=
  well_formed df /\ nrows df = List.length xs /\
  get_col df "Close" = Ok (map num xs).

(** The moving average of type [ma] and window [w] is computable on [n]
    rows: always for the SMA, within the history for the EMA. *)
Definition ma_defined (ma : string) (w n : nat) : Prop :=
  ma = "SMA" \/ (ma = "EMA" /\ 1 <= w <= n).

(** The realized return of a row from its flag, exit and entry: the
    body of [ct_return] on the values of the row. *)
Definition realized (q e a : float) : result float :=
  if feq q (num 1) then d <- fdiv e a ;; Ok (fsub d (num 1)) else Ok (num 0).

(** A cell holds a positive number. *)
Definition positive_cell (v : float) : Prop :=
  exists x, v = num x /\ (0 < x)%R.

(* ------------------------------------------------------------------ *)
(** ** Sample tables *)

Definition closes_123 : DataFrame :=
  mkFrame 3 [("Close", [num 1; num 2; num 3])].

Definition closes_115 : DataFrame :=
  mkFrame 3 [("Close", [num 1; num 1; num 5])].

Definition closes_10_40 : DataFrame :=
  mkFrame 4 [("Close", [num 10; num 20; num 30; num 40])].

(** Two histories that differ at the last bar only. *)
Definition bars_a : list Bar :=
  [ mkBar 100 105 95 102; mkBar 102 110 100 108; mkBar 108 109 104 106 ].

Definition bars_b : list Bar :=
  [ mkBar 100 105 95 102; mkBar 102 110 100 108; mkBar 90 120 80 95 ].

(** The counter-trend scenario: two bars; at the second one the previous
    high is 110, the average range 5 and the retracement 2, hence a hit
    level of 100, with a low of 98 and an open of 99.  [ct_prev] is the
    table once the previous extremes are added, [ct_output] the table
    [create_CT_ret] returns for period 10. *)
Definition two_point_zero : R -> string := fun _ => "2.0".

Definition ct_input : DataFrame :=
  mkFrame 2
    [ ("Open", [num 108; num 99]);
      ("High", [num 110; num 101]);
      ("Low", [num 100; num 98]);
      ("Close", [num 108; num 100]);
      ("Prev_10_AvDayrange", [num 5; num 5]) ].

Definition ct_prev : DataFrame :=
  mkFrame 2
    [ ("Open", [num 108; num 99]);
      ("High", [num 110; num 101]);
      ("Low", [num 100; num 98]);
      ("Close", [num 108; num 100]);
      ("Prev_10_AvDayrange", [num 5; num 5]);
      ("Prev_high", [nan; num 110]);
      ("Prev_low", [nan; num 100]) ].

Definition ct_output : DataFrame :=
  mkFrame 2
    [ ("Open", [num 108; num 99]);
      ("High", [num 110; num 101]);
      ("Low", [num 100; num 98]);
      ("Close", [num 108; num 100]);
      ("Prev_10_AvDayrange", [num 5; num 5]);
      ("Prev_high", [nan; num 110]);
      ("Prev_low", [nan; num 100]);
      ("Long_10_2.0_Return", [num 0; num (100 * 1 / (99 * 1) - 1)]);
      ("Hit?_long_10_2.0", [num 0; num 1]);
      ("Short_10_2.0_Return", [num 0; num 0]);
      ("Hit?_short_10_2.0", [num 0; num 0]) ].

(** The occurrences of a character in a string. *)
Fixpoint count_char (c : ascii) (s : string) : nat :=
  match s with
  | EmptyString => 0
  | String a r => (if Ascii.eqb a c then 1 else 0) + count_char c r
  end.

Definition closes_1_2_4 : DataFrame :=
  mkFrame 3 [("Close", [num 1; num 2; num 4])].

(** Three raw rows: the second lacks its close, the first and the third
    carry the same day written in two ways. *)
Definition raw_rows_sample : list RawRow :=
  [ mkRaw (Some "2018-1-5") (Some 1) (Some 2) (Some 1) (Some 2);
    mkRaw (Some "2018-1-6") (Some 2) (Some 3) (Some 2) None;
    mkRaw (Some "2018/01/05") (Some 2) (Some 4) (Some 2) (Some 3) ]%R.

(** The pairs [(f, s)] with [f] before [s] in the list. *)
Fixpoint ordered_pairs (l : list nat) : list (nat * nat) :=
  match l with
  | [] => []
  | f :: rest => map (pair f) rest ++ ordered_pairs rest
  end.

Definition return_col (ma : string) (F S : nat) : string :=
  (ma ++ "_" ++ str F ++ "_" ++ str S ++ "_Return")%string.

(* ================================================================== *)
(** * Properties of date normalisation *)

Lemma split_no_sep (sep : ascii) (s : string) :
  contains_char sep s = false -> split sep s = [s].
Proof.
  induction s as [|a r IH]; simpl; intro H; [reflexivity|].
  apply orb_false_iff in H as [Ha Hr].
  rewrite Ha, (IH Hr). reflexivity.
Qed.

Lemma split_field (sep : ascii) (s rest : string) :
  contains_char sep s = false ->
  split sep (s ++ String sep rest) = s :: split sep rest.
Proof.
  induction s as [|a r IH]; simpl; intro H.
  - rewrite Ascii.eqb_refl. reflexivity.
  - apply orb_false_iff in H as [Ha Hr].
    rewrite Ha, (IH Hr). reflexivity.
Qed.

Lemma contains_char_app (c : ascii) (s t : string) :
  contains_char c (s ++ t) = contains_char c s || contains_char c t.
Proof.
  induction s as [|a r IH]; simpl; [reflexivity|].
  rewrite IH, orb_assoc. reflexivity.
Qed.

Lemma digit_not_sep (a sep : ascii) :
  is_digit a = true -> is_digit sep = false -> Ascii.eqb a sep = false.
Proof.
  intros Ha Hs. destruct (Ascii.eqb_spec a sep) as [->|]; [|reflexivity].
  congruence.
Qed.

Lemma digits_no_sep (sep : ascii) (s : string) :
  is_digit sep = false -> all_digits s = true -> contains_char sep s = false.
Proof.
  intro Hs. induction s as [|a r IH]; simpl; intro H; [reflexivity|].
  apply andb_true_iff in H as [Ha Hr].
  rewrite (digit_not_sep _ _ Ha Hs), (IH Hr). reflexivity.
Qed.

Lemma all_digits_app (s t : string) :
  all_digits (s ++ t) = all_digits s && all_digits t.
Proof.
  induction s as [|a r IH]; simpl; [reflexivity|].
  rewrite IH, andb_assoc. reflexivity.
Qed.

Lemma length_append (s t : string) :
  String.length (s ++ t) = String.length s + String.length t.
Proof. induction s; simpl; congruence. Qed.

Lemma pad_two (f : string) :
  all_digits f = true ->
  1 <= String.length f <= 2 ->
  all_digits (pad f) = true /\ String.length (pad f) = 2.
Proof.
  intros Hd Hl. unfold pad.
  destruct (Nat.eqb_spec (String.length f) 1) as [E|E]; simpl.
  - rewrite Hd, E. split; reflexivity.
  - split; [exact Hd | lia].
Qed.

Lemma three_fields (sep : ascii) (y m d : string) :
  contains_char sep y = false ->
  contains_char sep m = false ->
  contains_char sep d = false ->
  split sep (y ++ String sep (m ++ String sep d)) = [y; m; d].
Proof.
  intros Hy Hm Hd.
  rewrite (split_field _ _ _ Hy), (split_field _ _ _ Hm), (split_no_sep _ _ Hd).
  reflexivity.
Qed.

(** C2 (as stated, refuted): a month-first date keeps its field order,
    so the result is not of the form YYYY/MM/DD. *)
Lemma standardizeTimeString_keeps_field_order :
  exists out,
    standardizeTimeString "1/5/2018" = Ok out /\
    out = "1/05/2018" /\
    is_canonical_date out = false.
Proof. exists "1/05/2018". repeat split. Qed.

(** C2 (amended): a date already in year, month, day order, with a
    four-digit year and a month and day of one or two digits, separated
    by ['-'] or by ['/'], comes back in the canonical form YYYY/MM/DD,
    month and day padded with a zero when they have one digit; and every
    string that holds neither separator makes the function fail (the
    list of fields is never bound: [UnboundLocalError]). *)
Theorem standardizeTimeString_year_first (sep : ascii) (y m d : string) :
  sep = "-"%char \/ sep = "/"%char ->
  all_digits y = true -> all_digits m = true -> all_digits d = true ->
  String.length y = 4 ->
  1 <= String.length m <= 2 ->
  1 <= String.length d <= 2 ->
  (standardizeTimeString (y ++ String sep (m ++ String sep d))
   = Ok (y ++ "/" ++ pad m ++ "/" ++ pad d)%string
   /\ is_canonical_date (y ++ "/" ++ pad m ++ "/" ++ pad d)%string = true)
  /\ (forall s, contains_char "-" s = false -> contains_char "/" s = false ->
                standardizeTimeString s = Raise UnboundLocalError).
Proof.
  intros Hsep Hy Hm Hd Ly Lm Ld.
  assert (Dash : is_digit "-" = false) by reflexivity.
  assert (Slash : is_digit "/" = false) by reflexivity.
  split; [split|].
  - unfold standardizeTimeString.
    destruct Hsep as [-> | ->].
    + simpl contains_char at 1.
      rewrite contains_char_app. simpl contains_char.
      rewrite orb_true_r. 
      rewrite three_fields by (apply digits_no_sep; assumption).
      reflexivity.
    + rewrite !contains_char_app. simpl contains_char.
      rewrite contains_char_app. simpl contains_char.
      rewrite !(digits_no_sep "-") by assumption.
      rewrite orb_true_r. simpl.
      rewrite three_fields by (apply digits_no_sep; assumption).
      reflexivity.
  - destruct (pad_two _ Hm Lm) as [Dm Pm], (pad_two _ Hd Ld) as [Dd Pd].
    unfold is_canonical_date. simpl append.
    rewrite three_fields by (apply digits_no_sep; assumption).
    rewrite Ly, Pm, Pd, Hy, Dm, Dd. reflexivity.
  - intros s H1 H2. unfold standardizeTimeString. rewrite H1, H2. reflexivity.
Qed.

Lemma standardizeTimeString_year_first_witness :
  (standardizeTimeString "2018-1-5" = Ok "2018/01/05"
   /\ is_canonical_date "2018/01/05" = true)
  /\ (forall s, contains_char "-" s = false -> contains_char "/" s = false ->
                standardizeTimeString s = Raise UnboundLocalError).
Proof.
  apply (standardizeTimeString_year_first "-"%char "2018" "1" "5");
    try reflexivity; try (left; reflexivity); simpl; lia.
Defined.

(* ================================================================== *)
(** * Frames and traversals: basic facts *)

Lemma lookup_assign_same (l : list (string * column)) (n : string) (c : column) :
  lookup (assign l n c) n = Some c.
Proof.
  induction l as [|[k v] r IH]; simpl.
  - rewrite String.eqb_refl. reflexivity.
  - destruct (String.eqb_spec k n) as [E|E]; simpl.
    + subst. rewrite String.eqb_refl. reflexivity.
    + apply String.eqb_neq in E. rewrite E. exact IH.
Qed.

Lemma lookup_assign_other (l : list (string * column)) (n m : string) (c : column) :
  n <> m -> lookup (assign l n c) m = lookup l m.
Proof.
  intro H. induction l as [|[k v] r IH]; simpl.
  - apply String.eqb_neq in H. rewrite H. reflexivity.
  - destruct (String.eqb_spec k n) as [E|E]; simpl.
    + subst. apply String.eqb_neq in H. rewrite H. reflexivity.
    + rewrite IH. reflexivity.
Qed.

Lemma lookup_remove_other (l : list (string * column)) (n m : string) :
  n <> m -> lookup (remove l n) m = lookup l m.
Proof.
  intro H. induction l as [|[k v] r IH]; simpl; [reflexivity|].
  destruct (String.eqb_spec k n) as [E|E]; simpl.
  - subst. apply String.eqb_neq in H. rewrite H. reflexivity.
  - rewrite IH. reflexivity.
Qed.

Lemma get_set_same (df : DataFrame) (n : string) (c : column) :
  get_col (set_col df n c) n = Ok c.
Proof. unfold get_col, set_col. simpl. rewrite lookup_assign_same. reflexivity. Qed.

Lemma get_set_other (df : DataFrame) (n m : string) (c : column) :
  n <> m -> get_col (set_col df n c) m = get_col df m.
Proof.
  intro H. unfold get_col, set_col. simpl.
  rewrite lookup_assign_other by exact H. reflexivity.
Qed.

Lemma has_set_same (df : DataFrame) (n : string) (c : column) :
  has_col (set_col df n c) n = true.
Proof. unfold has_col, set_col. simpl. rewrite lookup_assign_same. reflexivity. Qed.

Lemma nrows_set (df : DataFrame) (n : string) (c : column) :
  nrows (set_col df n c) = nrows df.
Proof. reflexivity. Qed.

Lemma get_drop_other (df df' : DataFrame) (n m : string) :
  n <> m -> drop_col df n = Ok df' -> get_col df' m = get_col df m.
Proof.
  intros H D. unfold drop_col in D.
  destruct (has_col df n); [|discriminate].
  injection D as <-. unfold get_col. simpl.
  rewrite lookup_remove_other by exact H. reflexivity.
Qed.

Lemma loc_get (df : DataFrame) (i : nat) (n : string) (c : column) (v : float) :
  get_col df n = Ok c -> nth_error c i = Some v -> loc df i n = Ok v.
Proof. intros G N. unfold loc. rewrite G. simpl. rewrite N. reflexivity. Qed.

Lemma mapM_length {A B : Type} (f : A -> result B) (l : list A) (bs : list B) :
  mapM f l = Ok bs -> List.length bs = List.length l.
Proof.
  revert bs. induction l as [|a r IH]; simpl; intros bs H.
  - injection H as <-. reflexivity.
  - destruct (f a) as [b|e]; simpl in H; [|discriminate].
    destruct (mapM f r) as [bs'|e]; simpl in H; [|discriminate].
    injection H as <-. simpl. f_equal. apply IH. reflexivity.
Qed.

Lemma mapM_nth {A B : Type} (f : A -> result B) (l : list A) (bs : list B)
  (i : nat) (a : A) :
  mapM f l = Ok bs -> nth_error l i = Some a ->
  exists b, f a = Ok b /\ nth_error bs i = Some b.
Proof.
  revert bs i. induction l as [|x r IH]; simpl; intros bs i H N.
  - destruct i; discriminate.
  - destruct (f x) as [b|e] eqn:Fx; simpl in H; [|discriminate].
    destruct (mapM f r) as [bs'|e]; simpl in H; [|discriminate].
    injection H as <-.
    destruct i as [|j]; simpl in N.
    + injection N as <-. exists b. split; [exact Fx | reflexivity].
    + simpl. apply IH; [reflexivity | exact N].
Qed.

Lemma mapM_raise {A B : Type} (f : A -> result B) (l : list A) (e : exn) :
  (forall a, In a l -> f a = Raise e \/ exists b, f a = Ok b) ->
  (exists a, In a l /\ f a = Raise e) ->
  mapM f l = Raise e.
Proof.
  induction l as [|x r IH]; intros All [a [Ha Fa]]; [destruct Ha|].
  simpl. destruct (All x (or_introl eq_refl)) as [Fx | [b Fx]]; rewrite Fx; simpl.
  - reflexivity.
  - destruct Ha as [<- | Ha]; [congruence|].
    rewrite IH; [reflexivity | | exists a; auto].
    intros y Hy. apply All. right. exact Hy.
Qed.

Lemma mapM_total {A B : Type} (f : A -> result B) (g : A -> B) (l : list A) :
  (forall a, In a l -> f a = Ok (g a)) -> mapM f l = Ok (map g l).
Proof.
  induction l as [|x r IH]; intro H; simpl; [reflexivity|].
  rewrite (H x (or_introl eq_refl)). simpl.
  rewrite IH; [reflexivity|]. intros a Ha. apply H. right. exact Ha.
Qed.

Lemma apply_rows_length (df : DataFrame) (f : Row -> result float) (c : column) :
  apply_rows df f = Ok c -> List.length c = nrows df.
Proof.
  intro H. apply mapM_length in H. rewrite length_seq in H. exact H.
Qed.

Lemma apply_rows_nth (df : DataFrame) (f : Row -> result float) (c : column) (i : nat) :
  apply_rows df f = Ok c -> i < nrows df ->
  exists v, f (row_of df i) = Ok v /\ nth_error c i = Some v.
Proof.
  intros H Hi. unfold apply_rows in H.
  apply (mapM_nth _ _ _ i i H).
  rewrite nth_error_nth' with (d := 0) by (rewrite length_seq; exact Hi).
  rewrite seq_nth by exact Hi. reflexivity.
Qed.

Lemma length_shift (n : nat) (xs : column) :
  List.length (shift n xs) = List.length xs.
Proof.
  unfold shift. rewrite length_firstn, length_app, repeat_length. lia.
Qed.

Lemma length_rolling (stat : list R -> float) (w : nat) (xs : column) :
  List.length (rolling stat w xs) = List.length xs.
Proof. unfold rolling. rewrite length_map, length_seq. reflexivity. Qed.

Lemma nth_rolling (stat : list R -> float) (w : nat) (xs : column) (i : nat) :
  i < List.length xs ->
  nth_error (rolling stat w xs) i =
  Some match trailing w i xs with
       | Some win => match observed win with
                     | Some obs => stat obs
                     | None => nan
                     end
       | None => nan
       end.
Proof.
  intro H. unfold rolling.
  rewrite nth_error_map, nth_error_nth' with (d := 0) by (rewrite length_seq; exact H).
  rewrite seq_nth by exact H. reflexivity.
Qed.

Lemma shift1_0 (xs : column) :
  xs <> [] -> nth_error (shift 1 xs) 0 = Some nan.
Proof. destruct xs; [congruence | reflexivity]. Qed.

Lemma shift1_S (xs : column) (i : nat) :
  S i < List.length xs -> nth_error (shift 1 xs) (S i) = nth_error xs i.
Proof.
  intro H. unfold shift. simpl repeat. simpl app.
  rewrite nth_error_firstn.
  destruct (Nat.ltb_spec (S i) (List.length xs)); [reflexivity | lia].
Qed.

(* ================================================================== *)
(** * Normalisation skips z-score columns *)

Lemma z_names_hold_marker (col : string) :
  contains_str "z_" ("z_" ++ col)%string = true /\
  contains_str "z_" ("zz_" ++ col)%string = true /\
  contains_str "z_" ("zzz_" ++ col)%string = true.
Proof.
  assert (P : forall s, prefix "" s = true) by (intros [|a r]; reflexivity).
  repeat split; simpl; rewrite P; rewrite ?orb_true_r; reflexivity.
Qed.

(** C7: on a column whose name marks it as a z-score (it holds ["z_"]),
    each of the three normalisation functions returns at once and leaves
    the table as it was: no column added, none modified. *)
Theorem zCol_skips_normalized (df : DataFrame) (col : string) (norm_period : nat) :
  contains_str "z_" col = true ->
  zCol df col norm_period = Ok df /\
  zzCol df col norm_period = Ok df /\
  zzzCol df col norm_period = Ok df.
Proof.
  intro H. unfold zCol, zzCol, zzzCol, zCol_as. rewrite H. auto.
Qed.

Lemma zCol_skips_normalized_witness :
  let df := mkFrame 2 [("Close", [num 1; num 2]); ("z_Close", [nan; nan])] in
  zCol df "z_Close" 20 = Ok df /\
  zzCol df "z_Close" 20 = Ok df /\
  zzzCol df "z_Close" 20 = Ok df.
Proof.
  intro df. apply (zCol_skips_normalized df "z_Close" 20). reflexivity.
Defined.

(* ================================================================== *)
(** * Downside volatility *)

Lemma std_123 : std_ddof1 [1; 2; 3]%R = Some 1%R.
Proof.
  unfold std_ddof1, mean. simpl. f_equal.
  match goal with |- sqrt ?e = _ => replace e with 1%R by (simpl; field) end.
  apply sqrt_1.
Qed.

Lemma negatives_123 : negatives [num 1; num 2; num 3] = [].
Proof.
  unfold negatives, num.
  repeat match goal with
         | |- context [Rlt_dec ?a ?b] => destruct (Rlt_dec a b); [lra|]
         end.
  reflexivity.
Qed.

(** What [calSortinoMV] stores is the column [calMV] stores: the rolling
    standard deviation of all the values of the window. *)
Lemma calSortinoMV_stores_calMV (df df1 df2 : DataFrame) (period : nat)
  (col : string) (l : list float) :
  calMV df period col = Ok df1 ->
  calSortinoMV df period col = Ok (l, df2) ->
  get_col df2 ("Sortino_MV_" ++ str period)%string
  = get_col df1 ("MV_" ++ str period)%string.
Proof.
  unfold calMV, calSortinoMV. intros H1 H2.
  destruct (get_col df col) as [c|e]; simpl in H1, H2; [|discriminate].
  injection H1 as <-. injection H2 as _ <-.
  rewrite !get_set_same. reflexivity.
Qed.

(** C1 (the code departs from it): on the closes 1, 2, 3 and a window of
    3 there is no negative value, so the downside volatility at position
    2 is missing, and so is the entry of the list the function returns;
    but the column it stores holds 1, the standard deviation of the whole
    window. *)
Theorem calSortinoMV_stores_plain_std :
  exists result_list df' df'',
    calSortinoMV closes_123 3 "Close" = Ok (result_list, df') /\
    moving_vol_pass closes_123 3 "Close" = Ok df'' /\
    negatives [num 1; num 2; num 3] = [] /\
    nth_error result_list 2 = Some nan /\
    loc df' 2 "Sortino_MV_3" = Ok (num 1) /\
    loc df'' 2 "Sortino_MV_3" = Ok (num 1).
Proof.
  unfold moving_vol_pass, calMV, calSortinoMV.
  cbn -[negatives std_ddof1].
  rewrite negatives_123, std_123.
  do 3 eexists. repeat split; reflexivity.
Qed.

Lemma fold_left_snoc {A B : Type} (g : A -> B) (l : list A) (init : list B) :
  fold_left (fun acc k => acc ++ [g k]) l init = init ++ map g l.
Proof.
  revert init. induction l as [|a r IH]; intro init; simpl.
  - rewrite app_nil_r. reflexivity.
  - rewrite IH, <- app_assoc. reflexivity.
Qed.

Lemma std_ddof1_few (l : list R) : List.length l < 2 -> std_ddof1 l = nan.
Proof.
  intro H. unfold std_ddof1.
  destruct (mean l); [|reflexivity].
  destruct (Nat.ltb_spec (List.length l) 2); [reflexivity | lia].
Qed.

(** The list [calSortinoMV] returns (and its call site drops) is the
    downside volatility: NaN before [period-1], then the sample standard
    deviation of the strictly negative values of the window, NaN when
    there are fewer than two of them. *)
Lemma calSortinoMV_result_list (df df' : DataFrame) (period : nat) (col : string)
  (data : column) (l : list float) :
  1 <= period ->
  get_col df col = Ok data ->
  calSortinoMV df period col = Ok (l, df') ->
  (forall i, i < period - 1 -> nth_error l i = Some nan) /\
  (forall i, period - 1 <= i < nrows df ->
     nth_error l i
     = Some (std_ddof1 (negatives (firstn period (skipn (i + 1 - period) data))))) /\
  (forall i, List.length (negatives (firstn period (skipn (i + 1 - period) data))) < 2 ->
     std_ddof1 (negatives (firstn period (skipn (i + 1 - period) data))) = nan).
Proof.
  intros Hp G H. unfold calSortinoMV in H. rewrite G in H. simpl in H.
  injection H as <- _. rewrite fold_left_snoc.
  split; [|split].
  - intros i Hi. rewrite nth_error_app1 by (rewrite repeat_length; exact Hi).
    apply nth_error_repeat. exact Hi.
  - intros i [Lo Hi].
    rewrite nth_error_app2 by (rewrite repeat_length; exact Lo).
    rewrite repeat_length, nth_error_map.
    rewrite nth_error_nth' with (d := 0) by (rewrite length_seq; lia).
    rewrite seq_nth by lia. simpl.
    replace (i - (period - 1)) with (i + 1 - period) by lia. reflexivity.
  - intros i Hi. apply std_ddof1_few. exact Hi.
Qed.

(* ================================================================== *)
(** * Z-scores over a window of zero deviation *)

Lemma fdiv_zero (a : float) : fdiv a (num 0) = Raise ZeroDivisionError.
Proof.
  unfold fdiv, num. destruct (Req_dec_T 0 0) as [_|N]; [reflexivity|].
  exfalso. apply N. reflexivity.
Qed.

Lemma fdiv_cases (a b : float) :
  fdiv a b = Raise ZeroDivisionError \/ exists q, fdiv a b = Ok q.
Proof.
  unfold fdiv. destruct b as [y|]; [|right; eexists; reflexivity].
  destruct (Req_dec_T y 0); [left; reflexivity|].
  destruct a; right; eexists; reflexivity.
Qed.

Lemma nth_error_in_range {A : Type} (l : list A) (i : nat) :
  i < List.length l -> exists a, nth_error l i = Some a.
Proof.
  intro H. destruct (nth_error l i) as [a|] eqn:E; [eauto|].
  apply nth_error_None in E. lia.
Qed.

(** A zero lagged deviation anywhere in the column makes the whole
    normalisation raise: the row function divides by it. *)
Lemma zCol_as_zero_std (prefix : string) (df : DataFrame) (col : string)
  (w : nat) (c : column) (t : nat) :
  contains_str "z_" col = false ->
  col <> "temp_base_mean" -> col <> "temp_base_std" ->
  get_col df col = Ok c ->
  List.length c = nrows df ->
  nth_error (shift 1 (rolling std_ddof1 w c)) t = Some (num 0) ->
  zCol_as prefix df col w = Raise ZeroDivisionError.
Proof.
  intros Hz Hm Hs G L Z. unfold zCol_as. rewrite Hz, G. simpl.
  rewrite get_set_same. simpl.
  rewrite !get_set_other by congruence. rewrite G. simpl.
  rewrite get_set_same. simpl.
  set (df4 := set_col _ "temp_base_std" (shift 1 _)).
  assert (Gc : get_col df4 col = Ok c).
  { unfold df4. rewrite !get_set_other by congruence. exact G. }
  assert (Gm : get_col df4 "temp_base_mean" = Ok (shift 1 (rolling mean w c))).
  { unfold df4. rewrite !get_set_other by discriminate. apply get_set_same. }
  assert (Gs : get_col df4 "temp_base_std" = Ok (shift 1 (rolling std_ddof1 w c))).
  { unfold df4. apply get_set_same. }
  assert (N : nrows df4 = nrows df) by reflexivity.
  assert (Row_ok : forall i, i < nrows df ->
            exists x mu sd,
              loc df4 i col = Ok x /\
              loc df4 i "temp_base_mean" = Ok mu /\
              loc df4 i "temp_base_std" = Ok sd /\
              nth_error (shift 1 (rolling std_ddof1 w c)) i = Some sd).
  { intros i Hi.
    destruct (nth_error_in_range c i) as [x Hx]; [lia|].
    destruct (nth_error_in_range (shift 1 (rolling mean w c)) i) as [mu Hmu];
      [rewrite length_shift, length_rolling; lia|].
    destruct (nth_error_in_range (shift 1 (rolling std_ddof1 w c)) i) as [sd Hsd];
      [rewrite length_shift, length_rolling; lia|].
    exists x, mu, sd.
    rewrite (loc_get _ _ _ _ _ Gc Hx), (loc_get _ _ _ _ _ Gm Hmu),
            (loc_get _ _ _ _ _ Gs Hsd).
    auto. }
  assert (Ht : t < nrows df).
  { assert (T : nth_error (shift 1 (rolling std_ddof1 w c)) t <> None) by congruence.
    apply nth_error_Some in T. rewrite length_shift, length_rolling in T. lia. }
  unfold apply_rows. rewrite N.
  rewrite mapM_raise with (e := ZeroDivisionError); [reflexivity | | ].
  - intros i Hi. apply in_seq in Hi. unfold row_of.
    destruct (Row_ok i) as (x & mu & sd & -> & -> & -> & _); [lia|]. simpl.
    apply fdiv_cases.
  - exists t. split; [apply in_seq; lia|]. unfold row_of.
    destruct (Row_ok t Ht) as (x & mu & sd & -> & -> & -> & Hsd). simpl.
    rewrite Z in Hsd. injection Hsd as <-. apply fdiv_zero.
Qed.

Lemma std_11 : std_ddof1 [1; 1]%R = Some 0%R.
Proof.
  unfold std_ddof1, mean. simpl. f_equal.
  match goal with |- sqrt ?e = _ => replace e with 0%R by (simpl; field) end.
  apply sqrt_0.
Qed.

Lemma lagged_std_115 :
  nth_error (shift 1 (rolling std_ddof1 2 [num 1; num 1; num 5])) 2
  = Some (num 0).
Proof.
  unfold shift, rolling. cbn -[std_ddof1]. rewrite std_11. reflexivity.
Qed.

(** C3 (as stated, refuted): on the closes 1, 1, 5 with a window of 2 the
    lagged deviation at position 2 is zero, and the normalisation raises
    [ZeroDivisionError]; there is no z-score column, hence no missing
    marker at that position. *)
Lemma zCol_zero_std_is_an_error :
  nth_error (shift 1 (rolling std_ddof1 2 [num 1; num 1; num 5])) 2
  = Some (num 0) /\
  zCol closes_115 "Close" 2 = Raise ZeroDivisionError /\
  ~ (exists df', zCol closes_115 "Close" 2 = Ok df' /\
                 loc df' 2 "z_Close" = Ok nan).
Proof.
  assert (E : zCol closes_115 "Close" 2 = Raise ZeroDivisionError).
  { apply zCol_as_zero_std with (c := [num 1; num 1; num 5]) (t := 2);
      try reflexivity; try discriminate. exact lagged_std_115. }
  split; [exact lagged_std_115|]. split; [exact E|].
  intros [df' [H _]]. rewrite E in H. discriminate.
Qed.

(** C3 (amended): for every source column, window and position [t] at
    which the one-bar-lagged trailing standard deviation is zero, the
    normalisation ([zCol], and likewise [zzCol] and [zzzCol]) raises
    [ZeroDivisionError]: the row-wise division has no guard and no
    z-score column is produced. *)
Theorem zCol_zero_std_raises (df : DataFrame) (col : string) (w : nat)
  (c : column) (t : nat) :
  contains_str "z_" col = false ->
  col <> "temp_base_mean" -> col <> "temp_base_std" ->
  get_col df col = Ok c ->
  List.length c = nrows df ->
  nth_error (shift 1 (rolling std_ddof1 w c)) t = Some (num 0) ->
  zCol df col w = Raise ZeroDivisionError /\
  zzCol df col w = Raise ZeroDivisionError /\
  zzzCol df col w = Raise ZeroDivisionError.
Proof.
  intros Hz Hm Hs G L Z. unfold zCol, zzCol, zzzCol.
  repeat split; apply zCol_as_zero_std with (c := c) (t := t); assumption.
Qed.

Lemma zCol_zero_std_raises_witness :
  zCol closes_115 "Close" 2 = Raise ZeroDivisionError /\
  zzCol closes_115 "Close" 2 = Raise ZeroDivisionError /\
  zzzCol closes_115 "Close" 2 = Raise ZeroDivisionError.
Proof.
  apply (zCol_zero_std_raises closes_115 "Close" 2 [num 1; num 1; num 5] 2);
    try reflexivity; try discriminate.
  exact lagged_std_115.
Defined.

(* ================================================================== *)
(** * What a position of a shifted or rolling column depends on *)

Lemma prefix_nth {A : Type} (t : nat) (l l' : list A) :
  (forall i, i < t -> nth_error l i = nth_error l' i) <->
  firstn t l = firstn t l'.
Proof.
  split.
  - intro H. apply nth_error_ext. intro i. rewrite !nth_error_firstn.
    destruct (Nat.ltb_spec i t); [apply H; assumption | reflexivity].
  - intros H i Hi.
    assert (E : nth_error (firstn t l) i = nth_error (firstn t l') i)
      by (rewrite H; reflexivity).
    rewrite !nth_error_firstn in E.
    destruct (Nat.ltb_spec i t); [exact E | lia].
Qed.

Lemma prefix_le {A : Type} (s t : nat) (l l' : list A) :
  s <= t -> firstn t l = firstn t l' -> firstn s l = firstn s l'.
Proof.
  intros Hs H. apply prefix_nth. intros i Hi.
  apply (proj2 (prefix_nth t l l') H). lia.
Qed.

Lemma trailing_prefix (w i t : nat) (xs ys : column) :
  i < t -> firstn t xs = firstn t ys -> trailing w i xs = trailing w i ys.
Proof.
  intros Hi H. unfold trailing.
  destruct (Nat.leb_spec w (S i)); [|reflexivity].
  rewrite !firstn_skipn_comm.
  replace (S i - w + w) with (S i) by lia.
  rewrite (prefix_le (S i) t xs ys) by (try lia; exact H). reflexivity.
Qed.

Lemma rolling_prefix (stat : list R -> float) (w t : nat) (xs ys : column) :
  List.length xs = List.length ys ->
  firstn t xs = firstn t ys ->
  firstn t (rolling stat w xs) = firstn t (rolling stat w ys).
Proof.
  intros L H. apply prefix_nth. intros i Hi.
  destruct (Nat.lt_ge_cases i (List.length xs)) as [Lt|Ge].
  - rewrite !nth_rolling by lia.
    rewrite (trailing_prefix w i t xs ys Hi H). reflexivity.
  - transitivity (@None float); [|symmetry];
      apply nth_error_None; rewrite length_rolling; lia.
Qed.

Lemma shift1_prefix (t : nat) (xs ys : column) :
  List.length xs = List.length ys ->
  firstn t xs = firstn t ys ->
  firstn (S t) (shift 1 xs) = firstn (S t) (shift 1 ys).
Proof.
  intros L H. apply prefix_nth. intros i Hi.
  destruct (Nat.lt_ge_cases i (List.length xs)) as [Lt|Ge].
  - destruct i as [|j].
    + rewrite !shift1_0; [reflexivity | |]; intro E; subst; simpl in *; lia.
    + rewrite !shift1_S by lia.
      apply (proj2 (prefix_nth t xs ys) H). lia.
  - transitivity (@None float); [|symmetry];
      apply nth_error_None; rewrite length_shift; lia.
Qed.

Lemma observed_nums {A : Type} (f : A -> R) (l : list A) :
  observed (map (fun a => num (f a)) l) = Some (map f l).
Proof.
  induction l as [|a r IH]; simpl; [reflexivity|]. rewrite IH. reflexivity.
Qed.

Lemma mean_nonempty (l : list R) :
  l <> [] -> mean l = Some (Rsum l / INR (List.length l))%R.
Proof. destruct l; [congruence | reflexivity]. Qed.

Lemma map_seq_nth {A B : Type} (f : A -> B) (d : A) (l : list A) :
  map (fun i => f (nth i l d)) (seq 0 (List.length l)) = map f l.
Proof.
  apply nth_error_ext. intro i. rewrite !nth_error_map.
  destruct (Nat.lt_ge_cases i (List.length l)) as [Lt|Ge].
  - rewrite nth_error_nth' with (d := 0) by (rewrite length_seq; exact Lt).
    rewrite seq_nth by exact Lt. simpl.
    rewrite nth_error_nth' with (d := d) by exact Lt. reflexivity.
  - replace (nth_error (seq 0 (List.length l)) i) with (@None nat)
      by (symmetry; apply nth_error_None; rewrite length_seq; exact Ge).
    replace (nth_error l i) with (@None A)
      by (symmetry; apply nth_error_None; exact Ge).
    reflexivity.
Qed.

Lemma apply_rows_total (df : DataFrame) (f : Row -> result float)
  (g : nat -> float) :
  (forall i, i < nrows df -> f (row_of df i) = Ok (g i)) ->
  apply_rows df f = Ok (map g (seq 0 (nrows df))).
Proof.
  intro H. unfold apply_rows. apply mapM_total.
  intros i Hi. apply in_seq in Hi. apply H. lia.
Qed.

(* ================================================================== *)
(** * Average day range *)

Lemma loc_bar (bars : list Bar) (i : nat) (name : string) (f : Bar -> R) :
  get_col (frame_of_bars bars) name = Ok (map (fun b => num (f b)) bars) ->
  i < List.length bars ->
  loc (frame_of_bars bars) i name = Ok (num (f (nth i bars no_bar))).
Proof.
  intros G Hi. apply (loc_get _ _ _ _ _ G).
  rewrite nth_error_map, nth_error_nth' with (d := no_bar) by exact Hi.
  reflexivity.
Qed.


Lemma has_set_other (df : DataFrame) (n m : string) (c : column) :
  n <> m -> has_col (set_col df n c) m = has_col df m.
Proof.
  intro H. unfold has_col, set_col. simpl.
  rewrite lookup_assign_other by exact H. reflexivity.
Qed.

Lemma drop_col_ok (df : DataFrame) (n : string) :
  has_col df n = true ->
  exists df', drop_col df n = Ok df' /\
              nrows df' = nrows df /\
              forall m, n <> m -> get_col df' m = get_col df m.
Proof.
  intro H. unfold drop_col. rewrite H. eexists. split; [reflexivity|].
  split; [reflexivity|]. intros m Hm. unfold get_col. simpl.
  rewrite lookup_remove_other by exact Hm. reflexivity.
Qed.

(** The column [calPreviousDayrange] leaves in the table. *)
Lemma calPreviousDayrange_column (bars : list Bar) (period : nat) :
  exists df,
    calPreviousDayrange (frame_of_bars bars) period = Ok df /\
    nrows df = List.length bars /\
    get_col df (avdayrange_col period)
    = Ok (shift 1 (rolling mean period (map (fun b => num (day_range b)) bars))).
Proof.
  unfold calPreviousDayrange.
  rewrite apply_rows_total
    with (g := fun i => num (day_range (nth i bars no_bar))).
  2:{ intros i Hi. unfold row_of.
      rewrite (loc_bar bars i "High" bar_high), (loc_bar bars i "Low" bar_low);
        try reflexivity; exact Hi. }
  change (nrows (frame_of_bars bars)) with (List.length bars).
  rewrite (map_seq_nth (fun b => num (day_range b))). cbn [bind].
  rewrite get_set_same. cbn [bind].
  rewrite get_set_same. cbn [bind].
  match goal with
  | |- exists df, drop_col ?X _ = _ /\ _ =>
      destruct (drop_col_ok X "temp") as (df' & D & N & G)
  end.
  { rewrite has_set_other by discriminate. apply has_set_same. }
  exists df'. split; [exact D|]. split; [rewrite N; reflexivity|].
  rewrite G by discriminate. apply get_set_same.
Qed.

Lemma window_in_prefix {A : Type} (w t : nat) (l : list A) :
  w <= t -> firstn w (skipn (t - w) l) = skipn (t - w) (firstn t l).
Proof.
  intro H. rewrite firstn_skipn_comm.
  replace (t - w + w) with t by lia. reflexivity.
Qed.

Lemma avdayrange_value (bars : list Bar) (w t : nat) :
  1 <= w -> w <= t < List.length bars ->
  exists df,
    calPreviousDayrange (frame_of_bars bars) w = Ok df /\
    loc df t (avdayrange_col w)
    = Ok (num (Rsum (map day_range (firstn w (skipn (t - w) bars))) / INR w)).
Proof.
  intros Hw [Lo Hi].
  destruct (calPreviousDayrange_column bars w) as (df & E & N & G).
  exists df. split; [exact E|].
  apply (loc_get _ _ _ _ _ G).
  destruct t as [|j]; [lia|].
  rewrite shift1_S by (rewrite length_rolling, length_map; exact Hi).
  rewrite nth_rolling by (rewrite length_map; lia).
  unfold trailing. destruct (Nat.leb_spec w (S j)); [|lia].
  rewrite skipn_map, firstn_map, observed_nums.
  assert (L : List.length (firstn w (skipn (S j - w) bars)) = w)
    by (rewrite length_firstn, length_skipn; lia).
  rewrite mean_nonempty.
  - rewrite length_map, L. reflexivity.
  - intro Z. apply (f_equal (@List.length R)) in Z.
    rewrite length_map, L in Z. simpl in Z. lia.
Qed.

(** C6: from position [w] on, the average-day-range column holds the
    mean of [high - low] over the [w] bars before the position, and the
    value at [t] is the same for any two histories that agree before
    [t]: bar [t] and the later ones do not enter it. *)
Theorem calPreviousDayrange_lagged_mean (bars1 bars2 : list Bar) (w t : nat) :
  1 <= w ->
  w <= t < List.length bars1 ->
  List.length bars2 = List.length bars1 ->
  (forall i, i < t -> nth_error bars2 i = nth_error bars1 i) ->
  exists df1 df2,
    calPreviousDayrange (frame_of_bars bars1) w = Ok df1 /\
    calPreviousDayrange (frame_of_bars bars2) w = Ok df2 /\
    loc df1 t (avdayrange_col w)
    = Ok (num (Rsum (map day_range (firstn w (skipn (t - w) bars1))) / INR w)) /\
    loc df2 t (avdayrange_col w) = loc df1 t (avdayrange_col w).
Proof.
  intros Hw Ht L Same.
  destruct (avdayrange_value bars1 w t Hw Ht) as (df1 & E1 & V1).
  destruct (avdayrange_value bars2 w t Hw) as (df2 & E2 & V2); [lia|].
  exists df1, df2. repeat split; try assumption.
  rewrite V1, V2.
  rewrite !window_in_prefix by lia.
  rewrite (proj1 (prefix_nth t bars2 bars1) Same). reflexivity.
Qed.

Lemma calPreviousDayrange_lagged_mean_witness :
  exists df1 df2,
    calPreviousDayrange (frame_of_bars bars_a) 2 = Ok df1 /\
    calPreviousDayrange (frame_of_bars bars_b) 2 = Ok df2 /\
    loc df1 2 (avdayrange_col 2)
    = Ok (num (Rsum (map day_range (firstn 2 (skipn (2 - 2) bars_a))) / INR 2)) /\
    loc df2 2 (avdayrange_col 2) = loc df1 2 (avdayrange_col 2).
Proof.
  apply (calPreviousDayrange_lagged_mean bars_a bars_b 2 2).
  - lia.
  - simpl. lia.
  - reflexivity.
  - intros [|[|i]] Hi; try reflexivity. lia.
Defined.

(* ================================================================== *)
(** * Exponential moving average *)

Lemma length_update (i : nat) (v : float) (c : column) :
  List.length (update i v c) = List.length c.
Proof.
  revert i. induction c as [|x r IH]; intros [|j]; simpl; try reflexivity.
  rewrite IH. reflexivity.
Qed.

Lemma nth_update_same (i : nat) (v : float) (c : column) :
  i < List.length c -> nth_error (update i v c) i = Some v.
Proof.
  revert i. induction c as [|x r IH]; intros [|j] H; simpl in *; try lia.
  - reflexivity.
  - apply IH. lia.
Qed.

Lemma nth_update_other (i j : nat) (v : float) (c : column) :
  i <> j -> nth_error (update i v c) j = nth_error c j.
Proof.
  revert i j. induction c as [|x r IH]; intros [|i] [|j] H; simpl;
    try reflexivity; try lia.
  apply IH. lia.
Qed.

Lemma assign_assign (l : list (string * column)) (n : string) (a b : column) :
  assign (assign l n a) n b = assign l n b.
Proof.
  induction l as [|[k v] r IH]; simpl.
  - rewrite String.eqb_refl. reflexivity.
  - destruct (String.eqb k n) eqn:E; simpl; rewrite E; [reflexivity|].
    rewrite IH. reflexivity.
Qed.

Lemma set_set_same (df : DataFrame) (n : string) (a b : column) :
  set_col (set_col df n a) n b = set_col df n b.
Proof. unfold set_col. simpl. rewrite assign_assign. reflexivity. Qed.

Lemma loc_set_written (df : DataFrame) (n : string) (e : column) (i : nat)
  (v : float) :
  i < List.length e ->
  loc_set (set_col df n e) i n v = Ok (set_col df n (update i v e)).
Proof.
  intro H. unfold loc_set. rewrite get_set_same. cbn [bind].
  destruct (Nat.ltb_spec i (List.length e)); [|lia].
  rewrite set_set_same. reflexivity.
Qed.

Lemma ema_loop (df : DataFrame) (period : nat) (col col_name : string) (k : R)
  (c e0 : column) (j : nat) :
  col <> col_name ->
  get_col df col = Ok c ->
  1 <= period ->
  ema_filled period k c e0 period ->
  period + j <= List.length c ->
  exists e,
    fold_left (ema_step period col col_name k) (seq 0 j)
      (Ok (set_col df col_name e0))
    = Ok (set_col df col_name e) /\
    ema_filled period k c e (period + j).
Proof.
  intros Hn G Hp Init. induction j as [|j IH]; intro Hj.
  - exists e0. split; [reflexivity|]. rewrite Nat.add_0_r. exact Init.
  - destruct IH as (e & F & Len & Nan & Seed & Rec); [lia|].
    rewrite seq_S, fold_left_app, F. simpl.
    destruct (nth_error_in_range e (period + j - 1)) as [prev Hprev]; [lia|].
    destruct (nth_error_in_range c (period + j)) as [x Hx]; [lia|].
    unfold ema_step. cbn [bind].
    rewrite (loc_get _ _ _ _ _ (get_set_same df col_name e) Hprev). cbn [bind].
    assert (Gc : get_col (set_col df col_name e) col = Ok c)
      by (rewrite get_set_other by congruence; exact G).
    rewrite (loc_get _ _ _ _ _ Gc Hx). cbn [bind].
    rewrite loc_set_written by lia.
    eexists. split; [reflexivity|].
    split; [rewrite length_update; exact Len|].
    split; [|split].
    + intros i Hi. rewrite nth_update_other by lia. apply Nan. exact Hi.
    + rewrite nth_update_other by lia. exact Seed.
    + intros i [Lo Hi].
      destruct (Nat.eq_dec i (period + j)) as [->|Ne].
      * exists prev, x. rewrite nth_update_other by lia.
        rewrite nth_update_same by lia. auto.
      * destruct (Rec i) as (p & y & H1 & H2 & H3); [lia|].
        exists p, y. rewrite !nth_update_other by lia. auto.
Qed.

(** What [calEMA] returns on a table whose source column has one entry
    per row and is not the column being written. *)
Lemma calEMA_column (df : DataFrame) (period : nat) (col : string) (c : column)
  (numerator : R) :
  col <> ("EMA_" ++ str period)%string ->
  get_col df col = Ok c ->
  List.length c = nrows df ->
  1 <= period <= List.length c ->
  exists e,
    calEMA df period col numerator
    = Ok (set_col df ("EMA_" ++ str period)%string e) /\
    ema_filled period (numerator / INR (period + 1)) c e (List.length c).
Proof.
  intros Hn G L [Lo Hi]. unfold calEMA.
  rewrite get_set_other by congruence. rewrite G. cbn [bind].
  destruct (Nat.leb_spec 1 period); [|lia].
  destruct (Nat.leb_spec period (List.length c)); [|lia].
  cbn [andb].
  rewrite loc_set_written by (rewrite repeat_length; lia). cbn [bind].
  rewrite get_set_other by congruence. rewrite G. cbn [bind].
  destruct (ema_loop df period col ("EMA_" ++ str period)%string
              (numerator / INR (period + 1)) c
              (update (period - 1) (series_mean (firstn period c))
                 (repeat nan (nrows df)))
              (List.length c - period) ltac:(congruence) G Lo)
    as (e & F & Fill).
  - split; [rewrite length_update, repeat_length; lia|].
    split; [|split].
    + intros i Hi'. rewrite nth_update_other by lia.
      apply nth_error_repeat. lia.
    + apply nth_update_same. rewrite repeat_length. lia.
    + intros i Hi'. lia.
  - lia.
  - exists e. split; [exact F|].
    replace (period + (List.length c - period)) with (List.length c) in Fill by lia.
    exact Fill.
Qed.

Lemma dropna_nums (l : list R) : dropna (map num l) = l.
Proof. induction l as [|x r IH]; simpl; [reflexivity|]. rewrite IH. reflexivity. Qed.

Lemma seed_is_mean (xs : list R) (w : nat) :
  1 <= w <= List.length xs ->
  series_mean (firstn w (map num xs)) = Some (Rsum (firstn w xs) / INR w)%R.
Proof.
  intro H. unfold series_mean. rewrite firstn_map, dropna_nums.
  assert (L : List.length (firstn w xs) = w) by (rewrite length_firstn; lia).
  rewrite mean_nonempty, L; [reflexivity|].
  intro Z. rewrite Z in L. simpl in L. lia.
Qed.

Lemma sma_at_first_window (xs : list R) (w : nat) :
  1 <= w <= List.length xs ->
  nth_error (rolling mean w (map num xs)) (w - 1)
  = Some (Some (Rsum (firstn w xs) / INR w)%R).
Proof.
  intro H. rewrite nth_rolling by (rewrite length_map; lia).
  unfold trailing. destruct (Nat.leb_spec w (S (w - 1))); [|lia].
  replace (S (w - 1) - w) with 0 by lia. simpl skipn.
  rewrite firstn_map. rewrite (observed_nums (fun x => x)), map_id.
  assert (L : List.length (firstn w xs) = w) by (rewrite length_firstn; lia).
  rewrite mean_nonempty, L; [reflexivity|].
  intro Z. rewrite Z in L. simpl in L. lia.
Qed.

Lemma ema_values_are_numbers (w : nat) (k : R) (xs : list R) (e : column) :
  1 <= w <= List.length xs ->
  ema_filled w k (map num xs) e (List.length xs) ->
  forall d, w - 1 + d < List.length xs ->
            exists p, nth_error e (w - 1 + d) = Some (num p).
Proof.
  intros Hw (Len & Nan & Seed & Rec). induction d as [|d IH]; intro Hd.
  - rewrite Nat.add_0_r, Seed, seed_is_mean by exact Hw. eexists. reflexivity.
  - destruct IH as [p Hp]; [lia|].
    destruct (Rec (w - 1 + S d)) as (prev & x & H1 & H2 & H3); [lia|].
    replace (w - 1 + S d - 1) with (w - 1 + d) in H1 by lia.
    rewrite Hp in H1. injection H1 as <-.
    rewrite nth_error_map in H2.
    destruct (nth_error xs (w - 1 + S d)) as [y|]; [|discriminate].
    injection H2 as <-. rewrite H3. eexists. reflexivity.
Qed.

(** C5: on a series of numbers with one entry per row and a window
    [1 <= w <= len], the EMA column is missing before index [w-1], holds
    at [w-1] the arithmetic mean of the first [w] elements (the SMA
    there), and from [w] on obeys
    [EMA[i] = EMA[i-1]*(1-k) + series[i]*k] with [k = 2/(w+1)]. *)
Theorem calEMA_seed_and_recurrence (df : DataFrame) (col : string)
  (xs : list R) (w : nat) :
  col <> ("EMA_" ++ str w)%string ->
  get_col df col = Ok (map num xs) ->
  List.length xs = nrows df ->
  1 <= w <= List.length xs ->
  exists df' e,
    calEMA df w col 2 = Ok df' /\
    get_col df' ("EMA_" ++ str w)%string = Ok e /\
    List.length e = List.length xs /\
    (forall i, i < w - 1 -> nth_error e i = Some nan) /\
    nth_error e (w - 1) = Some (num (Rsum (firstn w xs) / INR w)) /\
    nth_error e (w - 1) = nth_error (rolling mean w (map num xs)) (w - 1) /\
    (forall i, w <= i < List.length xs ->
       exists p,
         nth_error e (i - 1) = Some (num p) /\
         nth_error e i
         = Some (num (p * (1 - 2 / INR (w + 1)) + nth i xs 0%R * (2 / INR (w + 1))))).
Proof.
  intros Hn G L Hw.
  destruct (calEMA_column df w col (map num xs) 2 Hn G) as (e & E & Fill);
    try (rewrite length_map; assumption).
  rewrite length_map in Fill.
  pose proof (ema_values_are_numbers w _ xs e Hw Fill) as Nums.
  destruct Fill as (Len & Nan & Seed & Rec).
  exists (set_col df ("EMA_" ++ str w)%string e), e.
  split; [exact E|]. split; [apply get_set_same|].
  split; [rewrite Len, length_map; reflexivity|].
  split; [exact Nan|].
  rewrite seed_is_mean in Seed by exact Hw.
  split; [exact Seed|].
  split; [rewrite Seed, sma_at_first_window by exact Hw; reflexivity|].
  intros i Hi.
  destruct (Rec i Hi) as (prev & x & H1 & H2 & H3).
  destruct (Nums (i - w)) as [p Hp]; [lia|].
  replace (w - 1 + (i - w)) with (i - 1) in Hp by lia.
  rewrite Hp in H1. injection H1 as <-.
  rewrite nth_error_map, nth_error_nth' with (d := 0%R) in H2 by lia.
  injection H2 as <-.
  exists p. split; [exact Hp|]. rewrite H3. reflexivity.
Qed.

Lemma calEMA_seed_and_recurrence_witness :
  exists df' e,
    calEMA closes_10_40 2 "Close" 2 = Ok df' /\
    get_col df' "EMA_2" = Ok e /\
    List.length e = 4 /\
    (forall i, i < 2 - 1 -> nth_error e i = Some nan) /\
    nth_error e (2 - 1) = Some (num (Rsum (firstn 2 [10; 20; 30; 40]%R) / INR 2)) /\
    nth_error e (2 - 1)
    = nth_error (rolling mean 2 (map num [10; 20; 30; 40]%R)) (2 - 1) /\
    (forall i, 2 <= i < 4 ->
       exists p,
         nth_error e (i - 1) = Some (num p) /\
         nth_error e i
         = Some (num (p * (1 - 2 / INR (2 + 1))
                      + nth i [10; 20; 30; 40]%R 0%R * (2 / INR (2 + 1))))).
Proof.
  apply (calEMA_seed_and_recurrence closes_10_40 "Close" [10; 20; 30; 40]%R 2).
  - discriminate.
  - reflexivity.
  - reflexivity.
  - simpl. lia.
Defined.

(* ================================================================== *)
(** * Two runs on tables that agree before a position *)

Lemma get_col_raise (df : DataFrame) (n : string) (e : exn) :
  get_col df n = Raise e -> e = KeyError.
Proof.
  unfold get_col. destruct (lookup (cols df) n); intro H;
    [discriminate | congruence].
Qed.

Lemma has_col_get (df : DataFrame) (n : string) :
  has_col df n = match get_col df n with Ok _ => true | Raise _ => false end.
Proof. unfold has_col, get_col. destruct (lookup (cols df) n); reflexivity. Qed.

Lemma agree_get (t : nat) (df1 df2 : DataFrame) (n : string) (c1 : column) :
  agree t df1 df2 -> get_col df1 n = Ok c1 ->
  exists c2, get_col df2 n = Ok c2 /\
             List.length c1 = nrows df1 /\ List.length c2 = nrows df2 /\
             firstn t c1 = firstn t c2.
Proof.
  intros [_ A] G. specialize (A n). rewrite G in A.
  destruct (get_col df2 n) as [c2|]; [|contradiction]. eauto.
Qed.

Lemma agree_has (t : nat) (df1 df2 : DataFrame) (n : string) :
  agree t df1 df2 -> has_col df1 n = has_col df2 n.
Proof.
  intros [_ A]. specialize (A n). rewrite !has_col_get.
  destruct (get_col df1 n), (get_col df2 n); tauto.
Qed.

Lemma agree_loc (t : nat) (df1 df2 : DataFrame) (i : nat) (n : string) :
  agree t df1 df2 -> i < t -> loc df1 i n = loc df2 i n.
Proof.
  intros [_ A] Hi. specialize (A n). unfold loc.
  destruct (get_col df1 n) as [c1|e1] eqn:G1, (get_col df2 n) as [c2|e2] eqn:G2;
    try contradiction; cbn [bind].
  - destruct A as (_ & _ & P).
    rewrite (proj2 (prefix_nth t c1 c2) P i Hi). reflexivity.
  - apply get_col_raise in G1, G2. congruence.
Qed.

Lemma agree_set (t : nat) (df1 df2 : DataFrame) (n : string) (c1 c2 : column) :
  agree t df1 df2 ->
  List.length c1 = nrows df1 -> List.length c2 = nrows df2 ->
  firstn t c1 = firstn t c2 ->
  agree t (set_col df1 n c1) (set_col df2 n c2).
Proof.
  intros [N A] L1 L2 P. split; [exact N|]. intro m.
  destruct (String.eqb_spec n m) as [->|Ne].
  - rewrite !get_set_same. auto.
  - rewrite !get_set_other by exact Ne. apply A.
Qed.

Lemma agree_weaken (s t : nat) (df1 df2 : DataFrame) :
  s <= t -> agree t df1 df2 -> agree s df1 df2.
Proof.
  intros Hs [N A]. split; [exact N|]. intro m. specialize (A m).
  destruct (get_col df1 m), (get_col df2 m); try exact A.
  destruct A as (L1 & L2 & P). repeat split; try assumption.
  apply (prefix_le s t); assumption.
Qed.

Lemma calSMA_agree (t : nat) (df1 df2 a b : DataFrame) (w : nat) (col : string) :
  agree t df1 df2 ->
  calSMA df1 w col = Ok a -> calSMA df2 w col = Ok b -> agree t a b.
Proof.
  intros A H1 H2. unfold calSMA in H1, H2.
  destruct (get_col df1 col) as [c1|] eqn:G1; [|discriminate].
  destruct (agree_get t df1 df2 col c1 A G1) as (c2 & G2 & L1 & L2 & P).
  rewrite G2 in H2. cbn [bind] in H1, H2.
  injection H1 as <-. injection H2 as <-.
  apply agree_set; try assumption; try (rewrite length_rolling; assumption).
  apply rolling_prefix; [destruct A as [N _]; congruence | exact P].
Qed.

Lemma ema_prefix (w : nat) (k : R) (c1 c2 e1 e2 : column) (t : nat) :
  1 <= w ->
  List.length c1 = List.length c2 ->
  ema_filled w k c1 e1 (List.length c1) ->
  ema_filled w k c2 e2 (List.length c2) ->
  firstn t c1 = firstn t c2 ->
  firstn t e1 = firstn t e2.
Proof.
  intros Hw L (Len1 & Nan1 & Seed1 & Rec1) (Len2 & Nan2 & Seed2 & Rec2) P.
  apply prefix_nth.
  intro i. induction i as [i IH] using lt_wf_ind. intro Hi.
  destruct (Nat.lt_ge_cases i (List.length c1)) as [Lt|Ge].
  2:{ transitivity (@None float); [|symmetry]; apply nth_error_None; lia. }
  destruct (Nat.lt_ge_cases i (w - 1)) as [Before|From].
  { rewrite Nan1, Nan2 by exact Before. reflexivity. }
  destruct (Nat.eq_dec i (w - 1)) as [->|Ne].
  { rewrite Seed1, Seed2.
    rewrite (prefix_le w t c1 c2) by (try lia; exact P). reflexivity. }
  destruct (Rec1 i) as (p1 & x1 & A1 & B1 & C1); [lia|].
  destruct (Rec2 i) as (p2 & x2 & A2 & B2 & C2); [lia|].
  rewrite C1, C2.
  assert (Ep : Some p1 = Some p2) by (rewrite <- A1, <- A2; apply IH; lia).
  assert (Ex : Some x1 = Some x2).
  { rewrite <- B1, <- B2. apply (proj2 (prefix_nth t c1 c2) P). exact Hi. }
  congruence.
Qed.

Lemma calEMA_bounds (df df' : DataFrame) (w : nat) (col : string) (c : column)
  (numerator : R) :
  col <> ("EMA_" ++ str w)%string ->
  get_col df col = Ok c ->
  calEMA df w col numerator = Ok df' ->
  1 <= w <= List.length c.
Proof.
  intros Hn G H. unfold calEMA in H.
  rewrite get_set_other in H by congruence. rewrite G in H. cbn [bind] in H.
  destruct (Nat.leb_spec 1 w), (Nat.leb_spec w (List.length c));
    cbn [andb] in H; try discriminate. lia.
Qed.

Lemma calEMA_agree (t : nat) (df1 df2 a b : DataFrame) (w : nat) (col : string)
  (numerator : R) :
  col <> ("EMA_" ++ str w)%string ->
  agree t df1 df2 ->
  calEMA df1 w col numerator = Ok a -> calEMA df2 w col numerator = Ok b ->
  agree t a b.
Proof.
  intros Hn A H1 H2.
  destruct (get_col df1 col) as [c1|e] eqn:G1.
  2:{ unfold calEMA in H1. rewrite get_set_other, G1 in H1 by congruence.
      discriminate. }
  destruct (agree_get t df1 df2 col c1 A G1) as (c2 & G2 & L1 & L2 & P).
  pose proof (calEMA_bounds df1 a w col c1 numerator Hn G1 H1) as B1.
  pose proof (calEMA_bounds df2 b w col c2 numerator Hn G2 H2) as B2.
  destruct (calEMA_column df1 w col c1 numerator Hn G1 L1 B1) as (e1 & E1 & F1).
  destruct (calEMA_column df2 w col c2 numerator Hn G2 L2 B2) as (e2 & E2 & F2).
  rewrite E1 in H1. rewrite E2 in H2. injection H1 as <-. injection H2 as <-.
  assert (N : nrows df1 = nrows df2) by (destruct A; assumption).
  apply agree_set; try assumption.
  - destruct F1 as [Len _]. lia.
  - destruct F2 as [Len _]. lia.
  - apply (ema_prefix w (numerator / INR (w + 1)) c1 c2); try assumption; lia.
Qed.

Lemma compute_MA_agree (t : nat) (df1 df2 a b : DataFrame) (ma : string) (w : nat) :
  agree t df1 df2 ->
  compute_MA df1 ma w "Close" = Ok a ->
  compute_MA df2 ma w "Close" = Ok b ->
  agree t a b.
Proof.
  intros A H1 H2. unfold compute_MA in H1, H2.
  destruct (String.eqb ma "SMA").
  - exact (calSMA_agree t df1 df2 a b w "Close" A H1 H2).
  - destruct (String.eqb ma "EMA").
    + apply (calEMA_agree t df1 df2 a b w "Close" 2); try assumption.
      discriminate.
    + injection H1 as <-. injection H2 as <-. exact A.
Qed.

Lemma ensure_MA_agree (t : nat) (df1 df2 a b : DataFrame) (ma name : string)
  (w : nat) :
  agree t df1 df2 ->
  (if has_col df1 name then Ok df1 else compute_MA df1 ma w "Close") = Ok a ->
  (if has_col df2 name then Ok df2 else compute_MA df2 ma w "Close") = Ok b ->
  agree t a b.
Proof.
  intros A H1 H2. rewrite <- (agree_has t df1 df2 name A) in H2.
  destruct (has_col df1 name).
  - injection H1 as <-. injection H2 as <-. exact A.
  - exact (compute_MA_agree t df1 df2 a b ma w A H1 H2).
Qed.

(** A row function that gives equal results on the rows before [t] of
    two tables gives columns that agree before [t]. *)
Lemma apply_rows_agree (t : nat) (df1 df2 : DataFrame)
  (f : Row -> result float) (s1 s2 : column) :
  nrows df1 = nrows df2 ->
  (forall i, i < t -> f (row_of df1 i) = f (row_of df2 i)) ->
  apply_rows df1 f = Ok s1 -> apply_rows df2 f = Ok s2 ->
  firstn t s1 = firstn t s2.
Proof.
  intros N Same H1 H2. apply prefix_nth. intros i Hi.
  destruct (Nat.lt_ge_cases i (nrows df1)) as [Lt|Ge].
  - destruct (apply_rows_nth df1 f s1 i H1 Lt) as (v1 & F1 & ->).
    destruct (apply_rows_nth df2 f s2 i H2) as (v2 & F2 & ->); [lia|].
    rewrite (Same i Hi) in F1. congruence.
  - apply apply_rows_length in H1, H2.
    transitivity (@None float); [|symmetry]; apply nth_error_None; lia.
Qed.

Lemma calEndOfDayRet_keeps (df df' : DataFrame) (col name : string) :
  name <> "past_Close" -> name <> "eodRet" ->
  calEndOfDayRet df col = Ok df' ->
  get_col df' name = get_col df name /\ nrows df' = nrows df.
Proof.
  intros N1 N2 H. unfold calEndOfDayRet in H.
  destruct (get_col df col) as [c|]; [|discriminate]. cbn [bind] in H.
  destruct (apply_rows _ _) as [r|]; [|discriminate]. cbn [bind] in H.
  unfold drop_col in H. destruct (has_col _ _); [|discriminate].
  injection H as <-. split; [|reflexivity].
  unfold get_col. simpl cols.
  rewrite lookup_remove_other by congruence.
  rewrite !lookup_assign_other by congruence. reflexivity.
Qed.

Lemma append_cancel (p a b : string) : (p ++ a = p ++ b)%string -> a = b.
Proof. induction p as [|x r IH]; simpl; intro H; [exact H|]. injection H. exact IH. Qed.

Lemma signal_is_not_return (ma f s : string) :
  (ma ++ "_" ++ f ++ "_" ++ s ++ "_Signal")%string
  <> (ma ++ "_" ++ f ++ "_" ++ s ++ "_Return")%string.
Proof.
  intro H.
  apply append_cancel in H. simpl in H. injection H as H.
  apply append_cancel in H. simpl in H. injection H as H.
  apply append_cancel in H. discriminate.
Qed.

(** The signal column of one run, as the table holds it on return: the
    comparison of the two averages, moved one bar down. *)
Lemma create_FS_ret_signal (df df' : DataFrame) (F S : nat) (ma : string) :
  ma = "SMA" \/ ma = "EMA" ->
  create_FS_ret df F S ma "Close" = Ok df' ->
  exists dfm sig,
    (exists dff,
       (if has_col df (ma ++ "_" ++ str F)%string then Ok df
        else compute_MA df ma F "Close") = Ok dff /\
       (if has_col dff (ma ++ "_" ++ str S)%string then Ok dff
        else compute_MA dff ma S "Close") = Ok dfm) /\
    apply_rows dfm (fun row =>
        f <- row (ma ++ "_" ++ str F)%string ;;
        s <- row (ma ++ "_" ++ str S)%string ;;
        Ok (if fgt f s then num 1 else num (-1))) = Ok sig /\
    get_col df' (signal_col ma F S) = Ok (shift 1 sig).
Proof.
  intros Hma H. unfold create_FS_ret in H.
  destruct (if has_col df _ then _ else _) as [dff|] eqn:E1; [|discriminate].
  cbn [bind] in H.
  destruct (if has_col dff _ then _ else _) as [dfm|] eqn:E2; [|discriminate].
  cbn [bind] in H.
  destruct (apply_rows dfm _) as [sig|] eqn:E3; [|discriminate].
  cbn [bind] in H. rewrite get_set_same in H. cbn [bind] in H.
  rewrite set_set_same in H.
  destruct (calEndOfDayRet _ "Close") as [dfe|] eqn:E4; [|discriminate].
  cbn [bind] in H.
  destruct (apply_rows dfe _) as [ret|]; [|discriminate].
  cbn [bind] in H. injection H as <-.
  exists dfm, sig. split; [exists dff; auto|]. split; [exact E3|].
  unfold signal_col.
  rewrite get_set_other by (intro Z; symmetry in Z; revert Z; apply signal_is_not_return).
  assert (N1 : (ma ++ "_" ++ str F ++ "_" ++ str S ++ "_Signal")%string
               <> "past_Close")
    by (destruct Hma as [-> | ->]; discriminate).
  assert (N2 : (ma ++ "_" ++ str F ++ "_" ++ str S ++ "_Signal")%string
               <> "eodRet")
    by (destruct Hma as [-> | ->]; discriminate).
  destruct (calEndOfDayRet_keeps _ _ "Close" _ N1 N2 E4) as [K _].
  rewrite K. apply get_set_same.
Qed.

(** Two runs of [create_FS_ret] that both return, on tables that agree
    before [t], give the same signal at [t]. *)
Lemma create_FS_ret_two_runs (t : nat) (df1 df2 df1' df2' : DataFrame)
  (F S : nat) (ma : string) :
  ma = "SMA" \/ ma = "EMA" ->
  agree t df1 df2 ->
  create_FS_ret df1 F S ma "Close" = Ok df1' ->
  create_FS_ret df2 F S ma "Close" = Ok df2' ->
  loc df1' t (signal_col ma F S) = loc df2' t (signal_col ma F S).
Proof.
  intros Hma A H1 H2.
  destruct (create_FS_ret_signal df1 df1' F S ma Hma H1)
    as (m1 & sig1 & (f1 & Ef1 & Es1) & R1 & G1).
  destruct (create_FS_ret_signal df2 df2' F S ma Hma H2)
    as (m2 & sig2 & (f2 & Ef2 & Es2) & R2 & G2).
  pose proof (ensure_MA_agree t df1 df2 f1 f2 ma _ F A Ef1 Ef2) as Af.
  pose proof (ensure_MA_agree t f1 f2 m1 m2 ma _ S Af Es1 Es2) as Am.
  assert (N : nrows m1 = nrows m2) by (destruct Am; assumption).
  assert (P : firstn t sig1 = firstn t sig2).
  { eapply (apply_rows_agree t m1 m2); [exact N| |exact R1|exact R2].
    intros i Hi. unfold row_of.
    rewrite !(agree_loc t m1 m2 i _ Am Hi). reflexivity. }
  assert (L : List.length sig1 = List.length sig2).
  { apply apply_rows_length in R1, R2. lia. }
  pose proof (shift1_prefix t sig1 sig2 L P) as Q.
  unfold loc. rewrite G1, G2. cbn [bind].
  rewrite (proj2 (prefix_nth (Datatypes.S t) _ _) Q t) by lia. reflexivity.
Qed.

(* ------------------------------------------------------------------ *)
(** ** The runs return *)

Lemma wf_get (df : DataFrame) (n : string) (c : column) :
  well_formed df -> get_col df n = Ok c -> List.length c = nrows df.
Proof.
  unfold well_formed, get_col. intros W G.
  induction (cols df) as [|[k v] r IH]; simpl in G; [discriminate|].
  inversion W as [|? ? Hk Hr]; subst.
  destruct (String.eqb k n).
  - injection G as <-. exact Hk.
  - apply IH; assumption.
Qed.

Lemma wf_set (df : DataFrame) (n : string) (c : column) :
  well_formed df -> List.length c = nrows df -> well_formed (set_col df n c).
Proof.
  unfold well_formed, set_col. simpl. intros W L.
  induction (cols df) as [|[k v] r IH]; simpl.
  - constructor; [exact L | constructor].
  - inversion W as [|? ? Hk Hr]; subst.
    destruct (String.eqb k n); constructor; auto.
Qed.

Lemma wf_drop (df df' : DataFrame) (n : string) :
  well_formed df -> drop_col df n = Ok df' -> well_formed df'.
Proof.
  unfold well_formed, drop_col. intros W D.
  destruct (has_col df n); [|discriminate]. injection D as <-. simpl.
  induction (cols df) as [|[k v] r IH]; simpl; [constructor|].
  inversion W as [|? ? Hk Hr]; subst.
  destruct (String.eqb k n); [exact Hr|]. constructor; auto.
Qed.

Lemma wf_bars (bars : list Bar) : well_formed (frame_of_bars bars).
Proof.
  unfold well_formed, frame_of_bars. simpl.
  repeat constructor; simpl; apply length_map.
Qed.

Lemma loc_total (df : DataFrame) (n : string) (i : nat) :
  well_formed df -> has_col df n = true -> i < nrows df ->
  exists v, loc df i n = Ok v.
Proof.
  intros W H Hi. rewrite has_col_get in H.
  destruct (get_col df n) as [c|] eqn:G; [|discriminate].
  destruct (nth_error_in_range c i) as [v Hv];
    [rewrite (wf_get df n c W G); exact Hi|].
  exists v. exact (loc_get df i n c v G Hv).
Qed.

Lemma mapM_returns {A B : Type} (f : A -> result B) (l : list A) :
  (forall a, In a l -> exists b, f a = Ok b) -> exists bs, mapM f l = Ok bs.
Proof.
  induction l as [|x r IH]; intro H; simpl; [eauto|].
  destruct (H x (or_introl eq_refl)) as [b ->].
  destruct IH as [bs ->]; [intros a Ha; apply H; right; exact Ha|].
  simpl. eauto.
Qed.

Lemma apply_rows_returns (df : DataFrame) (f : Row -> result float) :
  (forall i, i < nrows df -> exists v, f (row_of df i) = Ok v) ->
  exists c, apply_rows df f = Ok c.
Proof.
  intro H. apply mapM_returns. intros i Hi. apply in_seq in Hi. apply H. lia.
Qed.

Lemma fdiv_returns (a b : float) :
  (forall y, b = Some y -> y <> 0%R) -> exists q, fdiv a b = Ok q.
Proof.
  intro H. unfold fdiv. destruct b as [y|]; [|eauto].
  destruct (Req_dec_T y 0) as [Z|_]; [exfalso; exact (H y eq_refl Z)|].
  destruct a; eauto.
Qed.

Lemma shifted_nonzero (xs : list R) (i : nat) (b : float) :
  Forall (fun x => x <> 0%R) xs ->
  nth_error (shift 1 (map num xs)) i = Some b ->
  forall y, b = Some y -> y <> 0%R.
Proof.
  intros NZ H y ->.
  assert (Hi : i < List.length xs).
  { assert (T : nth_error (shift 1 (map num xs)) i <> None) by congruence.
    apply nth_error_Some in T. rewrite length_shift, length_map in T. exact T. }
  destruct i as [|j].
  - rewrite shift1_0 in H; [discriminate|].
    destruct xs; simpl in *; [lia | discriminate].
  - rewrite shift1_S in H by (rewrite length_map; exact Hi).
    rewrite nth_error_map in H.
    destruct (nth_error xs j) as [x|] eqn:E; [|discriminate].
    injection H as <-. apply nth_error_In in E.
    rewrite Forall_forall in NZ. apply NZ. exact E.
Qed.

Lemma priced_bars (bars : list Bar) :
  priced (map bar_close bars) (frame_of_bars bars).
Proof.
  split; [apply wf_bars|]. split; [simpl; rewrite length_map; reflexivity|].
  unfold get_col. simpl. rewrite map_map. reflexivity.
Qed.

Lemma priced_set (xs : list R) (df : DataFrame) (n : string) (c : column) :
  priced xs df -> n <> "Close" -> List.length c = nrows df ->
  priced xs (set_col df n c).
Proof.
  intros (W & N & G) Hn L. split; [apply wf_set; assumption|].
  split; [exact N|]. rewrite get_set_other by exact Hn. exact G.
Qed.

Lemma has_set_mono (df : DataFrame) (n m : string) (c : column) :
  has_col df m = true -> has_col (set_col df n c) m = true.
Proof.
  intro H. destruct (String.eqb_spec n m) as [->|Ne].
  - apply has_set_same.
  - rewrite has_set_other by exact Ne. exact H.
Qed.

Lemma compute_MA_returns (xs : list R) (df : DataFrame) (ma : string) (w : nat) :
  priced xs df -> ma_defined ma w (List.length xs) ->
  exists df',
    compute_MA df ma w "Close" = Ok df' /\
    priced xs df' /\
    has_col df' (ma ++ "_" ++ str w)%string = true /\
    (forall n, has_col df n = true -> has_col df' n = true).
Proof.
  intros P Hma. pose proof P as (W & N & G). unfold compute_MA.
  destruct Hma as [-> | (-> & Hw)]; simpl String.eqb.
  - unfold calSMA. rewrite G. cbn [bind]. eexists. split; [reflexivity|].
    split; [|split].
    + apply priced_set; [exact P | discriminate |].
      rewrite length_rolling, length_map. symmetry. exact N.
    + apply has_set_same.
    + intros n Hn. apply has_set_mono. exact Hn.
  - destruct (calEMA_column df w "Close" (map num xs) 2) as (e & E & Len & _);
      try (rewrite length_map); try assumption; try discriminate; try lia.
    rewrite E. eexists. split; [reflexivity|].
    split; [|split].
    + apply priced_set; [exact P | discriminate |].
      rewrite Len, length_map. symmetry. exact N.
    + apply has_set_same.
    + intros n Hn. apply has_set_mono. exact Hn.
Qed.

Lemma ensure_MA_returns (xs : list R) (df : DataFrame) (ma : string) (w : nat) :
  priced xs df -> ma_defined ma w (List.length xs) ->
  exists df',
    (if has_col df (ma ++ "_" ++ str w)%string then Ok df
     else compute_MA df ma w "Close") = Ok df' /\
    priced xs df' /\
    has_col df' (ma ++ "_" ++ str w)%string = true /\
    (forall n, has_col df n = true -> has_col df' n = true).
Proof.
  intros P Hma.
  destruct (has_col df (ma ++ "_" ++ str w)%string) eqn:H.
  - exists df. auto.
  - apply compute_MA_returns; assumption.
Qed.

Lemma calEndOfDayRet_returns (xs : list R) (df : DataFrame) :
  priced xs df ->
  Forall (fun x => x <> 0%R) xs ->
  exists df',
    calEndOfDayRet df "Close" = Ok df' /\
    well_formed df' /\ nrows df' = nrows df /\
    has_col df' "eodRet" = true /\
    (forall n, n <> "past_Close" -> has_col df n = true -> has_col df' n = true).
Proof.
  intros (W & N & G) NZ. unfold calEndOfDayRet. rewrite G. cbn [bind].
  set (dfp := set_col df "past_Close" (shift 1 (map num xs))).
  assert (Wp : well_formed dfp).
  { apply wf_set; [exact W|]. rewrite length_shift, length_map. auto. }
  destruct (apply_rows_returns dfp (fun row =>
              a <- row "Close" ;; b <- row "past_Close" ;;
              q <- fdiv a b ;; Ok (fsub q (num 1)))) as [r Hr].
  { intros i Hi. unfold row_of.
    destruct (loc_total dfp "Close" i Wp) as [a ->]; [|exact Hi|].
    { unfold dfp. apply has_set_mono. rewrite has_col_get, G. reflexivity. }
    destruct (nth_error_in_range (shift 1 (map num xs)) i) as [b Hb].
    { rewrite length_shift, length_map. unfold dfp in Hi. simpl in Hi. lia. }
    rewrite (loc_get dfp i "past_Close" _ b (get_set_same _ _ _) Hb).
    cbn [bind].
    destruct (fdiv_returns a b (shifted_nonzero xs i b NZ Hb)) as [q ->].
    cbn [bind]. eauto. }
  rewrite Hr. cbn [bind].
  destruct (drop_col_ok (set_col dfp "eodRet" r) "past_Close") as (df' & D & N' & K).
  { rewrite has_set_other by discriminate. apply has_set_same. }
  exists df'. split; [exact D|].
  assert (We : well_formed (set_col dfp "eodRet" r)).
  { apply wf_set; [exact Wp|]. apply (apply_rows_length dfp _ r Hr). }
  split; [exact (wf_drop _ _ _ We D)|].
  split; [rewrite N'; reflexivity|].
  split.
  - rewrite has_col_get, K by discriminate. rewrite get_set_same. reflexivity.
  - intros n Hn H. rewrite has_col_get, K by congruence.
    rewrite <- has_col_get. apply has_set_mono. apply has_set_mono. exact H.
Qed.

Lemma create_FS_ret_returns (xs : list R) (df : DataFrame) (F S : nat)
  (ma : string) :
  priced xs df ->
  Forall (fun x => x <> 0%R) xs ->
  ma_defined ma F (List.length xs) -> ma_defined ma S (List.length xs) ->
  exists df', create_FS_ret df F S ma "Close" = Ok df'.
Proof.
  intros P NZ HF HS. unfold create_FS_ret.
  destruct (ensure_MA_returns xs df ma F P HF) as (dff & -> & Pf & Hf & _).
  cbn [bind].
  destruct (ensure_MA_returns xs dff ma S Pf HS) as (dfm & -> & Pm & Hs & Keep).
  cbn [bind]. pose proof Pm as (Wm & Nm & Gm).
  destruct (apply_rows_returns dfm (fun row =>
              f <- row (ma ++ "_" ++ str F)%string ;;
              s <- row (ma ++ "_" ++ str S)%string ;;
              Ok (if fgt f s then num 1 else num (-1)))) as [sig Hsig].
  { intros i Hi. unfold row_of.
    destruct (loc_total dfm _ i Wm (Keep _ Hf) Hi) as [f ->].
    destruct (loc_total dfm _ i Wm Hs Hi) as [s ->]. cbn [bind]. eauto. }
  rewrite Hsig. cbn [bind]. rewrite get_set_same. cbn [bind].
  rewrite set_set_same.
  set (sname := (ma ++ "_" ++ str F ++ "_" ++ str S ++ "_Signal")%string).
  assert (Nc : sname <> "Close").
  { unfold sname. destruct HF as [-> | [-> _]]; discriminate. }
  assert (Np : sname <> "past_Close").
  { unfold sname. destruct HF as [-> | [-> _]]; discriminate. }
  assert (Ps : priced xs (set_col dfm sname (shift 1 sig))).
  { apply priced_set; [exact Pm | exact Nc |].
    rewrite length_shift. apply (apply_rows_length dfm _ sig Hsig). }
  destruct (calEndOfDayRet_returns xs _ Ps NZ) as (dfe & -> & We & Ne & He & K).
  cbn [bind].
  destruct (apply_rows_returns dfe (fun row =>
              s <- row sname ;; e <- row "eodRet" ;; Ok (fmul s e)))
    as [ret Hret].
  { intros i Hi. unfold row_of.
    destruct (loc_total dfe sname i We) as [s ->];
      [apply K; [exact Np | apply has_set_same] | exact Hi |].
    destruct (loc_total dfe "eodRet" i We He Hi) as [e ->]. cbn [bind]. eauto. }
  rewrite Hret. cbn [bind]. eauto.
Qed.

Lemma agree_bars (t : nat) (bars1 bars2 : list Bar) :
  List.length bars2 = List.length bars1 ->
  firstn t bars1 = firstn t bars2 ->
  agree t (frame_of_bars bars1) (frame_of_bars bars2).
Proof.
  intros L P. split; [simpl; lia|]. intro name.
  unfold get_col, frame_of_bars. cbn [cols lookup].
  repeat match goal with
         | |- context [String.eqb ?a name] => destruct (String.eqb a name)
         end;
    cbv beta iota; try exact I;
    (split; [apply length_map|]; split; [apply length_map|]);
    rewrite !firstn_map, P; reflexivity.
Qed.

(** C4: for a strategy over SMA, or over EMA with windows within the
    history, and two histories of positive closes that agree at all
    positions before [t], both runs of [create_FS_ret] return and the
    signal at [t] is the same: bars at positions [>= t] do not enter
    it. *)
Theorem create_FS_ret_no_lookahead (bars1 bars2 : list Bar) (F S : nat)
  (ma : string) (t : nat) :
  ma_defined ma F (List.length bars1) ->
  ma_defined ma S (List.length bars1) ->
  List.length bars2 = List.length bars1 ->
  Forall (fun b => 0 < bar_close b)%R bars1 ->
  Forall (fun b => 0 < bar_close b)%R bars2 ->
  (forall i, i < t -> nth_error bars2 i = nth_error bars1 i) ->
  exists df1 df2,
    create_FS_ret (frame_of_bars bars1) F S ma "Close" = Ok df1 /\
    create_FS_ret (frame_of_bars bars2) F S ma "Close" = Ok df2 /\
    loc df2 t (signal_col ma F S) = loc df1 t (signal_col ma F S).
Proof.
  intros HF HS L P1 P2 Same.
  assert (NZ : forall bars, Forall (fun b => 0 < bar_close b)%R bars ->
                            Forall (fun x => x <> 0%R) (map bar_close bars)).
  { intros bars H. apply Forall_map. revert H. apply Forall_impl.
    intros b Hb. lra. }
  destruct (create_FS_ret_returns (map bar_close bars1) (frame_of_bars bars1)
              F S ma (priced_bars bars1) (NZ _ P1)) as [df1 E1];
    try (rewrite length_map; assumption).
  destruct (create_FS_ret_returns (map bar_close bars2) (frame_of_bars bars2)
              F S ma (priced_bars bars2) (NZ _ P2)) as [df2 E2];
    try (rewrite length_map, L; assumption).
  exists df1, df2. split; [exact E1|]. split; [exact E2|].
  apply (create_FS_ret_two_runs t (frame_of_bars bars2) (frame_of_bars bars1)
           df2 df1 F S ma); try assumption.
  - destruct HF as [-> | [-> _]]; auto.
  - apply agree_bars; [lia|]. apply prefix_nth. exact Same.
Qed.

Lemma create_FS_ret_no_lookahead_witness :
  exists df1 df2,
    create_FS_ret (frame_of_bars bars_a) 1 2 "SMA" "Close" = Ok df1 /\
    create_FS_ret (frame_of_bars bars_b) 1 2 "SMA" "Close" = Ok df2 /\
    loc df2 2 (signal_col "SMA" 1 2) = loc df1 2 (signal_col "SMA" 1 2).
Proof.
  apply (create_FS_ret_no_lookahead bars_a bars_b 1 2 "SMA" 2).
  - left. reflexivity.
  - left. reflexivity.
  - reflexivity.
  - repeat constructor; simpl; lra.
  - repeat constructor; simpl; lra.
  - intros [|[|i]] Hi; try reflexivity. lia.
Defined.

(* ================================================================== *)
(** * Counter-trend columns, row by row *)

Lemma loc_set_same_nth (df : DataFrame) (n : string) (c : column) (i : nat) (v : float) :
  nth_error c i = Some v -> loc (set_col df n c) i n = Ok v.
Proof. intro H. apply (loc_get _ _ _ _ _ (get_set_same df n c) H). Qed.

Lemma loc_set_other (df : DataFrame) (n m : string) (c : column) (i : nat) :
  n <> m -> loc (set_col df n c) i m = loc df i m.
Proof. intro H. unfold loc. rewrite get_set_other by exact H. reflexivity. Qed.

Lemma loc_drop_other (df df' : DataFrame) (n m : string) (i : nat) :
  drop_col df n = Ok df' -> n <> m -> loc df' i m = loc df i m.
Proof.
  intros D H. unfold loc. rewrite (get_drop_other df df' n m H D). reflexivity.
Qed.

(** Proof steps for a run that returned: [step] opens the next bind of
    the run, [row_at] reads what a computed column holds at a row, and
    [loc_norm], [get_norm] resolve lookups through the columns written so
    far (the names involved are distinct, [names_differ]). *)
Tactic Notation "step" hyp(H) ident(E) :=
  match type of H with
  | bind ?m _ = Ok _ =>
      destruct m eqn:E; cbn [bind] in H; [|discriminate H]
  end.

Ltac names_differ :=
  unfold long_return_col, long_hit_col, short_return_col, short_hit_col,
    ct_suffix;
  cbn; discriminate.

Ltac loc_norm H :=
  repeat match type of H with
    | context [loc (set_col ?d ?n ?c) ?i ?m] =>
        first [ rewrite (loc_set_other d n m c i) in H by names_differ
              | match goal with
                | N : nth_error c i = Some ?v |- _ =>
                    rewrite (loc_set_same_nth d n c i v N) in H
                end ]
    end.

Ltac loc_norm_goal :=
  repeat match goal with
    | |- context [loc (set_col ?d ?n ?c) ?i ?m] =>
        first [ rewrite (loc_set_other d n m c i) by names_differ
              | match goal with
                | N : nth_error c i = Some ?v |- _ =>
                    rewrite (loc_set_same_nth d n c i v N)
                end ]
    end.

Ltac get_norm H :=
  repeat match type of H with
    | context [get_col (set_col ?d ?n ?c) ?m] =>
        first [ rewrite (get_set_other d n m c) in H by names_differ
              | rewrite (get_set_same d n c) in H ]
    end.

Tactic Notation "row_at" hyp(E) constr(i) constr(Hi) ident(v) ident(F) ident(N) :=
  destruct (apply_rows_nth _ _ _ i E Hi) as (v & F & N); unfold row_of in F.

Section CounterTrendFacts.

Variable str_float : R -> string.

(** One row of the table [create_CT_ret] returns, from the cells of the
    same row of its input: hit level, flag, entry and realized return, for
    the long and for the short side. *)
Lemma create_CT_ret_row (df df' : DataFrame) (p : nat) (r : R) (i : nat) :
  create_CT_ret str_float df p r = Ok df' ->
  i < nrows df ->
  exists ph pl a lo hi o c,
    loc df i "Prev_high" = Ok ph /\ loc df i "Prev_low" = Ok pl /\
    loc df i (avdayrange_col p) = Ok a /\
    loc df i "Low" = Ok lo /\ loc df i "High" = Ok hi /\
    loc df i "Open" = Ok o /\ loc df i "Close" = Ok c /\
    let lvl := fsub ph (fmul a (num r)) in
    let q := if flt lo lvl then num 1 else num 0 in
    let entry := if flt o lvl then fmul o q else fmul lvl q in
    let lvl' := fadd pl (fmul a (num r)) in
    let q' := if fgt hi lvl' then num 1 else num 0 in
    let entry' := if fgt o lvl' then fmul o q' else fmul lvl' q' in
    loc df' i (long_hit_col str_float p r) = Ok q /\
    (exists ret, realized q (fmul c q) entry = Ok ret /\
                 loc df' i (long_return_col str_float p r) = Ok ret) /\
    loc df' i (short_hit_col str_float p r) = Ok q' /\
    (exists ret, realized q' (fmul c q') entry' = Ok ret /\
                 loc df' i (short_return_col str_float p r) = Ok ret).
Proof.
  intros H Hi. unfold create_CT_ret in H.
  step H E1. step H E2. step H E3. step H E4. step H E5.
  get_norm H. cbn [bind] in H.
  step H E6. step H E7. step H E8. step H E9. step H E10.
  get_norm H. cbn [bind] in H.
  step H D1. step H D2. step H D3.
  row_at E1 i Hi v1 F1 N1.
  step F1 Eph. step F1 Ea. injection F1 as <-.
  row_at E2 i Hi v2 F2 N2. loc_norm F2.
  step F2 Elo. injection F2 as <-.
  row_at E3 i Hi v3 F3 N3. loc_norm F3.
  step F3 Eo. injection F3 as <-.
  row_at E4 i Hi v4 F4 N4. unfold ct_exit in F4. loc_norm F4.
  step F4 Ec. injection F4 as <-.
  row_at E5 i Hi v5 F5 N5. unfold ct_return in F5. loc_norm F5.
  cbn [bind] in F5.
  row_at E6 i Hi v6 F6 N6. loc_norm F6.
  step F6 Epl. rewrite Ea in F6. cbn [bind] in F6. injection F6 as <-.
  row_at E7 i Hi v7 F7 N7. loc_norm F7.
  step F7 Ehi. injection F7 as <-.
  row_at E8 i Hi v8 F8 N8. loc_norm F8.
  rewrite Eo in F8. cbn [bind] in F8. injection F8 as <-.
  row_at E9 i Hi v9 F9 N9. unfold ct_exit in F9. loc_norm F9.
  rewrite Ec in F9. cbn [bind] in F9. injection F9 as <-.
  row_at E10 i Hi v10 F10 N10. unfold ct_return in F10. loc_norm F10.
  cbn [bind] in F10.
  assert (Final : forall m,
            "Hit_level" <> m -> "Hit?" <> m -> "HitAt" <> m -> "ExitPr" <> m ->
            loc df' i m = loc a9 i m).
  { intros m M1 M2 M3 M4. unfold drop_col in D1.
    rewrite (loc_drop_other _ _ _ m i H M4), (loc_drop_other _ _ _ m i D3 M3),
            (loc_drop_other _ _ _ m i D2 M2).
    reflexivity. }
  exists a12, a17, a13, a14, a18, a15, a16.
  repeat (split; [first [reflexivity | exact Ea]|]).
  cbv zeta.
  split; [|split; [|split]].
  - rewrite Final by names_differ.
    rewrite (loc_drop_other _ _ _ _ i D1) by names_differ.
    loc_norm_goal. reflexivity.
  - exists v5. split; [exact F5|].
    rewrite Final by names_differ.
    rewrite (loc_drop_other _ _ _ _ i D1) by names_differ.
    loc_norm_goal. reflexivity.
  - rewrite Final by names_differ.
    rewrite (loc_drop_other _ _ _ _ i D1) by names_differ.
    loc_norm_goal. reflexivity.
  - exists v10. split; [exact F10|].
    rewrite Final by names_differ.
    rewrite (loc_drop_other _ _ _ _ i D1) by names_differ.
    loc_norm_goal. reflexivity.
Qed.

Lemma feq_0_1 : feq (num 0) (num 1) = false.
Proof. unfold feq, num. destruct (Req_dec_T 0 1); [lra | reflexivity]. Qed.

Lemma feq_1_1 : feq (num 1) (num 1) = true.
Proof. unfold feq, num. destruct (Req_dec_T 1 1); [reflexivity | lra]. Qed.

Lemma realized_no_hit (e a ret : float) :
  realized (num 0) e a = Ok ret -> ret = num 0.
Proof. unfold realized. rewrite feq_0_1. congruence. Qed.

Lemma flt_nan_r (a : float) : flt a nan = false.
Proof. destruct a; reflexivity. Qed.

Lemma flag_cases (b : bool) (q : float) :
  Ok (if b then num 1 else num 0) = Ok q -> q = num 0 -> b = false.
Proof.
  destruct b; [|reflexivity]. intros H Z. rewrite Z in H.
  injection H as H. lra.
Qed.

(** C8: in the table [create_CT_ret] returns, at every bar and for both
    directions, a hit flag of 0 goes with a realized return that is the
    number 0, not the missing marker. *)
Theorem create_CT_ret_no_hit_zero (df df' : DataFrame) (p : nat) (r : R) (i : nat) :
  create_CT_ret str_float df p r = Ok df' ->
  i < nrows df ->
  (loc df' i (long_hit_col str_float p r) = Ok (num 0) ->
   loc df' i (long_return_col str_float p r) = Ok (num 0)) /\
  (loc df' i (short_hit_col str_float p r) = Ok (num 0) ->
   loc df' i (short_return_col str_float p r) = Ok (num 0)).
Proof.
  intros H Hi.
  destruct (create_CT_ret_row df df' p r i H Hi)
    as (ph & pl & a & lo & hi & o & c & _ & _ & _ & _ & _ & _ & _ & L).
  cbv zeta in L.
  destruct L as (HL & (retL & RL & LL) & HS & (retS & RS & LS)).
  split; intro Z.
  - rewrite HL in Z. injection Z as Z. rewrite Z in RL.
    apply realized_no_hit in RL. rewrite LL, RL. reflexivity.
  - rewrite HS in Z. injection Z as Z. rewrite Z in RS.
    apply realized_no_hit in RS. rewrite LS, RS. reflexivity.
Qed.

(** C10: once the previous high and low are the day's high and low moved
    one bar down, the first bar has no previous day; there both hit flags
    are 0 and both realized returns are the number 0. *)
Theorem create_CT_ret_first_bar (df0 df1 df' : DataFrame) (p : nat) (r : R) :
  add_prev_extremes df0 = Ok df1 ->
  create_CT_ret str_float df1 p r = Ok df' ->
  0 < nrows df0 ->
  loc df1 0 "Prev_high" = Ok nan /\ loc df1 0 "Prev_low" = Ok nan /\
  loc df' 0 (long_hit_col str_float p r) = Ok (num 0) /\
  loc df' 0 (long_return_col str_float p r) = Ok (num 0) /\
  loc df' 0 (short_hit_col str_float p r) = Ok (num 0) /\
  loc df' 0 (short_return_col str_float p r) = Ok (num 0).
Proof.
  intros A H Hn. unfold add_prev_extremes in A.
  destruct (get_col df0 "High") as [h|] eqn:Gh; [|discriminate]. cbn [bind] in A.
  rewrite get_set_other in A by discriminate.
  destruct (get_col df0 "Low") as [l|] eqn:Gl; [|discriminate]. cbn [bind] in A.
  injection A as <-.
  destruct (create_CT_ret_row _ df' p r 0 H Hn)
    as (ph & pl & a & lo & hi & o & c & Eph & Epl & _ & _ & _ & _ & _ & L).
  cbv zeta in L.
  assert (First : forall (d : DataFrame) (n : string) (x : column) (v : float),
            loc (set_col d n (shift 1 x)) 0 n = Ok v -> v = nan).
  { intros d n x v E. unfold loc in E. rewrite get_set_same in E. cbn [bind] in E.
    destruct x as [|x0 xr]; simpl in E; [discriminate|]. congruence. }
  pose proof Eph as Eph'.
  rewrite loc_set_other in Eph by discriminate.
  pose proof (First _ _ _ _ Eph) as ->.
  pose proof (First _ _ _ _ Epl) as ->.
  split; [exact Eph'|]. split; [exact Epl|].
  cbn [fsub fadd nan] in L. unfold fgt in L. rewrite flt_nan_r in L.
  cbn [flt nan] in L.
  destruct L as (HL & (retL & RL & LL) & HS & (retS & RS & LS)).
  apply realized_no_hit in RL, RS. subst retL retS. auto.
Qed.

(** C9: at a bar whose previous high and lagged average range are
    known, the long side takes [hit level = previous high - average range
    * retracement]; the flag is 1 exactly when the low is strictly below
    that level; on a hit the entry is the open when the open is below the
    level and the level otherwise, the exit is the close, and the
    realized return is [close / entry - 1]. *)
Theorem create_CT_ret_long_rule (df df' : DataFrame) (p : nat) (r : R) (i : nat)
  (ph a lo o c : R) :
  create_CT_ret str_float df p r = Ok df' ->
  i < nrows df ->
  loc df i "Prev_high" = Ok (num ph) ->
  loc df i (avdayrange_col p) = Ok (num a) ->
  loc df i "Low" = Ok (num lo) ->
  loc df i "Open" = Ok (num o) ->
  loc df i "Close" = Ok (num c) ->
  let level := (ph - a * r)%R in
  let entry := if Rlt_dec o level then o else level in
  ((lo < level)%R ->
     loc df' i (long_hit_col str_float p r) = Ok (num 1) /\
     entry <> 0%R /\
     loc df' i (long_return_col str_float p r) = Ok (num (c / entry - 1))) /\
  (~ (lo < level)%R ->
     loc df' i (long_hit_col str_float p r) = Ok (num 0) /\
     loc df' i (long_return_col str_float p r) = Ok (num 0)).
Proof.
  intros H Hi Hph Ha Hlo Ho Hc level entry.
  destruct (create_CT_ret_row df df' p r i H Hi)
    as (ph' & pl & a' & lo' & hi & o' & c' & Eph & _ & Ea & Elo & _ & Eo & Ec & L).
  cbv zeta in L. destruct L as (HL & (ret & RL & LL) & _).
  rewrite Hph in Eph. rewrite Ha in Ea. rewrite Hlo in Elo.
  rewrite Ho in Eo. rewrite Hc in Ec.
  injection Eph as <-. injection Ea as <-. injection Elo as <-.
  injection Eo as <-. injection Ec as <-.
  unfold num in *. cbn [fsub fmul flt] in HL, RL.
  fold level in HL, RL.
  split; intro Hit.
  - destruct (Rlt_dec lo level) as [_|N]; [|contradiction].
    split; [exact HL|].
    unfold realized in RL. unfold num in RL.
    rewrite (feq_1_1 : feq (Some 1%R) (Some 1%R) = true) in RL.
    unfold entry.
    destruct (Rlt_dec o level) as [G|G]; cbn [fdiv] in RL;
      match type of RL with
      | context [Req_dec_T ?x 0] => destruct (Req_dec_T x 0) as [Z|NZ]
      end;
      try discriminate;
      cbn [bind fsub] in RL; injection RL as <-;
      (split; [lra|]); rewrite LL; do 2 f_equal; field; lra.
  - destruct (Rlt_dec lo level) as [Y|_]; [contradiction|].
    split; [exact HL|].
    apply realized_no_hit in RL. rewrite LL, RL. reflexivity.
Qed.

End CounterTrendFacts.

(* ------------------------------------------------------------------ *)
(** ** The generator returns on positive prices

    With every input column present, one entry per row, and positive
    opens and lows, no row divides by zero: a long hit puts the level
    above the low, a short entry is the open or a level at or above it. *)

Lemma mapM_raise_inv {A B : Type} (f : A -> result B) (l : list A) (e : exn) :
  mapM f l = Raise e -> exists a, In a l /\ f a = Raise e.
Proof.
  induction l as [|x r IH]; simpl; intro H; [discriminate|].
  destruct (f x) as [b|e'] eqn:Fx; simpl in H.
  - destruct (mapM f r) as [bs|e'] eqn:M; simpl in H; [discriminate|].
    injection H as ->. destruct (IH eq_refl) as (a & Ha & Fa).
    exists a. split; [right; exact Ha | exact Fa].
  - injection H as ->. exists x. split; [left; reflexivity | exact Fx].
Qed.

Lemma apply_rows_raise_inv (df : DataFrame) (f : Row -> result float) (e : exn) :
  apply_rows df f = Raise e ->
  exists i, i < nrows df /\ f (row_of df i) = Raise e.
Proof.
  intro H. apply mapM_raise_inv in H as (i & Hi & F).
  apply in_seq in Hi. exists i. split; [lia | exact F].
Qed.

(** Proof steps for showing that a run returns: [next_rows] splits on
    the next row-wise pass, [refute_rows] takes the row at which it would
    have raised and recovers the cells computed before ([known_rows]),
    [crunch] decides the comparisons of that row. *)
Ltac get_norm_goal :=
  repeat match goal with
    | |- context [get_col (set_col ?d ?n ?c) ?m] =>
        first [ rewrite (get_set_other d n m c) by names_differ
              | rewrite (get_set_same d n c) ]
    end.

Ltac has_nested :=
  repeat first [ apply has_set_same | rewrite has_set_other by names_differ ].

Tactic Notation "next_rows" ident(E) :=
  match goal with
  | |- exists _, bind ?m _ = _ => destruct m as [?col|?err] eqn:E
  end;
  [cbn [bind] | exfalso].

(** The rows computed so far, at [i]. *)
Ltac known_rows i Hi :=
  repeat match reverse goal with
    | E : apply_rows _ _ = Ok ?c |- _ =>
        let v := fresh "v" in
        let F := fresh "F" in
        let N := fresh "N" in
        destruct (apply_rows_nth _ _ _ i E Hi) as (v & F & N);
        unfold row_of, ct_exit, ct_return in F;
        loc_norm F;
        repeat match goal with
               | B : loc _ i _ = Ok _ |- _ => rewrite B in F
               end;
        cbn [bind] in F;
        try (injection F as <-);
        clear E
    end.

Tactic Notation "refute_rows" hyp(E) hyp(Base) :=
  let i := fresh "i" in
  let Hi := fresh "Hi" in
  apply apply_rows_raise_inv in E as (i & Hi & F);
  destruct (Base i Hi)
    as (bph & bpl & bav & bhi & bc & bo & bl
        & Bph & Bpl & Ba & Bhi & Bc & Bo & Bl & Po & Pl);
  known_rows i Hi;
  unfold row_of, ct_exit, ct_return in F;
  loc_norm F;
  rewrite ?Bph, ?Bpl, ?Ba, ?Bhi, ?Bc, ?Bo, ?Bl in F;
  cbn [bind] in F.

Ltac float_ops F :=
  repeat (progress (cbn [fsub fmul fadd flt feq fdiv bind] in F;
                    unfold num, nan, fgt in F)).

Ltac crunch F :=
  repeat match goal with
         | x : float |- _ => destruct x
         end;
  repeat (float_ops F;
          match type of F with
          | context [Rlt_dec ?a ?b] => destruct (Rlt_dec a b)
          | context [Req_dec_T ?a ?b] => destruct (Req_dec_T a b)
          end);
  float_ops F;
  first [ discriminate F | lra | nra ].

Section CounterTrendReturns.

Variable str_float : R -> string.

(** X29: on a table with one entry per row in every column that has the
    previous extremes, the lagged average range and the four prices,
    with positive opens and lows, [create_CT_ret] returns: no entry
    price is zero. *)
Lemma create_CT_ret_returns (df : DataFrame) (p : nat) (r : R) :
  well_formed df ->
  has_col df "Prev_high" = true -> has_col df "Prev_low" = true ->
  has_col df (avdayrange_col p) = true ->
  has_col df "Open" = true -> has_col df "High" = true ->
  has_col df "Low" = true -> has_col df "Close" = true ->
  (forall i v, loc df i "Open" = Ok v -> positive_cell v) ->
  (forall i v, loc df i "Low" = Ok v -> positive_cell v) ->
  exists df', create_CT_ret str_float df p r = Ok df'.
Proof.
  intros W Hph Hpl Ha Ho Hhi Hlo Hc PosO PosL.
  assert (Base : forall i, i < nrows df ->
            exists ph pl a hi c o l,
              loc df i "Prev_high" = Ok ph /\ loc df i "Prev_low" = Ok pl /\
              loc df i ("Prev_" ++ str p ++ "_AvDayrange") = Ok a /\
              loc df i "High" = Ok hi /\ loc df i "Close" = Ok c /\
              loc df i "Open" = Ok (num o) /\ loc df i "Low" = Ok (num l) /\
              (0 < o)%R /\ (0 < l)%R).
  { intros i Hi.
    destruct (loc_total df _ i W Hph Hi) as [ph E1].
    destruct (loc_total df _ i W Hpl Hi) as [pl E2].
    destruct (loc_total df _ i W Ha Hi) as [a E3].
    destruct (loc_total df _ i W Hhi Hi) as [hi E4].
    destruct (loc_total df _ i W Hc Hi) as [c E5].
    destruct (loc_total df _ i W Ho Hi) as [o E6].
    destruct (loc_total df _ i W Hlo Hi) as [l E7].
    destruct (PosO i o E6) as (x & -> & Px).
    destruct (PosL i l E7) as (y & -> & Py).
    exists ph, pl, a, hi, c, x, y. auto 10. }
  unfold create_CT_ret.
  next_rows E1; [|refute_rows E1 Base; discriminate].
  next_rows E2; [|refute_rows E2 Base; discriminate].
  next_rows E3; [|refute_rows E3 Base; discriminate].
  next_rows E4; [|refute_rows E4 Base; discriminate].
  next_rows E5; [|refute_rows E5 Base; crunch F].
  get_norm_goal. cbn [bind].
  next_rows E6; [|refute_rows E6 Base; discriminate].
  next_rows E7; [|refute_rows E7 Base; discriminate].
  next_rows E8; [|refute_rows E8 Base; discriminate].
  next_rows E9; [|refute_rows E9 Base; discriminate].
  next_rows E10; [|refute_rows E10 Base; crunch F].
  get_norm_goal. cbn [bind].
  match goal with
  | |- exists _, bind (drop_col ?X _) _ = _ =>
      destruct (drop_col_ok X "Hit_level") as (d1 & -> & _ & K1);
        [has_nested|]
  end.
  cbn [bind].
  destruct (drop_col_ok d1 "Hit?") as (d2 & -> & _ & K2).
  { rewrite has_col_get, K1 by discriminate. rewrite <- has_col_get. has_nested. }
  cbn [bind].
  destruct (drop_col_ok d2 "HitAt") as (d3 & -> & _ & K3).
  { rewrite has_col_get, K2, K1 by discriminate. rewrite <- has_col_get.
    has_nested. }
  cbn [bind].
  destruct (drop_col_ok d3 "ExitPr") as (d4 & -> & _ & K4).
  { rewrite has_col_get, K3, K2, K1 by discriminate. rewrite <- has_col_get.
    has_nested. }
  eauto.
Qed.

End CounterTrendReturns.

(* ------------------------------------------------------------------ *)
(** ** The scenario of the specification, run *)

(** Evaluation on numerals: each comparison met is decided by [lra]. *)
Ltac decide_reals :=
  repeat (cbn;
          match goal with
          | |- context [Rlt_dec ?a ?b] =>
              destruct (Rlt_dec a b); [try (exfalso; lra) | try (exfalso; lra)]
          | |- context [Req_dec_T ?a ?b] =>
              destruct (Req_dec_T a b); [try (exfalso; lra) | try (exfalso; lra)]
          end).

Lemma ct_prev_run : add_prev_extremes ct_input = Ok ct_prev.
Proof. reflexivity. Qed.

Lemma ct_output_run : create_CT_ret two_point_zero ct_prev 10 2 = Ok ct_output.
Proof.
  unfold create_CT_ret, apply_rows, ct_exit, ct_return, row_of, loc.
  decide_reals. reflexivity.
Qed.

Lemma create_CT_ret_no_hit_zero_witness :
  loc ct_output 0 "Long_10_2.0_Return" = Ok (num 0) /\
  loc ct_output 0 "Short_10_2.0_Return" = Ok (num 0).
Proof.
  destruct (create_CT_ret_no_hit_zero two_point_zero ct_prev ct_output 10 2 0
              ct_output_run) as [L S].
  - simpl. lia.
  - split; [apply L | apply S]; reflexivity.
Defined.

Lemma create_CT_ret_long_rule_witness :
  loc ct_output 1 "Hit?_long_10_2.0" = Ok (num 1) /\
  loc ct_output 1 "Long_10_2.0_Return" = Ok (num (100 / 99 - 1)).
Proof.
  destruct (create_CT_ret_long_rule two_point_zero ct_prev ct_output 10 2 1
              110 5 98 99 100 ct_output_run) as [Hit _];
    try reflexivity; [simpl; lia|].
  destruct Hit as (A & _ & B); [lra|].
  split; [exact A|].
  destruct (Rlt_dec 99 (110 - 5 * 2)) as [_|N]; [exact B | exfalso; lra].
Defined.

Lemma create_CT_ret_first_bar_witness :
  loc ct_prev 0 "Prev_high" = Ok nan /\ loc ct_prev 0 "Prev_low" = Ok nan /\
  loc ct_output 0 "Hit?_long_10_2.0" = Ok (num 0) /\
  loc ct_output 0 "Long_10_2.0_Return" = Ok (num 0) /\
  loc ct_output 0 "Hit?_short_10_2.0" = Ok (num 0) /\
  loc ct_output 0 "Short_10_2.0_Return" = Ok (num 0).
Proof.
  apply (create_CT_ret_first_bar two_point_zero ct_input ct_prev ct_output 10 2
           ct_prev_run ct_output_run).
  simpl. lia.
Defined.

(* ================================================================== *)
(** * Date normalisation: fixed points and failures *)

Lemma split_nonempty (sep : ascii) (s : string) : split sep s <> [].
Proof.
  induction s as [|a r IH]; simpl; [discriminate|].
  destruct (Ascii.eqb a sep); [discriminate|].
  destruct (split sep r); [contradiction | discriminate].
Qed.

Lemma join_cons (sep f : string) (l : list string) :
  l <> [] -> join sep (f :: l) = (f ++ sep ++ join sep l)%string.
Proof. destruct l; [congruence | reflexivity]. Qed.

Lemma join_split (sep : ascii) (s : string) :
  join (String sep "") (split sep s) = s.
Proof.
  induction s as [|a r IH]; [reflexivity|]. simpl split.
  pose proof (split_nonempty sep r) as NE.
  destruct (Ascii.eqb_spec a sep) as [->|Ne].
  - rewrite join_cons by exact NE. simpl. rewrite IH. reflexivity.
  - destruct (split sep r) as [|f fs]; [contradiction|].
    destruct fs as [|g fs].
    + simpl in *. rewrite IH. reflexivity.
    + rewrite join_cons by discriminate.
      rewrite join_cons in IH by discriminate.
      simpl. rewrite <- IH. reflexivity.
Qed.

Lemma length_split (sep : ascii) (s : string) :
  List.length (split sep s) = S (count_char sep s).
Proof.
  induction s as [|a r IH]; [reflexivity|]. simpl.
  destruct (Ascii.eqb a sep); simpl; [rewrite IH; reflexivity|].
  destruct (split sep r); simpl in *; lia.
Qed.

Lemma contains_count (c : ascii) (s : string) :
  contains_char c s = negb (count_char c s =? 0)%nat.
Proof.
  induction s as [|a r IH]; [reflexivity|]. simpl.
  destruct (Ascii.eqb a c); simpl; [reflexivity | exact IH].
Qed.

(** X1: a date already in the canonical form YYYY/MM/DD is returned as it
    is: the normalisation is the identity on its own range. *)
Theorem standardizeTimeString_canonical_fixed (s : string) :
  is_canonical_date s = true -> standardizeTimeString s = Ok s.
Proof.
  unfold is_canonical_date. intro H.
  destruct (split "/" s) as [|y [|m [|d [|x rest]]]] eqn:E; try discriminate.
  repeat (apply andb_true_iff in H; destruct H as [H ?]).
  repeat match goal with
         | K : (_ =? _)%nat = true |- _ => apply Nat.eqb_eq in K
         end.
  pose proof (join_split "/" s) as J. rewrite E in J. simpl in J.
  assert (Slash : is_digit "/" = false) by reflexivity.
  assert (Dash : is_digit "-" = false) by reflexivity.
  unfold standardizeTimeString.
  assert (C1 : contains_char "-" s = false).
  { rewrite <- J. rewrite !contains_char_app. simpl.
    rewrite !contains_char_app. simpl.
    rewrite !(digits_no_sep "-") by assumption. reflexivity. }
  assert (C2 : contains_char "/" s = true).
  { rewrite <- J. rewrite contains_char_app. simpl. apply orb_true_r. }
  rewrite C1, C2, E. simpl.
  repeat match goal with
         | K : String.length _ = _ |- _ => rewrite K
         end.
  simpl. rewrite J. reflexivity.
Qed.

Lemma standardizeTimeString_canonical_fixed_witness :
  standardizeTimeString "1997/09/10" = Ok "1997/09/10".
Proof.
  apply (standardizeTimeString_canonical_fixed "1997/09/10"). reflexivity.
Defined.

(** X2: a string in which the separator taken (['-'] when there is one,
    else ['/']) occurs exactly once has two fields only, and the
    normalisation raises [IndexError]; the other separator is never tried,
    so a date written with one of each fails. *)
Theorem standardizeTimeString_two_fields (s : string) :
  count_char "-" s = 1 \/ (count_char "-" s = 0 /\ count_char "/" s = 1) ->
  standardizeTimeString s = Raise IndexError.
Proof.
  intro H. unfold standardizeTimeString.
  rewrite !contains_count.
  destruct H as [H | [H0 H1]].
  - rewrite H. simpl.
    pose proof (length_split "-" s) as L. rewrite H in L.
    destruct (split "-" s) as [|a [|b [|c l]]]; simpl in L; try lia.
    reflexivity.
  - rewrite H0, H1. simpl.
    pose proof (length_split "/" s) as L. rewrite H1 in L.
    destruct (split "/" s) as [|a [|b [|c l]]]; simpl in L; try lia.
    reflexivity.
Qed.

Lemma standardizeTimeString_two_fields_witness :
  standardizeTimeString "2018-1/5" = Raise IndexError.
Proof.
  apply (standardizeTimeString_two_fields "2018-1/5"). left. reflexivity.
Defined.

(** X3: what follows a third separator is dropped without notice: the
    result is that of the first three fields alone. *)
Theorem standardizeTimeString_drops_extra_fields (sep : ascii)
  (y m d rest : string) :
  sep = "-"%char \/ (sep = "/"%char /\
                     contains_char "-" (y ++ m ++ d ++ rest) = false) ->
  contains_char sep y = false ->
  contains_char sep m = false ->
  contains_char sep d = false ->
  standardizeTimeString
    (y ++ String sep (m ++ String sep (d ++ String sep rest)))
  = Ok (y ++ "/" ++ pad m ++ "/" ++ pad d)%string.
Proof.
  intros Hsep Hy Hm Hd. unfold standardizeTimeString.
  assert (F : split sep (y ++ String sep (m ++ String sep (d ++ String sep rest)))
              = y :: m :: d :: split sep rest).
  { rewrite !split_field by assumption. reflexivity. }
  destruct Hsep as [-> | [-> N]].
  - rewrite contains_char_app. simpl contains_char.
    rewrite orb_true_r. rewrite F. reflexivity.
  - rewrite !contains_char_app in N.
    repeat (apply orb_false_iff in N; destruct N as [? N]).
    rewrite !contains_char_app. simpl contains_char.
    rewrite !contains_char_app. simpl contains_char.
    rewrite !contains_char_app. simpl contains_char.
    repeat match goal with
           | K : contains_char _ _ = false |- _ => rewrite K
           end.
    simpl. rewrite ?orb_true_r. rewrite F. reflexivity.
Qed.

Lemma standardizeTimeString_drops_extra_fields_witness :
  standardizeTimeString "2018-1-5-12h" = Ok "2018/01/05".
Proof.
  apply (standardizeTimeString_drops_extra_fields "-"%char "2018" "1" "5" "12h");
    try reflexivity.
  left. reflexivity.
Defined.

(* ================================================================== *)
(** * Same-day, past and future returns *)

Lemma nth_shift (n : nat) (xs : column) (i : nat) :
  i < List.length xs ->
  nth_error (shift n xs) i
  = if (i <? n)%nat then Some nan else nth_error xs (i - n).
Proof.
  intro H. unfold shift. rewrite nth_error_firstn.
  destruct (Nat.ltb_spec i (List.length xs)); [|lia].
  destruct (Nat.ltb_spec i n).
  - rewrite nth_error_app1 by (rewrite repeat_length; lia).
    apply nth_error_repeat. lia.
  - rewrite nth_error_app2 by (rewrite repeat_length; lia).
    rewrite repeat_length. reflexivity.
Qed.

Lemma nth_shift_back (n : nat) (xs : column) (i : nat) :
  i < List.length xs ->
  nth_error (shift_back n xs) i
  = if (i + n <? List.length xs)%nat then nth_error xs (i + n) else Some nan.
Proof.
  intro H. unfold shift_back.
  destruct (Nat.ltb_spec (i + n) (List.length xs)).
  - rewrite nth_error_app1 by (rewrite length_skipn; lia).
    rewrite nth_error_skipn. f_equal. lia.
  - rewrite nth_error_app2 by (rewrite length_skipn; lia).
    apply nth_error_repeat. rewrite length_skipn. lia.
Qed.

Lemma nth_nums (xs : list R) (i : nat) :
  i < List.length xs -> nth_error (map num xs) i = Some (num (nth i xs 0%R)).
Proof.
  intro H. rewrite nth_error_map, nth_error_nth' with (d := 0%R) by exact H.
  reflexivity.
Qed.

Lemma fdiv_nums (x y : R) :
  y <> 0%R -> fdiv (num x) (num y) = Ok (num (x / y)).
Proof.
  intro H. unfold fdiv, num. destruct (Req_dec_T y 0); [contradiction|].
  reflexivity.
Qed.

Lemma loc_priced (xs : list R) (df : DataFrame) (i : nat) :
  priced xs df -> i < List.length xs ->
  loc df i "Close" = Ok (num (nth i xs 0%R)).
Proof.
  intros (_ & _ & G) Hi. apply (loc_get _ _ _ _ _ G). apply nth_nums. exact Hi.
Qed.

(** X4: on a table of closes none of which, the last apart, is zero,
    [calEndOfDayRet] returns; the same-day return is missing at the first
    bar and is [close[t] / close[t-1] - 1] at every later one. *)
Theorem calEndOfDayRet_values (xs : list R) (df : DataFrame) :
  priced xs df ->
  (forall j, S j < List.length xs -> nth j xs 0%R <> 0%R) ->
  exists df',
    calEndOfDayRet df "Close" = Ok df' /\
    (0 < List.length xs -> loc df' 0 "eodRet" = Ok nan) /\
    (forall t, S t < List.length xs ->
       loc df' (S t) "eodRet"
       = Ok (num (nth (S t) xs 0 / nth t xs 0 - 1)%R)).
Proof.
  intros P NZ. pose proof P as (W & N & G).
  unfold calEndOfDayRet. rewrite G. cbn [bind].
  set (dfp := set_col df "past_Close" (shift 1 (map num xs))).
  assert (Pp : priced xs dfp).
  { apply priced_set; [exact P | discriminate |].
    rewrite length_shift, length_map. auto. }
  rewrite apply_rows_total
    with (g := fun i => match i with
                        | O => nan
                        | S j => num (nth (S j) xs 0 / nth j xs 0 - 1)%R
                        end).
  2:{ intros i Hi. unfold row_of.
      assert (Hi' : i < List.length xs) by (unfold dfp in Hi; simpl in Hi; lia).
      rewrite (loc_priced xs dfp i Pp Hi'). cbn [bind].
      assert (Past : nth_error (shift 1 (map num xs)) i
                     = Some match i with
                            | O => nan
                            | S j => num (nth j xs 0%R)
                            end).
      { destruct i as [|j].
        - apply shift1_0. destruct xs; simpl in *; [lia | discriminate].
        - rewrite shift1_S by (rewrite length_map; exact Hi').
          apply nth_nums. lia. }
      rewrite (loc_get dfp i "past_Close" _ _ (get_set_same _ _ _) Past).
      cbn [bind]. destruct i as [|j]; [reflexivity|].
      rewrite fdiv_nums by (apply NZ; exact Hi'). reflexivity. }
  cbn [bind].
  match goal with
  | |- exists _, drop_col ?X _ = _ /\ _ =>
      destruct (drop_col_ok X "past_Close") as (df' & D & _ & K)
  end.
  { rewrite has_set_other by discriminate. apply has_set_same. }
  exists df'. split; [exact D|].
  assert (E : forall i, i < List.length xs ->
            loc df' i "eodRet"
            = Ok match i with
                 | O => nan
                 | S j => num (nth (S j) xs 0 / nth j xs 0 - 1)%R
                 end).
  { intros i Hi. unfold loc. rewrite K by discriminate.
    rewrite get_set_same. cbn [bind].
    rewrite nth_error_map.
    rewrite nth_error_nth' with (d := 0)
      by (rewrite length_seq; unfold dfp; simpl; lia).
    rewrite seq_nth by (unfold dfp; simpl; lia). reflexivity. }
  split.
  - intro H. apply (E 0 H).
  - intros t Ht. apply (E (S t) Ht).
Qed.

Lemma calEndOfDayRet_values_witness :
  exists df',
    calEndOfDayRet (frame_of_bars bars_a) "Close" = Ok df' /\
    (0 < 3 -> loc df' 0 "eodRet" = Ok nan) /\
    (forall t, S t < 3 ->
       loc df' (S t) "eodRet"
       = Ok (num (nth (S t) [102; 108; 106] 0 / nth t [102; 108; 106] 0 - 1)%R)).
Proof.
  apply (calEndOfDayRet_values [102; 108; 106]%R (frame_of_bars bars_a)).
  - exact (priced_bars bars_a).
  - intros [|[|j]] Hj; simpl in *; try lra; lia.
Defined.

(** X5: a zero close anywhere but at the last bar makes [calEndOfDayRet]
    raise [ZeroDivisionError]: the next row divides by it. *)
Theorem calEndOfDayRet_zero_close (xs : list R) (df : DataFrame) (j : nat) :
  priced xs df ->
  S j < List.length xs ->
  nth j xs 0%R = 0%R ->
  calEndOfDayRet df "Close" = Raise ZeroDivisionError.
Proof.
  intros P Hj Z. pose proof P as (W & N & G).
  unfold calEndOfDayRet. rewrite G. cbn [bind].
  set (dfp := set_col df "past_Close" (shift 1 (map num xs))).
  assert (Pp : priced xs dfp).
  { apply priced_set; [exact P | discriminate |].
    rewrite length_shift, length_map. auto. }
  assert (Rows : forall i, i < List.length xs ->
            exists b, nth_error (shift 1 (map num xs)) i = Some b /\
                      row_of dfp i "Close" = Ok (num (nth i xs 0%R)) /\
                      row_of dfp i "past_Close" = Ok b).
  { intros i Hi.
    destruct (nth_error_in_range (shift 1 (map num xs)) i) as [b Hb];
      [rewrite length_shift, length_map; exact Hi|].
    exists b. split; [exact Hb|]. unfold row_of.
    split; [exact (loc_priced xs dfp i Pp Hi)|].
    exact (loc_get dfp i "past_Close" _ b (get_set_same _ _ _) Hb). }
  unfold apply_rows.
  rewrite mapM_raise with (e := ZeroDivisionError); [reflexivity| |].
  - intros i Hi. apply in_seq in Hi.
    destruct (Rows i) as (b & _ & -> & ->);
      [unfold dfp in Hi; simpl in Hi; lia|].
    cbn [bind]. destruct (fdiv_cases (num (nth i xs 0%R)) b) as [-> | [q ->]].
    + left. reflexivity.
    + right. eexists. reflexivity.
  - exists (S j). split; [apply in_seq; unfold dfp; simpl; lia|].
    destruct (Rows (S j) Hj) as (b & Hb & -> & ->). cbn [bind].
    rewrite shift1_S in Hb by (rewrite length_map; exact Hj).
    rewrite nth_nums in Hb by lia. injection Hb as <-.
    rewrite Z. rewrite fdiv_zero. reflexivity.
Qed.

Lemma calEndOfDayRet_zero_close_witness :
  calEndOfDayRet
    (frame_of_bars [mkBar 1 1 0 0; mkBar 1 2 1 2]) "Close"
  = Raise ZeroDivisionError.
Proof.
  apply (calEndOfDayRet_zero_close [0; 2]%R _ 0).
  - exact (priced_bars [mkBar 1 1 0 0; mkBar 1 2 1 2]).
  - simpl. lia.
  - reflexivity.
Defined.

(** X6: on a table of closes, [calPret] with period [p] returns as long
    as no close it divides by is zero; the past return is missing at the
    first [p+1] bars and is [close[t-1] / close[t-1-p] - 1] afterwards:
    the bar [t] itself never enters it. *)
Theorem calPret_values (xs : list R) (df : DataFrame) (p : nat) :
  priced xs df ->
  (forall j, j + p + 1 < List.length xs -> nth j xs 0%R <> 0%R) ->
  exists df',
    calPret df p "Close" = Ok df' /\
    (forall t, t <= p -> t < List.length xs ->
       loc df' t ("pret" ++ str p)%string = Ok nan) /\
    (forall t, p < t < List.length xs ->
       loc df' t ("pret" ++ str p)%string
       = Ok (num (nth (t - 1) xs 0 / nth (t - 1 - p) xs 0 - 1)%R)).
Proof.
  intros P NZ. pose proof P as (W & N & G).
  unfold calPret. rewrite G. cbn [bind].
  rewrite get_set_other by discriminate. rewrite G. cbn [bind].
  set (dfy := set_col _ "yesterday_Close" _).
  assert (Ny : nrows dfy = List.length xs) by exact N.
  pose (g := fun t => if (t <=? p)%nat then nan
                      else num (nth (t - 1) xs 0 / nth (t - 1 - p) xs 0 - 1)%R).
  rewrite apply_rows_total with (g := g).
  2:{ intros i Hi. rewrite Ny in Hi. unfold row_of, g.
      assert (Y : nth_error (shift 1 (map num xs)) i
                  = Some match i with
                         | O => nan
                         | S j => num (nth j xs 0%R)
                         end).
      { destruct i as [|j].
        - apply shift1_0. destruct xs; simpl in *; [lia | discriminate].
        - rewrite shift1_S by (rewrite length_map; exact Hi).
          apply nth_nums. lia. }
      rewrite (loc_get dfy i "yesterday_Close" _ _ (get_set_same _ _ _) Y).
      cbn [bind].
      assert (Gp : get_col dfy "past_Close" = Ok (shift (p + 1) (map num xs))).
      { unfold dfy. rewrite get_set_other by discriminate. apply get_set_same. }
      unfold loc. rewrite Gp. cbn [bind].
      rewrite nth_shift by (rewrite length_map; exact Hi).
      destruct (Nat.leb_spec i p).
      - destruct (Nat.ltb_spec i (p + 1)); [|lia]. reflexivity.
      - destruct (Nat.ltb_spec i (p + 1)); [lia|].
        rewrite nth_nums by lia. cbn [bind].
        destruct i as [|j]; [lia|].
        replace (S j - (p + 1)) with (S j - 1 - p) by lia.
        rewrite fdiv_nums by (apply NZ; lia).
        replace (S j - 1) with j by lia. reflexivity. }
  cbn [bind].
  match goal with
  | |- exists _, bind (drop_col ?X _) _ = _ /\ _ =>
      destruct (drop_col_ok X "yesterday_Close") as (d1 & -> & _ & K1)
  end.
  { rewrite has_set_other by discriminate. apply has_set_same. }
  cbn [bind].
  destruct (drop_col_ok d1 "past_Close") as (d2 & D2 & _ & K2).
  { rewrite has_col_get, K1 by discriminate. rewrite <- has_col_get.
    rewrite has_set_other by discriminate.
    unfold dfy. rewrite has_set_other by discriminate. apply has_set_same. }
  exists d2. split; [exact D2|].
  assert (E : forall t, t < List.length xs ->
            loc d2 t ("pret" ++ str p)%string = Ok (g t)).
  { intros t Ht. unfold loc. rewrite K2, K1 by discriminate.
    rewrite get_set_same. cbn [bind].
    rewrite nth_error_map.
    rewrite nth_error_nth' with (d := 0) by (rewrite length_seq, Ny; exact Ht).
    rewrite seq_nth by (rewrite Ny; exact Ht). reflexivity. }
  split.
  - intros t Hp Ht. rewrite (E t Ht). unfold g.
    destruct (Nat.leb_spec t p); [reflexivity | lia].
  - intros t [Hp Ht]. rewrite (E t Ht). unfold g.
    destruct (Nat.leb_spec t p); [lia | reflexivity].
Qed.

Lemma calPret_values_witness :
  exists df',
    calPret (frame_of_bars bars_a) 1 "Close" = Ok df' /\
    (forall t, t <= 1 -> t < 3 -> loc df' t "pret1" = Ok nan) /\
    (forall t, 1 < t < 3 ->
       loc df' t "pret1"
       = Ok (num (nth (t - 1) [102; 108; 106] 0
                  / nth (t - 1 - 1) [102; 108; 106] 0 - 1)%R)).
Proof.
  apply (calPret_values [102; 108; 106]%R (frame_of_bars bars_a) 1).
  - exact (priced_bars bars_a).
  - intros [|[|j]] Hj; simpl in *; try lra; lia.
Defined.

(** X7: on a table of closes none of which is zero, [calFret] with
    period [p] returns; the future return at [t] is
    [close[t+p] / close[t] - 1] while bar [t+p] exists and is missing at
    the last [p] bars. *)
Theorem calFret_values (xs : list R) (df : DataFrame) (p : nat) :
  priced xs df ->
  Forall (fun x => x <> 0%R) xs ->
  exists df',
    calFret df p "Close" = Ok df' /\
    (forall t, t + p < List.length xs ->
       loc df' t ("fret" ++ str p)%string
       = Ok (num (nth (t + p) xs 0 / nth t xs 0 - 1)%R)) /\
    (forall t, t < List.length xs -> List.length xs <= t + p ->
       loc df' t ("fret" ++ str p)%string = Ok nan).
Proof.
  intros P NZ. pose proof P as (W & N & G).
  unfold calFret. rewrite G. cbn [bind].
  set (dff := set_col df "future_Close" (shift_back p (map num xs))).
  assert (Pf : priced xs dff).
  { apply priced_set; [exact P | discriminate |].
    unfold shift_back. rewrite length_app, length_skipn, repeat_length, length_map.
    lia. }
  pose (g := fun t => if (t + p <? List.length xs)%nat
                      then num (nth (t + p) xs 0 / nth t xs 0 - 1)%R
                      else nan).
  rewrite apply_rows_total with (g := g).
  2:{ intros i Hi. assert (Hi' : i < List.length xs) by (destruct Pf as (_ & <- & _); exact Hi).
      unfold row_of, g.
      assert (Gf : get_col dff "future_Close" = Ok (shift_back p (map num xs)))
        by apply get_set_same.
      unfold loc at 1. rewrite Gf. cbn [bind].
      rewrite nth_shift_back by (rewrite length_map; exact Hi').
      rewrite length_map.
      assert (NZi : nth i xs 0%R <> 0%R).
      { rewrite Forall_forall in NZ. apply NZ. apply nth_In. exact Hi'. }
      destruct (Nat.ltb_spec (i + p) (List.length xs)).
      - rewrite nth_nums by lia. cbn [bind].
        rewrite (loc_priced xs dff i Pf Hi'). cbn [bind].
        rewrite fdiv_nums by exact NZi. reflexivity.
      - cbn [bind]. rewrite (loc_priced xs dff i Pf Hi'). cbn [bind].
        unfold fdiv, num. destruct (Req_dec_T (nth i xs 0%R) 0); [contradiction|].
        reflexivity. }
  cbn [bind].
  match goal with
  | |- exists _, drop_col ?X _ = _ /\ _ =>
      destruct (drop_col_ok X "future_Close") as (df' & D & _ & K)
  end.
  { rewrite has_set_other by discriminate. apply has_set_same. }
  exists df'. split; [exact D|].
  assert (E : forall t, t < List.length xs ->
            loc df' t ("fret" ++ str p)%string = Ok (g t)).
  { intros t Ht. unfold loc. rewrite K by discriminate.
    rewrite get_set_same. cbn [bind].
    destruct Pf as (_ & Nf & _).
    rewrite nth_error_map.
    rewrite nth_error_nth' with (d := 0) by (rewrite length_seq, Nf; exact Ht).
    rewrite seq_nth by (rewrite Nf; exact Ht). reflexivity. }
  split.
  - intros t Ht. rewrite E by lia. unfold g.
    destruct (Nat.ltb_spec (t + p) (List.length xs)); [reflexivity | lia].
  - intros t Ht Hp. rewrite (E t Ht). unfold g.
    destruct (Nat.ltb_spec (t + p) (List.length xs)); [lia | reflexivity].
Qed.

Lemma calFret_values_witness :
  exists df',
    calFret (frame_of_bars bars_a) 1 "Close" = Ok df' /\
    (forall t, t + 1 < 3 ->
       loc df' t "fret1"
       = Ok (num (nth (t + 1) [102; 108; 106] 0 / nth t [102; 108; 106] 0 - 1)%R)) /\
    (forall t, t < 3 -> 3 <= t + 1 -> loc df' t "fret1" = Ok nan).
Proof.
  apply (calFret_values [102; 108; 106]%R (frame_of_bars bars_a) 1).
  - exact (priced_bars bars_a).
  - repeat constructor; lra.
Defined.

(* ================================================================== *)
(** * Moving averages: values and range *)

Lemma window_nums (w i : nat) (xs : list R) :
  w <= S i -> i < List.length xs ->
  trailing w i (map num xs) = Some (map num (firstn w (skipn (S i - w) xs))) /\
  List.length (firstn w (skipn (S i - w) xs)) = w.
Proof.
  intros Hw Hi. unfold trailing.
  destruct (Nat.leb_spec w (S i)); [|lia].
  rewrite skipn_map, firstn_map. split; [reflexivity|].
  rewrite length_firstn, length_skipn. lia.
Qed.

Lemma rolling_nums (stat : list R -> float) (w i : nat) (xs : list R) :
  w <= S i -> i < List.length xs ->
  nth_error (rolling stat w (map num xs)) i
  = Some (stat (firstn w (skipn (S i - w) xs))).
Proof.
  intros Hw Hi. rewrite nth_rolling by (rewrite length_map; exact Hi).
  destruct (window_nums w i xs Hw Hi) as [-> _].
  rewrite (observed_nums (fun x => x)), map_id. reflexivity.
Qed.

Lemma rolling_warmup (stat : list R -> float) (w i : nat) (xs : column) :
  S i < w -> i < List.length xs ->
  nth_error (rolling stat w xs) i = Some nan.
Proof.
  intros Hw Hi. rewrite nth_rolling by exact Hi. unfold trailing.
  destruct (Nat.leb_spec w (S i)); [lia | reflexivity].
Qed.

(** X8: the SMA column is missing before index [w-1] and holds from
    there on the arithmetic mean of the [w] values ending at the
    position. *)
Theorem calSMA_values (df : DataFrame) (col : string) (xs : list R) (w : nat) :
  get_col df col = Ok (map num xs) ->
  1 <= w ->
  exists sma,
    calSMA df w col = Ok (set_col df ("SMA_" ++ str w)%string sma) /\
    List.length sma = List.length xs /\
    (forall i, S i < w -> i < List.length xs -> nth_error sma i = Some nan) /\
    (forall i, w <= S i -> i < List.length xs ->
       nth_error sma i
       = Some (num (Rsum (firstn w (skipn (S i - w) xs)) / INR w))).
Proof.
  intros G Hw. unfold calSMA. rewrite G. cbn [bind].
  eexists. split; [reflexivity|].
  split; [rewrite length_rolling, length_map; reflexivity|].
  split.
  - intros i H1 H2. apply rolling_warmup; [exact H1|].
    rewrite length_map. exact H2.
  - intros i H1 H2. rewrite rolling_nums by assumption.
    destruct (window_nums w i xs H1 H2) as [_ L].
    rewrite mean_nonempty, L; [reflexivity|].
    intro Z. rewrite Z in L. simpl in L. lia.
Qed.

Lemma calSMA_values_witness :
  exists sma,
    calSMA closes_10_40 2 "Close" = Ok (set_col closes_10_40 "SMA_2" sma) /\
    List.length sma = 4 /\
    (forall i, S i < 2 -> i < 4 -> nth_error sma i = Some nan) /\
    (forall i, 2 <= S i -> i < 4 ->
       nth_error sma i
       = Some (num (Rsum (firstn 2 (skipn (S i - 2) [10; 20; 30; 40]%R)) / INR 2))).
Proof.
  apply (calSMA_values closes_10_40 "Close" [10; 20; 30; 40]%R 2).
  - reflexivity.
  - lia.
Defined.

Lemma Rsum_bounds (lo hi : R) (l : list R) :
  (forall x, In x l -> lo <= x <= hi)%R ->
  (INR (List.length l) * lo <= Rsum l <= INR (List.length l) * hi)%R.
Proof.
  induction l as [|a r IH]; intro H.
  - simpl. lra.
  - assert (Ha : (lo <= a <= hi)%R) by (apply H; left; reflexivity).
    assert (Hr : (INR (List.length r) * lo <= Rsum r
                  <= INR (List.length r) * hi)%R)
      by (apply IH; intros x Hx; apply H; right; exact Hx).
    change (List.length (a :: r)) with (S (List.length r)).
    rewrite S_INR. simpl Rsum. lra.
Qed.

Lemma mean_bounds (lo hi : R) (l : list R) :
  l <> [] ->
  (forall x, In x l -> lo <= x <= hi)%R ->
  exists m, mean l = Some m /\ (lo <= m <= hi)%R.
Proof.
  intros NE H. rewrite mean_nonempty by exact NE.
  eexists. split; [reflexivity|].
  pose proof (Rsum_bounds lo hi l H) as [B1 B2].
  assert (Pos : (0 < INR (List.length l))%R).
  { apply lt_0_INR. destruct l; [congruence | simpl; lia]. }
  split.
  - apply Rmult_le_reg_r with (r := INR (List.length l)); [exact Pos|].
    unfold Rdiv. rewrite Rmult_assoc, Rinv_l by lra. lra.
  - apply Rmult_le_reg_r with (r := INR (List.length l)); [exact Pos|].
    unfold Rdiv. rewrite Rmult_assoc, Rinv_l by lra. lra.
Qed.

Lemma smoothing_factor (w : nat) :
  1 <= w -> (0 < 2 / INR (w + 1) <= 1)%R.
Proof.
  intro H.
  assert (P : (2 <= INR (w + 1))%R).
  { rewrite plus_INR. simpl INR. pose proof (le_INR 1 w H) as L.
    simpl in L. lra. }
  split.
  - apply Rdiv_lt_0_compat; lra.
  - apply Rmult_le_reg_r with (r := INR (w + 1)); [lra|].
    unfold Rdiv. rewrite Rmult_assoc, Rinv_l by lra. lra.
Qed.

Lemma firstn_in_range {A : Type} (w : nat) (l : list A) (x : A) :
  In x (firstn w l) -> In x l.
Proof.
  intro H. rewrite <- (firstn_skipn w l). apply in_or_app. left. exact H.
Qed.

Lemma window_in_range {A : Type} (w k : nat) (l : list A) (x : A) :
  In x (firstn w (skipn k l)) -> In x l.
Proof.
  intro H. apply firstn_in_range in H.
  rewrite <- (firstn_skipn k l). apply in_or_app. right. exact H.
Qed.

(** X9: both moving averages stay within the range of the data: when
    every value of the series lies between [lo] and [hi], so does every
    value of the SMA and of the EMA column from index [w-1] on. *)
Theorem moving_averages_within_range (df : DataFrame) (col : string)
  (xs : list R) (w : nat) (lo hi : R) :
  col <> ("EMA_" ++ str w)%string ->
  get_col df col = Ok (map num xs) ->
  List.length xs = nrows df ->
  1 <= w <= List.length xs ->
  (forall x, In x xs -> lo <= x <= hi)%R ->
  exists sma ema,
    calSMA df w col = Ok (set_col df ("SMA_" ++ str w)%string sma) /\
    calEMA df w col 2 = Ok (set_col df ("EMA_" ++ str w)%string ema) /\
    forall i, w <= S i -> i < List.length xs ->
      exists a b,
        nth_error sma i = Some (num a) /\ (lo <= a <= hi)%R /\
        nth_error ema i = Some (num b) /\ (lo <= b <= hi)%R.
Proof.
  intros Hn G L Hw B.
  destruct (calEMA_column df w col (map num xs) 2 Hn G) as (e & E & Fill);
    try (rewrite length_map; assumption).
  rewrite length_map in Fill.
  unfold calSMA. rewrite G. cbn [bind].
  exists (rolling mean w (map num xs)), e.
  split; [reflexivity|]. split; [exact E|].
  assert (Ema : forall d, w - 1 + d < List.length xs ->
            exists b, nth_error e (w - 1 + d) = Some (num b) /\ (lo <= b <= hi)%R).
  { destruct Fill as (Len & Nan & Seed & Rec).
    induction d as [|d IH]; intro Hd.
    - rewrite Nat.add_0_r, Seed. unfold series_mean.
      rewrite firstn_map, dropna_nums.
      destruct (mean_bounds lo hi (firstn w xs)) as (m & -> & Bm).
      + intro Z. apply (f_equal (@List.length R)) in Z.
        rewrite length_firstn in Z. simpl in Z. lia.
      + intros x Hx. apply B. apply (firstn_in_range w xs x Hx).
      + exists m. split; [reflexivity | exact Bm].
    - destruct IH as (p & Hp & Bp); [lia|].
      destruct (Rec (w - 1 + S d)) as (prev & x & H1 & H2 & H3); [lia|].
      replace (w - 1 + S d - 1) with (w - 1 + d) in H1 by lia.
      rewrite Hp in H1. injection H1 as <-.
      rewrite nth_nums in H2 by lia. injection H2 as <-.
      rewrite H3. unfold ema_next. cbn [fmul fadd num].
      eexists. split; [reflexivity|].
      pose proof (smoothing_factor w (proj1 Hw)) as [K0 K1].
      assert (Bx : (lo <= nth (w - 1 + S d) xs 0 <= hi)%R)
        by (apply B; apply nth_In; lia).
      set (k := (2 / INR (w + 1))%R) in *.
      set (x := nth (w - 1 + S d) xs 0%R) in *.
      split; nra. }
  intros i Hi Hlt.
  destruct (Ema (i - (w - 1))) as (b & Hb & Bb); [lia|].
  replace (w - 1 + (i - (w - 1))) with i in Hb by lia.
  rewrite rolling_nums by assumption.
  destruct (window_nums w i xs Hi Hlt) as [_ Lw].
  destruct (mean_bounds lo hi (firstn w (skipn (S i - w) xs))) as (m & -> & Bm).
  - intro Z. rewrite Z in Lw. simpl in Lw. lia.
  - intros x Hx. apply B. apply (window_in_range w _ xs x Hx).
  - exists m, b. auto.
Qed.

Lemma moving_averages_within_range_witness :
  exists sma ema,
    calSMA closes_10_40 2 "Close" = Ok (set_col closes_10_40 "SMA_2" sma) /\
    calEMA closes_10_40 2 "Close" 2 = Ok (set_col closes_10_40 "EMA_2" ema) /\
    forall i, 2 <= S i -> i < 4 ->
      exists a b,
        nth_error sma i = Some (num a) /\ (10 <= a <= 40)%R /\
        nth_error ema i = Some (num b) /\ (10 <= b <= 40)%R.
Proof.
  apply (moving_averages_within_range closes_10_40 "Close"
           [10; 20; 30; 40]%R 2 10 40).
  - discriminate.
  - reflexivity.
  - reflexivity.
  - simpl. lia.
  - intros x [<- | [<- | [<- | [<- | []]]]]; lra.
Defined.

(** X10: the EMA never recovers from a missing value: a NaN of the
    source at a position [j >= w] makes the EMA column NaN at [j] and at
    every later position. *)
Theorem calEMA_missing_propagates (df : DataFrame) (col : string) (c : column)
  (w j : nat) :
  col <> ("EMA_" ++ str w)%string ->
  get_col df col = Ok c ->
  List.length c = nrows df ->
  1 <= w ->
  w <= j < List.length c ->
  nth_error c j = Some nan ->
  exists ema,
    calEMA df w col 2 = Ok (set_col df ("EMA_" ++ str w)%string ema) /\
    forall i, j <= i < List.length c -> nth_error ema i = Some nan.
Proof.
  intros Hn G L Hw Hj Nj.
  destruct (calEMA_column df w col c 2 Hn G L) as (e & E & Len & _ & _ & Rec);
    [lia|].
  exists e. split; [exact E|].
  assert (P : forall d, j + d < List.length c -> nth_error e (j + d) = Some nan).
  { induction d as [|d IH]; intro Hd.
    - rewrite Nat.add_0_r.
      destruct (Rec j) as (prev & x & _ & H2 & H3); [lia|].
      rewrite Nj in H2. injection H2 as <-. rewrite H3.
      unfold ema_next. destruct prev; reflexivity.
    - destruct (Rec (j + S d)) as (prev & x & H1 & _ & H3); [lia|].
      replace (j + S d - 1) with (j + d) in H1 by lia.
      rewrite IH in H1 by lia. injection H1 as <-.
      rewrite H3. reflexivity. }
  intros i Hi. replace i with (j + (i - j)) by lia. apply P. lia.
Qed.

Lemma calEMA_missing_propagates_witness :
  let df := mkFrame 4 [("x", [num 1; num 2; nan; num 4])] in
  exists ema,
    calEMA df 2 "x" 2 = Ok (set_col df "EMA_2" ema) /\
    forall i, 2 <= i < 4 -> nth_error ema i = Some nan.
Proof.
  intro df.
  apply (calEMA_missing_propagates df "x" [num 1; num 2; nan; num 4] 2 2);
    try reflexivity; try discriminate; simpl; lia.
Defined.

(* ================================================================== *)
(** * Rolling deviation of a constant window *)

Lemma Rsum_squares_nonneg (m : R) (l : list R) :
  (0 <= Rsum (map (fun x => (x - m) * (x - m)) l))%R.
Proof.
  induction l as [|b r IH]; simpl; [lra|].
  pose proof (Rle_0_sqr (b - m)) as Q. unfold Rsqr in Q. lra.
Qed.

Lemma Rsum_squares_zero (m : R) (l : list R) :
  Rsum (map (fun x => (x - m) * (x - m))%R l) = 0%R <->
  forall x, In x l -> x = m.
Proof.
  induction l as [|a r IH]; simpl.
  - split; [intros _ x [] | reflexivity].
  - pose proof (Rsum_squares_nonneg m r) as Nn.
    split.
    + intro H.
      pose proof (Rle_0_sqr (a - m)) as Q. unfold Rsqr in Q.
      assert (Za : ((a - m) * (a - m) = 0)%R) by lra.
      intros x [<- | Hx].
      * apply Rmult_integral in Za. lra.
      * apply IH; [lra | exact Hx].
    + intro H.
      assert (Ea : a = m) by (apply H; left; reflexivity).
      assert (Er : Rsum (map (fun x => (x - m) * (x - m))%R r) = 0%R)
        by (apply IH; intros x Hx; apply H; right; exact Hx).
      rewrite Er, Ea. lra.
Qed.

Lemma Rsum_constant (v : R) (l : list R) :
  (forall x, In x l -> x = v) -> Rsum l = (INR (List.length l) * v)%R.
Proof.
  induction l as [|a r IH]; intro H.
  - simpl. lra.
  - change (List.length (a :: r)) with (S (List.length r)).
    rewrite S_INR. simpl Rsum.
    rewrite IH by (intros x Hx; apply H; right; exact Hx).
    rewrite (H a) by (left; reflexivity). lra.
Qed.

(** The sample standard deviation of at least two numbers is a
    non-negative number, zero exactly when they are all equal. *)
Lemma std_ddof1_zero_iff (l : list R) :
  2 <= List.length l ->
  exists s, std_ddof1 l = Some s /\ (0 <= s)%R /\
            (s = 0%R <-> exists v, forall x, In x l -> x = v).
Proof.
  intro H. unfold std_ddof1.
  assert (NE : l <> []) by (destruct l; [simpl in H; lia | discriminate]).
  rewrite mean_nonempty by exact NE.
  destruct (Nat.ltb_spec (List.length l) 2); [lia|].
  set (m := (Rsum l / INR (List.length l))%R).
  set (ss := Rsum (map (fun x => (x - m) * (x - m))%R l)).
  assert (Pn : (0 < INR (List.length l) - 1)%R).
  { pose proof (le_INR 2 _ H) as L2. simpl in L2. lra. }
  assert (Nn : (0 <= ss)%R) by apply Rsum_squares_nonneg.
  assert (Q : (0 <= ss / (INR (List.length l) - 1))%R).
  { apply Rmult_le_pos; [exact Nn|]. apply Rlt_le, Rinv_0_lt_compat. exact Pn. }
  eexists. split; [reflexivity|]. split; [apply sqrt_pos|].
  split.
  - intro Z. apply sqrt_eq_0 in Z; [|exact Q].
    assert (Zs : ss = 0%R).
    { apply Rmult_eq_reg_r with (r := (/ (INR (List.length l) - 1))%R).
      - unfold Rdiv in Z. rewrite Z. lra.
      - apply Rinv_neq_0_compat. lra. }
    exists m. apply Rsum_squares_zero. exact Zs.
  - intros [v Hv].
    assert (Em : m = v).
    { unfold m. rewrite (Rsum_constant v l Hv). field.
      pose proof (le_INR 2 _ H) as L2. simpl in L2. lra. }
    assert (Zs : ss = 0%R).
    { apply Rsum_squares_zero. intros x Hx. rewrite Em. apply Hv. exact Hx. }
    rewrite Zs. unfold Rdiv. rewrite Rmult_0_l. apply sqrt_0.
Qed.

(** X11: for a window of at least two bars, the rolling volatility
    [calMV] stores is, from index [w-1] on, a non-negative number, and it
    is zero exactly when the [w] values of the window are all equal. *)
Theorem calMV_zero_iff_constant (df : DataFrame) (col : string) (xs : list R)
  (w i : nat) :
  get_col df col = Ok (map num xs) ->
  2 <= w ->
  w <= S i -> i < List.length xs ->
  exists mv s,
    calMV df w col = Ok (set_col df ("MV_" ++ str w)%string mv) /\
    nth_error mv i = Some (num s) /\
    (0 <= s)%R /\
    (s = 0%R <->
     exists v, forall x, In x (firstn w (skipn (S i - w) xs)) -> x = v).
Proof.
  intros G Hw Hi Hlt. unfold calMV. rewrite G. cbn [bind].
  destruct (window_nums w i xs Hi Hlt) as [_ L].
  destruct (std_ddof1_zero_iff (firstn w (skipn (S i - w) xs))) as (s & E & P & Z);
    [lia|].
  exists (rolling std_ddof1 w (map num xs)), s.
  split; [reflexivity|].
  split; [rewrite rolling_nums by assumption; rewrite E; reflexivity|].
  split; assumption.
Qed.

Lemma calMV_zero_iff_constant_witness :
  exists mv s,
    calMV closes_115 2 "Close" = Ok (set_col closes_115 "MV_2" mv) /\
    nth_error mv 1 = Some (num s) /\
    (0 <= s)%R /\
    (s = 0%R <->
     exists v, forall x, In x (firstn 2 (skipn (2 - 2) [1; 1; 5]%R)) -> x = v).
Proof.
  apply (calMV_zero_iff_constant closes_115 "Close" [1; 1; 5]%R 2 1).
  - reflexivity.
  - lia.
  - lia.
  - simpl. lia.
Defined.

(** X12: the normalisation fails on any flat stretch: when [w >= 2]
    consecutive values of the column are equal and a row follows them,
    [zCol], [zzCol] and [zzzCol] with window [w] raise
    [ZeroDivisionError]. *)
Theorem zCol_flat_stretch_raises (df : DataFrame) (col : string) (xs : list R)
  (w t : nat) (v : R) :
  contains_str "z_" col = false ->
  col <> "temp_base_mean" -> col <> "temp_base_std" ->
  get_col df col = Ok (map num xs) ->
  List.length xs = nrows df ->
  2 <= w ->
  w <= t < List.length xs ->
  (forall j, t - w <= j < t -> nth j xs 0%R = v) ->
  zCol df col w = Raise ZeroDivisionError /\
  zzCol df col w = Raise ZeroDivisionError /\
  zzzCol df col w = Raise ZeroDivisionError.
Proof.
  intros Hz Hm Hs G L Hw Ht Flat.
  assert (Z : nth_error (shift 1 (rolling std_ddof1 w (map num xs))) t
              = Some (num 0)).
  { destruct t as [|i]; [lia|].
    rewrite shift1_S by (rewrite length_rolling, length_map; lia).
    rewrite rolling_nums by lia.
    destruct (window_nums w i xs) as [_ Lw]; [lia | lia |].
    remember (S i) as t eqn:Et.
    destruct (std_ddof1_zero_iff (firstn w (skipn (t - w) xs))) as (s & E & _ & Zs);
      [lia|].
    rewrite E. unfold num. do 2 f_equal. apply Zs. exists v.
    intros x Hx. apply In_nth_error in Hx as [k Hk].
    assert (Hk' : k < w).
    { rewrite <- Lw. apply nth_error_Some. congruence. }
    rewrite nth_error_firstn in Hk.
    destruct (Nat.ltb_spec k w); [|lia].
    rewrite nth_error_skipn in Hk.
    rewrite nth_error_nth' with (d := 0%R) in Hk by lia.
    injection Hk as <-. apply Flat. lia. }
  unfold zCol, zzCol, zzzCol.
  repeat split; apply zCol_as_zero_std with (c := map num xs) (t := t);
    try assumption; rewrite length_map; exact L.
Qed.

Lemma zCol_flat_stretch_raises_witness :
  zCol closes_115 "Close" 2 = Raise ZeroDivisionError /\
  zzCol closes_115 "Close" 2 = Raise ZeroDivisionError /\
  zzzCol closes_115 "Close" 2 = Raise ZeroDivisionError.
Proof.
  apply (zCol_flat_stretch_raises closes_115 "Close" [1; 1; 5]%R 2 2 1);
    try reflexivity; try discriminate; try (simpl; lia).
  intros [|[|j]] Hj; try reflexivity; lia.
Defined.

(* ================================================================== *)
(** * Z-scores: the values of a run that returns *)

(** The rows of the z-score column of a run that returned. *)
Lemma zCol_as_rows (prefix : string) (df df' : DataFrame) (col : string)
  (w : nat) (c : column) :
  contains_str "z_" col = false ->
  col <> "temp_base_mean" -> col <> "temp_base_std" ->
  get_col df col = Ok c ->
  List.length c = nrows df ->
  zCol_as prefix df col w = Ok df' ->
  forall t, t < nrows df ->
    exists x mu sd q,
      nth_error c t = Some x /\
      nth_error (shift 1 (rolling mean w c)) t = Some mu /\
      nth_error (shift 1 (rolling std_ddof1 w c)) t = Some sd /\
      fdiv (fsub x mu) sd = Ok q /\
      loc df' t (prefix ++ col)%string = Ok q.
Proof.
  intros Hz Hm Hs G L H t Ht. unfold zCol_as in H. rewrite Hz, G in H.
  cbn [bind] in H. rewrite get_set_same in H. cbn [bind] in H.
  rewrite !get_set_other in H by congruence. rewrite G in H. cbn [bind] in H.
  rewrite get_set_same in H. cbn [bind] in H.
  destruct (apply_rows _ _) as [z|] eqn:E; [|discriminate].
  cbn [bind] in H. injection H as <-.
  match type of E with apply_rows ?d _ = _ => set (df4 := d) in * end.
  assert (Gc : get_col df4 col = Ok c).
  { unfold df4. rewrite !get_set_other by congruence. exact G. }
  assert (Gm : get_col df4 "temp_base_mean" = Ok (shift 1 (rolling mean w c))).
  { unfold df4. rewrite !get_set_other by discriminate. apply get_set_same. }
  assert (Gs : get_col df4 "temp_base_std" = Ok (shift 1 (rolling std_ddof1 w c))).
  { unfold df4. apply get_set_same. }
  destruct (apply_rows_nth _ _ _ t E Ht) as (q & F & Nq).
  unfold row_of in F.
  destruct (nth_error_in_range c t) as [x Hx]; [lia|].
  destruct (nth_error_in_range (shift 1 (rolling mean w c)) t) as [mu Hmu];
    [rewrite length_shift, length_rolling; lia|].
  destruct (nth_error_in_range (shift 1 (rolling std_ddof1 w c)) t) as [sd Hsd];
    [rewrite length_shift, length_rolling; lia|].
  rewrite (loc_get _ _ _ _ _ Gc Hx), (loc_get _ _ _ _ _ Gm Hmu),
          (loc_get _ _ _ _ _ Gs Hsd) in F.
  cbn [bind] in F.
  exists x, mu, sd, q. repeat (split; [assumption|]).
  apply (loc_get _ t _ z q); [apply get_set_same | exact Nq].
Qed.

(** X13: when [zCol] returns on a column of numbers, the z-score is
    missing at the first [w] positions (and everywhere when [w < 2]);
    from position [w] on, with [w >= 2], the deviation of the [w]
    preceding values is not zero and the z-score is the value of the row
    minus their mean, divided by their sample deviation. *)
Theorem zCol_values (df df' : DataFrame) (col : string) (xs : list R) (w : nat) :
  contains_str "z_" col = false ->
  col <> "temp_base_mean" -> col <> "temp_base_std" ->
  get_col df col = Ok (map num xs) ->
  List.length xs = nrows df ->
  zCol df col w = Ok df' ->
  (forall t, t < List.length xs -> t < w \/ w < 2 ->
     loc df' t ("z_" ++ col)%string = Ok nan) /\
  (forall t, 2 <= w -> w <= t < List.length xs ->
     exists m s,
       mean (firstn w (skipn (t - w) xs)) = Some m /\
       std_ddof1 (firstn w (skipn (t - w) xs)) = Some s /\
       s <> 0%R /\
       loc df' t ("z_" ++ col)%string = Ok (num ((nth t xs 0 - m) / s)%R)).
Proof.
  intros Hz Hm Hs G L H.
  assert (Lc : List.length (map num xs) = nrows df) by (rewrite length_map; exact L).
  pose proof (zCol_as_rows "z_" df df' col w (map num xs) Hz Hm Hs G Lc H) as Rows.
  split.
  - intros t Ht Hw. destruct (Rows t) as (x & mu & sd & q & _ & _ & Hsd & F & Q);
      [lia|].
    assert (Esd : sd = nan).
    { destruct t as [|j].
      - rewrite shift1_0 in Hsd; [congruence|].
        destruct xs; simpl in *; [lia | discriminate].
      - rewrite shift1_S in Hsd by (rewrite length_rolling, length_map; lia).
        destruct Hw as [Hw | Hw].
        + rewrite rolling_warmup in Hsd by (try rewrite length_map; lia).
          congruence.
        + rewrite nth_rolling in Hsd by (rewrite length_map; lia).
          destruct (trailing w j (map num xs)) as [win|] eqn:T; [|congruence].
          destruct (observed win) as [obs|] eqn:O; [|congruence].
          rewrite std_ddof1_few in Hsd; [congruence|].
          unfold trailing in T. destruct (w <=? S j)%nat; [|discriminate].
          injection T as <-.
          assert (Lo : List.length obs <= w).
          { clear - O. set (l := firstn w _) in O.
            assert (Ll : List.length l <= w) by (unfold l; rewrite length_firstn; lia).
            clearbody l. revert obs O Ll.
            revert w. induction l as [|[a|] r IH]; intros w obs O Ll.
            - injection O as <-. simpl. lia.
            - simpl in O. destruct (observed r) as [o|] eqn:Or; [|discriminate].
              injection O as <-. simpl in *.
              destruct w; [lia|]. specialize (IH w o eq_refl). lia.
            - discriminate. }
          lia. }
    subst sd. unfold fdiv in F. injection F as <-. exact Q.
  - intros t Hw Ht.
    destruct (Rows t) as (x & mu & sd & q & Hx & Hmu & Hsd & F & Q); [lia|].
    destruct t as [|j]; [lia|].
    rewrite shift1_S in Hmu, Hsd by (rewrite length_rolling, length_map; lia).
    rewrite rolling_nums in Hmu, Hsd by lia.
    rewrite nth_nums in Hx by lia.
    remember (S j) as t eqn:Et.
    destruct (window_nums w j xs) as [_ Lw]; [lia | lia |]. rewrite <- Et in Lw.
    set (W := firstn w (skipn (t - w) xs)) in *.
    destruct (std_ddof1_zero_iff W) as (s & Es & _ & _); [lia|].
    assert (NE : W <> []) by (intro Z; rewrite Z in Lw; simpl in Lw; lia).
    rewrite mean_nonempty in Hmu by exact NE.
    rewrite Es in Hsd.
    injection Hx as <-. injection Hmu as <-. injection Hsd as <-.
    exists (Rsum W / INR (List.length W))%R, s.
    split; [apply mean_nonempty; exact NE|]. split; [exact Es|].
    unfold fsub, num, fdiv in F.
    destruct (Req_dec_T s 0) as [Z|NZ]; [discriminate|].
    injection F as <-. split; [exact NZ | exact Q].
Qed.

Lemma std_12 : std_ddof1 [1; 2]%R <> Some 0%R.
Proof.
  intro H.
  destruct (std_ddof1_zero_iff [1; 2]%R) as (s & E & _ & Z); [simpl; lia|].
  rewrite E in H. injection H as ->.
  destruct (proj1 Z eq_refl) as [v Hv].
  pose proof (Hv 1%R (or_introl eq_refl)).
  pose proof (Hv 2%R (or_intror (or_introl eq_refl))). lra.
Qed.

Lemma zCol_run_1_2_4 : exists df', zCol closes_1_2_4 "Close" 2 = Ok df'.
Proof.
  unfold zCol, zCol_as. cbn -[std_ddof1 mean fdiv fsub].
  destruct (std_ddof1 [1; 2]%R) as [s|] eqn:E.
  - unfold mean. cbn -[fdiv].
    unfold fdiv at 1. unfold fdiv at 1. cbn [bind].
    unfold fdiv, num.
    destruct (Req_dec_T s 0) as [Z|NZ].
    + exfalso. apply std_12. rewrite E, Z. reflexivity.
    + cbn. eexists. reflexivity.
  - unfold mean. cbn. eexists. reflexivity.
Qed.

Lemma zCol_values_witness :
  exists df',
    zCol closes_1_2_4 "Close" 2 = Ok df' /\
    (forall t, t < 3 -> t < 2 \/ 2 < 2 -> loc df' t "z_Close" = Ok nan) /\
    (forall t, 2 <= 2 -> 2 <= t < 3 ->
       exists m s,
         mean (firstn 2 (skipn (t - 2) [1; 2; 4]%R)) = Some m /\
         std_ddof1 (firstn 2 (skipn (t - 2) [1; 2; 4]%R)) = Some s /\
         s <> 0%R /\
         loc df' t "z_Close" = Ok (num ((nth t [1; 2; 4] 0 - m) / s)%R)).
Proof.
  destruct zCol_run_1_2_4 as [df' E]. exists df'. split; [exact E|].
  apply (zCol_values closes_1_2_4 df' "Close" [1; 2; 4]%R 2);
    try reflexivity; try discriminate.
  exact E.
Defined.

(** X14: a normalisation pass that has nothing to normalise fails: when
    every name it is given marks a z-score (or it is given none) and the
    table has no scratch column yet, the removal of the scratch columns
    after the loop raises [KeyError]. *)
Theorem normalize_all_nothing_to_do (df : DataFrame) (names : list string)
  (norm_period : nat) :
  Forall (fun col => contains_str "z_" col = true) names ->
  has_col df "temp_base_mean" = false ->
  normalize_all zCol norm_period names df = Raise KeyError /\
  normalize_all zzCol norm_period names df = Raise KeyError /\
  normalize_all zzzCol norm_period names df = Raise KeyError.
Proof.
  intros Hz Hn.
  assert (Loop : forall prefix,
            fold_left (fun acc col => d <- acc ;; zCol_as prefix d col norm_period)
              names (Ok df) = Ok df).
  { intro prefix. induction Hz as [|col names Hc _ IH]; [reflexivity|].
    simpl. unfold zCol_as at 2. rewrite Hc. exact IH. }
  unfold normalize_all, zCol, zzCol, zzzCol.
  rewrite !Loop. cbn [bind]. unfold drop_col. rewrite Hn. auto.
Qed.

Lemma normalize_all_nothing_to_do_witness :
  normalize_all zCol 20 ["z_Close"] closes_123 = Raise KeyError /\
  normalize_all zzCol 20 ["z_Close"] closes_123 = Raise KeyError /\
  normalize_all zzzCol 20 ["z_Close"] closes_123 = Raise KeyError.
Proof.
  apply (normalize_all_nothing_to_do closes_123 ["z_Close"] 20).
  - repeat constructor.
  - reflexivity.
Defined.

(* ================================================================== *)
(** * Downside volatility: the list returned *)

(** X15: for a period of at least one, the list [calSortinoMV] returns
    has [max (period-1) (len df)] entries (one per row unless the period
    exceeds the rows by more than one): NaN before [period-1], then the
    sample deviation of the strictly negative values among the [period]
    values ending at the position, NaN when fewer than two of them are
    negative. *)
Theorem calSortinoMV_returns_downside (df : DataFrame) (period : nat)
  (col : string) (data : column) :
  1 <= period ->
  get_col df col = Ok data ->
  exists l df',
    calSortinoMV df period col = Ok (l, df') /\
    List.length l = Nat.max (period - 1) (nrows df) /\
    (forall i, i < period - 1 -> nth_error l i = Some nan) /\
    (forall i, period - 1 <= i < nrows df ->
       nth_error l i
       = Some (std_ddof1 (negatives (firstn period (skipn (i + 1 - period) data)))) /\
       (List.length (negatives (firstn period (skipn (i + 1 - period) data))) < 2 ->
        nth_error l i = Some nan)).
Proof.
  intros Hp G.
  destruct (calSortinoMV df period col) as [[l df']|e] eqn:E.
  2:{ unfold calSortinoMV in E. rewrite G in E. discriminate. }
  exists l, df'. split; [reflexivity|].
  destruct (calSortinoMV_result_list df df' period col data l Hp G E)
    as (A & B & C).
  split.
  - unfold calSortinoMV in E. rewrite G in E. cbn [bind] in E.
    injection E as <- _. rewrite fold_left_snoc.
    rewrite length_app, repeat_length, length_map, length_seq. lia.
  - split; [exact A|]. intros i Hi. split; [apply B; exact Hi|].
    intro Few. rewrite (B i Hi). f_equal. apply C. exact Few.
Qed.

Lemma calSortinoMV_returns_downside_witness :
  exists l df',
    calSortinoMV closes_123 3 "Close" = Ok (l, df') /\
    List.length l = Nat.max (3 - 1) 3 /\
    (forall i, i < 3 - 1 -> nth_error l i = Some nan) /\
    (forall i, 3 - 1 <= i < 3 ->
       nth_error l i
       = Some (std_ddof1 (negatives (firstn 3 (skipn (i + 1 - 3)
                                                 [num 1; num 2; num 3])))) /\
       (List.length (negatives (firstn 3 (skipn (i + 1 - 3)
                                            [num 1; num 2; num 3]))) < 2 ->
        nth_error l i = Some nan)).
Proof.
  apply (calSortinoMV_returns_downside closes_123 3 "Close" [num 1; num 2; num 3]).
  - lia.
  - reflexivity.
Defined.

(* ================================================================== *)
(** * Average day range: warm-up and the range column *)

(** X16: [calPreviousDayrange] always returns on a table of bars; the
    average range is missing at every position before [w] (at position 0
    whatever the window), and the table keeps a column [Dayrange] holding
    [high - low] of every bar. *)
Theorem calPreviousDayrange_warmup (bars : list Bar) (w : nat) :
  exists df,
    calPreviousDayrange (frame_of_bars bars) w = Ok df /\
    get_col df "Dayrange" = Ok (map (fun b => num (day_range b)) bars) /\
    forall t, t < List.length bars -> t < w \/ t = 0 ->
      loc df t (avdayrange_col w) = Ok nan.
Proof.
  unfold calPreviousDayrange.
  rewrite apply_rows_total
    with (g := fun i => num (day_range (nth i bars no_bar))).
  2:{ intros i Hi. unfold row_of.
      rewrite (loc_bar bars i "High" bar_high), (loc_bar bars i "Low" bar_low);
        try reflexivity; exact Hi. }
  change (nrows (frame_of_bars bars)) with (List.length bars).
  rewrite (map_seq_nth (fun b => num (day_range b))). cbn [bind].
  rewrite get_set_same. cbn [bind].
  rewrite get_set_same. cbn [bind].
  match goal with
  | |- exists df, drop_col ?X _ = _ /\ _ =>
      destruct (drop_col_ok X "temp") as (df' & D & N & G)
  end.
  { rewrite has_set_other by discriminate. apply has_set_same. }
  exists df'. split; [exact D|]. split.
  - rewrite G by discriminate. rewrite !get_set_other by discriminate.
    apply get_set_same.
  - intros t Ht Hw. unfold loc. rewrite G by discriminate.
    unfold avdayrange_col. rewrite get_set_same. cbn [bind].
    set (dr := map (fun b => num (day_range b)) bars).
    assert (Ld : List.length dr = List.length bars) by apply length_map.
    destruct t as [|j].
    + rewrite shift1_0; [reflexivity|].
      intro Z. apply (f_equal (@List.length float)) in Z.
      rewrite length_rolling, Ld in Z. simpl in Z. lia.
    + rewrite shift1_S by (rewrite length_rolling, Ld; exact Ht).
      rewrite rolling_warmup; [reflexivity | lia | lia].
Qed.

(* ================================================================== *)
(** * Trend-following signals: warm-up, memoised columns, unknown types *)

Lemma compute_MA_warm (xs : list R) (df df' : DataFrame) (ma : string) (w : nat) :
  priced xs df -> ma_defined ma w (List.length xs) ->
  compute_MA df ma w "Close" = Ok df' ->
  exists c, df' = set_col df (ma ++ "_" ++ str w)%string c /\
            List.length c = List.length xs /\
            forall i, S i < w -> i < List.length xs -> nth_error c i = Some nan.
Proof.
  intros (W & N & G) Hma H. unfold compute_MA in H.
  destruct Hma as [-> | (-> & Hw)]; simpl String.eqb in H.
  - unfold calSMA in H. rewrite G in H. cbn [bind] in H. injection H as <-.
    eexists. split; [reflexivity|].
    split; [rewrite length_rolling, length_map; reflexivity|].
    intros i H1 H2. apply rolling_warmup; [exact H1|].
    rewrite length_map. exact H2.
  - destruct (calEMA_column df w "Close" (map num xs) 2) as (e & E & Len & Nan & _);
      try (rewrite length_map); try assumption; try discriminate; try lia.
    rewrite E in H. injection H as <-.
    exists e. split; [reflexivity|].
    split; [rewrite Len, length_map; reflexivity|].
    intros i H1 H2. apply Nan. lia.
Qed.

Lemma bars_have_no_MA (bars : list Bar) (ma : string) (w : nat) :
  ma = "SMA" \/ ma = "EMA" ->
  has_col (frame_of_bars bars) (ma ++ "_" ++ str w)%string = false.
Proof. intros [-> | ->]; reflexivity. Qed.

(** X17: on a history of positive closes the signal is missing at the
    first bar and, from the second bar on, is always 1 or -1; while
    either moving average is still warming up (positions before the
    larger window) the comparison with a missing value is false and the
    signal is -1: short, not missing. *)
Theorem create_FS_ret_warmup_is_short (bars : list Bar) (F S : nat) (ma : string) :
  ma_defined ma F (List.length bars) ->
  ma_defined ma S (List.length bars) ->
  Forall (fun b => 0 < bar_close b)%R bars ->
  exists df',
    create_FS_ret (frame_of_bars bars) F S ma "Close" = Ok df' /\
    (0 < List.length bars -> loc df' 0 (signal_col ma F S) = Ok nan) /\
    (forall t, 1 <= t < List.length bars ->
       loc df' t (signal_col ma F S) = Ok (num 1) \/
       loc df' t (signal_col ma F S) = Ok (num (-1))) /\
    (forall t, 1 <= t < List.length bars -> t < Nat.max F S ->
       loc df' t (signal_col ma F S) = Ok (num (-1))).
Proof.
  intros HF HS Pos.
  assert (Hma : ma = "SMA" \/ ma = "EMA") by (destruct HF as [-> | [-> _]]; auto).
  assert (NZ : Forall (fun x => x <> 0%R) (map bar_close bars)).
  { apply Forall_map. revert Pos. apply Forall_impl. intros b Hb. lra. }
  pose proof (priced_bars bars) as P.
  set (xs := map bar_close bars) in *.
  assert (Lx : List.length xs = List.length bars) by apply length_map.
  rewrite <- Lx in HF, HS.
  destruct (create_FS_ret_returns xs (frame_of_bars bars) F S ma P NZ HF HS)
    as [df' E].
  exists df'. split; [exact E|].
  destruct (create_FS_ret_signal _ df' F S ma Hma E)
    as (dfm & sig & (dff & Ef & Es) & Rsig & Gsig).
  rewrite (bars_have_no_MA bars ma F Hma) in Ef.
  destruct (compute_MA_warm xs _ dff ma F P HF Ef) as (cf & -> & Lf & Wf).
  assert (Pf : priced xs (set_col (frame_of_bars bars) (ma ++ "_" ++ str F)%string cf)).
  { apply priced_set; [exact P | destruct Hma as [-> | ->]; discriminate |].
    rewrite Lf. destruct P as (_ & -> & _). reflexivity. }
  assert (Nm : nrows dfm = List.length bars).
  { destruct (has_col _ (ma ++ "_" ++ str S)%string) in Es.
    - injection Es as <-. reflexivity.
    - destruct (compute_MA_warm xs _ dfm ma S Pf HS Es) as (cs & -> & _).
      reflexivity. }
  assert (Ls : List.length sig = List.length bars).
  { rewrite <- Nm. apply (apply_rows_length dfm _ sig Rsig). }
  assert (Cell : forall i, i < List.length bars ->
            exists f s, loc dfm i (ma ++ "_" ++ str F)%string = Ok f /\
                        loc dfm i (ma ++ "_" ++ str S)%string = Ok s /\
                        nth_error sig i = Some (if fgt f s then num 1 else num (-1))).
  { intros i Hi. destruct (apply_rows_nth dfm _ sig i Rsig) as (v & Fv & Nv);
      [lia|].
    unfold row_of in Fv.
    destruct (loc dfm i (ma ++ "_" ++ str F)%string) as [f|]; [|discriminate].
    cbn [bind] in Fv.
    destruct (loc dfm i (ma ++ "_" ++ str S)%string) as [s|]; [|discriminate].
    cbn [bind] in Fv. injection Fv as <-. eauto. }
  assert (At : forall t, 1 <= t < List.length bars ->
            exists f s, loc dfm (t - 1) (ma ++ "_" ++ str F)%string = Ok f /\
                        loc dfm (t - 1) (ma ++ "_" ++ str S)%string = Ok s /\
                        loc df' t (signal_col ma F S)
                        = Ok (if fgt f s then num 1 else num (-1))).
  { intros t Ht. destruct (Cell (t - 1)) as (f & s & A & B & C); [lia|].
    exists f, s. split; [exact A|]. split; [exact B|].
    apply (loc_get _ _ _ _ _ Gsig).
    destruct t as [|j]; [lia|].
    rewrite shift1_S by lia.
    replace (Datatypes.S j - 1) with j in C by lia. exact C. }
  split; [|split].
  - intro H0. apply (loc_get _ _ _ _ _ Gsig). apply shift1_0.
    intro Z. rewrite Z in Ls. simpl in Ls. lia.
  - intros t Ht. destruct (At t Ht) as (f & s & _ & _ & ->).
    destruct (fgt f s); auto.
  - intros t Ht Hw. destruct (At t Ht) as (f & s & A & B & ->).
    assert (Short : fgt f s = false); [|rewrite Short; reflexivity].
    destruct (String.eqb_spec (ma ++ "_" ++ str F) (ma ++ "_" ++ str S))%string
      as [Same | Diff].
    + rewrite Same in A. rewrite A in B. injection B as <-.
      unfold fgt, flt. destruct f as [x|]; [|reflexivity].
      destruct (Rlt_dec x x); [lra | reflexivity].
    + rewrite has_set_other in Es by exact Diff.
      rewrite (bars_have_no_MA bars ma S Hma) in Es.
      destruct (compute_MA_warm xs _ dfm ma S Pf HS Es) as (cs & -> & Lcs & Ws).
      destruct (Nat.lt_ge_cases t F) as [LtF | GeF].
      * rewrite loc_set_other in A by (intro Z; apply Diff; symmetry; exact Z).
        rewrite (loc_set_same_nth _ _ cf (t - 1) nan) in A
          by (apply Wf; lia).
        injection A as <-. unfold fgt. apply flt_nan_r.
      * rewrite (loc_set_same_nth _ _ cs (t - 1) nan) in B
          by (apply Ws; lia).
        injection B as <-. reflexivity.
Qed.

Lemma create_FS_ret_warmup_is_short_witness :
  exists df',
    create_FS_ret (frame_of_bars bars_a) 1 2 "SMA" "Close" = Ok df' /\
    (0 < 3 -> loc df' 0 (signal_col "SMA" 1 2) = Ok nan) /\
    (forall t, 1 <= t < 3 ->
       loc df' t (signal_col "SMA" 1 2) = Ok (num 1) \/
       loc df' t (signal_col "SMA" 1 2) = Ok (num (-1))) /\
    (forall t, 1 <= t < 3 -> t < Nat.max 1 2 ->
       loc df' t (signal_col "SMA" 1 2) = Ok (num (-1))).
Proof.
  apply (create_FS_ret_warmup_is_short bars_a 1 2 "SMA").
  - left. reflexivity.
  - left. reflexivity.
  - repeat constructor; simpl; lra.
Defined.

Lemma longer_name_differs (a b : string) :
  String.length a <> String.length b -> a <> b.
Proof. intros H E. apply H. rewrite E. reflexivity. Qed.

Ltac by_length :=
  apply longer_name_differs; rewrite ?length_append; simpl; lia.

(** X18: moving-average columns are memoised by name: when the table
    already has the fast and the slow column, [create_FS_ret] computes
    neither and returns them as they were, whatever they hold. *)
Theorem create_FS_ret_keeps_existing_MA (df df' : DataFrame) (F S : nat)
  (ma : string) :
  ma = "SMA" \/ ma = "EMA" ->
  has_col df (ma ++ "_" ++ str F)%string = true ->
  has_col df (ma ++ "_" ++ str S)%string = true ->
  create_FS_ret df F S ma "Close" = Ok df' ->
  get_col df' (ma ++ "_" ++ str F)%string = get_col df (ma ++ "_" ++ str F)%string /\
  get_col df' (ma ++ "_" ++ str S)%string = get_col df (ma ++ "_" ++ str S)%string.
Proof.
  intros Hma HF HS H. unfold create_FS_ret in H.
  rewrite HF in H. cbn [bind] in H. rewrite HS in H. cbn [bind] in H.
  destruct (apply_rows df _) as [sig|]; [|discriminate].
  cbn [bind] in H. rewrite get_set_same in H. cbn [bind] in H.
  rewrite set_set_same in H.
  destruct (calEndOfDayRet _ "Close") as [dfe|] eqn:E; [|discriminate].
  cbn [bind] in H.
  destruct (apply_rows dfe _) as [ret|]; [|discriminate].
  cbn [bind] in H. injection H as <-.
  assert (Keep : forall n,
            n <> (ma ++ "_" ++ str F ++ "_" ++ str S ++ "_Return")%string ->
            n <> (ma ++ "_" ++ str F ++ "_" ++ str S ++ "_Signal")%string ->
            n <> "past_Close" -> n <> "eodRet" ->
            get_col
              (set_col dfe (ma ++ "_" ++ str F ++ "_" ++ str S ++ "_Return")%string ret)
              n
            = get_col df n).
  { intros n N1 N2 N3 N4.
    rewrite get_set_other by congruence.
    destruct (calEndOfDayRet_keeps _ dfe "Close" n N3 N4 E) as [K _].
    rewrite K. apply get_set_other. congruence. }
  split; apply Keep;
    first [ by_length | destruct Hma as [-> | ->]; discriminate ].
Qed.

Lemma create_FS_ret_keeps_existing_MA_witness :
  let df := mkFrame 2 [("Close", [num 1; num 2]);
                       ("SMA_1", [num 7; num 7]); ("SMA_2", [num 9; num 9])] in
  exists df',
    create_FS_ret df 1 2 "SMA" "Close" = Ok df' /\
    get_col df' "SMA_1" = Ok [num 7; num 7] /\
    get_col df' "SMA_2" = Ok [num 9; num 9].
Proof.
  intro df.
  assert (E : exists df', create_FS_ret df 1 2 "SMA" "Close" = Ok df').
  { unfold create_FS_ret, calEndOfDayRet, apply_rows, row_of, loc.
    decide_reals. eexists. reflexivity. }
  destruct E as [df' E]. exists df'. split; [exact E|].
  exact (create_FS_ret_keeps_existing_MA df df' 1 2 "SMA"
           (or_introl eq_refl) eq_refl eq_refl E).
Defined.

(** X19: an unknown moving-average type is only announced: no column is
    computed, and on a table with at least one row and no column of that
    name the signal pass then raises [KeyError]. *)
Theorem create_FS_ret_illegal_type (df : DataFrame) (F S : nat)
  (ma col : string) :
  ma <> "SMA" -> ma <> "EMA" ->
  has_col df (ma ++ "_" ++ str F)%string = false ->
  0 < nrows df ->
  create_FS_ret df F S ma col = Raise KeyError.
Proof.
  intros N1 N2 HF Hn.
  assert (G : get_col df (ma ++ "_" ++ str F)%string = Raise KeyError).
  { rewrite has_col_get in HF.
    destruct (get_col df (ma ++ "_" ++ str F)%string) as [c|e] eqn:G;
      [discriminate|].
    apply get_col_raise in G. subst e. reflexivity. }
  unfold create_FS_ret, compute_MA.
  apply String.eqb_neq in N1, N2. rewrite N1, N2, HF. cbn [bind].
  assert (E : (if has_col df (ma ++ "_" ++ str S)%string then Ok df else Ok df)
              = Ok df)
    by (destruct (has_col df (ma ++ "_" ++ str S)%string); reflexivity).
  rewrite E. cbn [bind].
  unfold apply_rows. destruct (nrows df) as [|n]; [lia|].
  cbn [seq mapM]. unfold row_of at 1. unfold loc at 1.
  rewrite G. reflexivity.
Qed.

Lemma create_FS_ret_illegal_type_witness :
  create_FS_ret closes_123 10 30 "WMA" "Close" = Raise KeyError.
Proof.
  apply (create_FS_ret_illegal_type closes_123 10 30 "WMA" "Close").
  - discriminate.
  - discriminate.
  - reflexivity.
  - simpl. lia.
Defined.

(* ================================================================== *)
(** * Counter-trend strategies: the short side, flags, other columns *)

Section CounterTrendMore.

Variable str_float : R -> string.

(** X20: the short side mirrors the long one: at a bar whose previous
    low and lagged average range are known, the hit level is [previous
    low + average range * retracement]; the flag is 1 exactly when the
    high is strictly above it; on a hit the entry is the open when the
    open is above the level and the level otherwise, and the realized
    return is [close / entry - 1]. *)
Theorem create_CT_ret_short_rule (df df' : DataFrame) (p : nat) (r : R) (i : nat)
  (pl a hi o c : R) :
  create_CT_ret str_float df p r = Ok df' ->
  i < nrows df ->
  loc df i "Prev_low" = Ok (num pl) ->
  loc df i (avdayrange_col p) = Ok (num a) ->
  loc df i "High" = Ok (num hi) ->
  loc df i "Open" = Ok (num o) ->
  loc df i "Close" = Ok (num c) ->
  let level := (pl + a * r)%R in
  let entry := if Rlt_dec level o then o else level in
  ((level < hi)%R ->
     loc df' i (short_hit_col str_float p r) = Ok (num 1) /\
     entry <> 0%R /\
     loc df' i (short_return_col str_float p r) = Ok (num (c / entry - 1))) /\
  (~ (level < hi)%R ->
     loc df' i (short_hit_col str_float p r) = Ok (num 0) /\
     loc df' i (short_return_col str_float p r) = Ok (num 0)).
Proof.
  intros H Hi Hpl Ha Hhi Ho Hc level entry.
  destruct (create_CT_ret_row str_float df df' p r i H Hi)
    as (ph & pl' & a' & lo & hi' & o' & c' & _ & Epl & Ea & _ & Ehi & Eo & Ec & L).
  cbv zeta in L. destruct L as (_ & _ & HS & (ret & RS & LS)).
  rewrite Hpl in Epl. rewrite Ha in Ea. rewrite Hhi in Ehi.
  rewrite Ho in Eo. rewrite Hc in Ec.
  injection Epl as <-. injection Ea as <-. injection Ehi as <-.
  injection Eo as <-. injection Ec as <-.
  unfold num, fgt in *. cbn [fadd fmul flt] in HS, RS.
  fold level in HS, RS.
  split; intro Hit.
  - destruct (Rlt_dec level hi) as [_|N]; [|contradiction].
    split; [exact HS|].
    unfold realized in RS. unfold num in RS.
    rewrite (feq_1_1 : feq (Some 1%R) (Some 1%R) = true) in RS.
    unfold entry.
    destruct (Rlt_dec level o) as [G|G]; cbn [fdiv] in RS;
      match type of RS with
      | context [Req_dec_T ?x 0] => destruct (Req_dec_T x 0) as [Z|NZ]
      end;
      try discriminate;
      cbn [bind fsub] in RS; injection RS as <-;
      (split; [lra|]); rewrite LS; do 2 f_equal; field; lra.
  - destruct (Rlt_dec level hi) as [Y|_]; [contradiction|].
    split; [exact HS|].
    apply realized_no_hit in RS. rewrite LS, RS. reflexivity.
Qed.

(** X21: a hit flag is never missing: in the table [create_CT_ret]
    returns, both flags are 0 or 1 at every bar, also where the previous
    extremes or the average range are missing. *)
Theorem create_CT_ret_flags_binary (df df' : DataFrame) (p : nat) (r : R) (i : nat) :
  create_CT_ret str_float df p r = Ok df' ->
  i < nrows df ->
  (loc df' i (long_hit_col str_float p r) = Ok (num 0) \/
   loc df' i (long_hit_col str_float p r) = Ok (num 1)) /\
  (loc df' i (short_hit_col str_float p r) = Ok (num 0) \/
   loc df' i (short_hit_col str_float p r) = Ok (num 1)).
Proof.
  intros H Hi.
  destruct (create_CT_ret_row str_float df df' p r i H Hi)
    as (ph & pl & a & lo & hi & o & c & _ & _ & _ & _ & _ & _ & _ & L).
  cbv zeta in L. destruct L as (HL & _ & HS & _).
  rewrite HL, HS. split.
  - destruct (flt lo _); auto.
  - destruct (fgt hi _); auto.
Qed.

(** X22: [create_CT_ret] touches only its own columns: every column
    other than its four scratch columns and its four result columns is
    in the returned table exactly as it was given. *)
Theorem create_CT_ret_keeps_other_columns (df df' : DataFrame) (p : nat) (r : R)
  (name : string) :
  create_CT_ret str_float df p r = Ok df' ->
  name <> "Hit_level" -> name <> "Hit?" -> name <> "HitAt" -> name <> "ExitPr" ->
  name <> long_return_col str_float p r ->
  name <> long_hit_col str_float p r ->
  name <> short_return_col str_float p r ->
  name <> short_hit_col str_float p r ->
  get_col df' name = get_col df name.
Proof.
  intros H N1 N2 N3 N4 N5 N6 N7 N8. unfold create_CT_ret in H.
  step H E1. step H E2. step H E3. step H E4. step H E5.
  get_norm H. cbn [bind] in H.
  step H E6. step H E7. step H E8. step H E9. step H E10.
  get_norm H. cbn [bind] in H.
  step H D1. step H D2. step H D3.
  rewrite (get_drop_other _ _ _ name (not_eq_sym N4) H).
  rewrite (get_drop_other _ _ _ name (not_eq_sym N3) D3).
  rewrite (get_drop_other _ _ _ name (not_eq_sym N2) D2).
  rewrite (get_drop_other _ _ _ name (not_eq_sym N1) D1).
  rewrite !get_set_other by congruence. reflexivity.
Qed.

(** X23: a deeper retracement never adds a hit: with a non-negative
    average range, a long (or short) hit at retracement [r2] is also a
    hit at every smaller retracement [r1]. *)
Theorem create_CT_ret_hits_monotone (df d1 d2 : DataFrame) (p : nat) (r1 r2 : R)
  (i : nat) (a : R) :
  create_CT_ret str_float df p r1 = Ok d1 ->
  create_CT_ret str_float df p r2 = Ok d2 ->
  i < nrows df ->
  loc df i (avdayrange_col p) = Ok (num a) ->
  (0 <= a)%R -> (r1 <= r2)%R ->
  (loc d2 i (long_hit_col str_float p r2) = Ok (num 1) ->
   loc d1 i (long_hit_col str_float p r1) = Ok (num 1)) /\
  (loc d2 i (short_hit_col str_float p r2) = Ok (num 1) ->
   loc d1 i (short_hit_col str_float p r1) = Ok (num 1)).
Proof.
  intros H1 H2 Hi Ha Pa Hr.
  destruct (create_CT_ret_row str_float df d1 p r1 i H1 Hi)
    as (ph & pl & a1 & lo & hi & o & c & Eph & Epl & Ea & Elo & Ehi & _ & _ & L1).
  destruct (create_CT_ret_row str_float df d2 p r2 i H2 Hi)
    as (ph' & pl' & a2 & lo' & hi' & o' & c' & Eph' & Epl' & Ea' & Elo' & Ehi' & _ & _ & L2).
  cbv zeta in L1, L2.
  destruct L1 as (HL1 & _ & HS1 & _). destruct L2 as (HL2 & _ & HS2 & _).
  rewrite Eph in Eph'. rewrite Epl in Epl'. rewrite Elo in Elo'.
  rewrite Ehi in Ehi'. rewrite Ha in Ea, Ea'.
  injection Eph' as <-. injection Epl' as <-. injection Elo' as <-.
  injection Ehi' as <-. injection Ea as <-. injection Ea' as <-.
  assert (One : forall b : bool,
            Ok (if b then num 1 else num 0) = Ok (num 1) -> b = true).
  { intros [|] E; [reflexivity|]. injection E as E. lra. }
  rewrite HL1, HL2, HS1, HS2. unfold fgt, num.
  split; intro Q; apply One in Q.
  - destruct ph as [x|], lo as [y|]; cbn [fsub fmul flt] in *; try discriminate.
    destruct (Rlt_dec y (x - a * r2)); [|discriminate].
    destruct (Rlt_dec y (x - a * r1)); [reflexivity | exfalso; nra].
  - destruct pl as [x|], hi as [y|]; cbn [fadd fmul flt] in *; try discriminate.
    destruct (Rlt_dec (x + a * r2) y); [|discriminate].
    destruct (Rlt_dec (x + a * r1) y); [reflexivity | exfalso; nra].
Qed.

End CounterTrendMore.

Lemma ct_shallow_run :
  exists d1, create_CT_ret two_point_zero ct_prev 10 (1 / 10) = Ok d1.
Proof.
  unfold create_CT_ret, apply_rows, ct_exit, ct_return, row_of, loc.
  decide_reals. eexists. reflexivity.
Qed.

Lemma create_CT_ret_short_rule_witness :
  exists d1,
    create_CT_ret two_point_zero ct_prev 10 (1 / 10) = Ok d1 /\
    loc d1 1 "Hit?_short_10_2.0" = Ok (num 1) /\
    loc d1 1 "Short_10_2.0_Return" = Ok (num (100 / (100 + 5 * (1 / 10)) - 1)).
Proof.
  destruct ct_shallow_run as [d1 E]. exists d1. split; [exact E|].
  destruct (create_CT_ret_short_rule two_point_zero ct_prev d1 10 (1 / 10) 1
              100 5 101 99 100 E) as [Hit _];
    try reflexivity; [simpl; lia|].
  destruct Hit as (A & _ & B); [lra|].
  split; [exact A|].
  destruct (Rlt_dec (100 + 5 * (1 / 10)) 99) as [Y|_]; [exfalso; lra | exact B].
Defined.

Lemma create_CT_ret_flags_binary_witness :
  (loc ct_output 0 "Hit?_long_10_2.0" = Ok (num 0) \/
   loc ct_output 0 "Hit?_long_10_2.0" = Ok (num 1)) /\
  (loc ct_output 0 "Hit?_short_10_2.0" = Ok (num 0) \/
   loc ct_output 0 "Hit?_short_10_2.0" = Ok (num 1)).
Proof.
  apply (create_CT_ret_flags_binary two_point_zero ct_prev ct_output 10 2 0
           ct_output_run).
  simpl. lia.
Defined.

Lemma create_CT_ret_keeps_other_columns_witness :
  get_col ct_output "Close" = get_col ct_prev "Close".
Proof.
  apply (create_CT_ret_keeps_other_columns two_point_zero ct_prev ct_output 10 2
           "Close" ct_output_run);
    discriminate.
Defined.

Lemma create_CT_ret_hits_monotone_witness :
  exists d1,
    create_CT_ret two_point_zero ct_prev 10 (1 / 10) = Ok d1 /\
    (loc ct_output 1 "Hit?_long_10_2.0" = Ok (num 1) ->
     loc d1 1 "Hit?_long_10_2.0" = Ok (num 1)) /\
    (loc ct_output 1 "Hit?_short_10_2.0" = Ok (num 1) ->
     loc d1 1 "Hit?_short_10_2.0" = Ok (num 1)).
Proof.
  destruct ct_shallow_run as [d1 E]. exists d1. split; [exact E|].
  apply (create_CT_ret_hits_monotone two_point_zero ct_prev d1 ct_output 10
           (1 / 10) 2 1 5 E ct_output_run).
  - simpl. lia.
  - reflexivity.
  - lra.
  - lra.
Defined.

Lemma create_CT_ret_returns_witness :
  exists df', create_CT_ret two_point_zero ct_prev 10 2 = Ok df'.
Proof.
  apply (create_CT_ret_returns two_point_zero ct_prev 10 2);
    try reflexivity.
  - repeat constructor.
  - intros [|[|[|i]]] v E; unfold loc, get_col in E; cbn in E;
      try discriminate; injection E as <-;
      eexists; (split; [reflexivity | lra]).
  - intros [|[|[|i]]] v E; unfold loc, get_col in E; cbn in E;
      try discriminate; injection E as <-;
      eexists; (split; [reflexivity | lra]).
Defined.

(* ================================================================== *)
(** * Dropping incomplete rows *)

Lemma lookup_map_cols (g : column -> column) (l : list (string * column))
  (name : string) :
  lookup (map (fun nc => (fst nc, g (snd nc))) l) name
  = option_map g (lookup l name).
Proof.
  induction l as [|[k c] r IH]; simpl; [reflexivity|].
  destruct (String.eqb k name); [reflexivity | exact IH].
Qed.

Lemma lookup_in (l : list (string * column)) (name : string) (c : column) :
  lookup l name = Some c -> In (name, c) l.
Proof.
  induction l as [|[k v] r IH]; simpl; [discriminate|].
  destruct (String.eqb_spec k name) as [->|_].
  - intro H. injection H as <-. left. reflexivity.
  - intro H. right. apply IH. exact H.
Qed.

Lemma complete_row_cell (df : DataFrame) (i : nat) (name : string) (c : column) :
  complete_row df i = true -> In (name, c) (cols df) ->
  exists x, nth_error c i = Some (num x).
Proof.
  unfold complete_row. intros H Hin.
  rewrite forallb_forall in H. specialize (H _ Hin). simpl in H.
  unfold cell_present in H.
  destruct (nth_error c i) as [[x|]|]; try discriminate. eauto.
Qed.

Lemma dropna_column (df : DataFrame) (name : string) (c' : column) :
  get_col (df_dropna df) name = Ok c' ->
  exists c, In (name, c) (cols df) /\
            c' = map (fun i => nth i c nan)
                   (filter (complete_row df) (seq 0 (nrows df))).
Proof.
  unfold get_col, df_dropna. cbn [cols].
  rewrite (lookup_map_cols
             (fun c => map (fun i => nth i c nan)
                         (filter (complete_row df) (seq 0 (nrows df))))).
  destruct (lookup (cols df) name) as [c|] eqn:E; simpl; [|discriminate].
  intro H. injection H as <-. exists c. split; [|reflexivity].
  apply lookup_in. exact E.
Qed.

Lemma dropna_unchanged (df : DataFrame) :
  well_formed df ->
  (forall name c v, In (name, c) (cols df) -> In v c -> v <> nan) ->
  df_dropna df = df.
Proof.
  intros W NM.
  assert (All : forall i, In i (seq 0 (nrows df)) -> complete_row df i = true).
  { intros i Hi. apply in_seq in Hi. unfold complete_row.
    apply forallb_forall. intros [n c] Hin. simpl.
    unfold well_formed in W. rewrite Forall_forall in W.
    pose proof (W _ Hin) as Lc. simpl in Lc.
    unfold cell_present.
    destruct (nth_error c i) as [[x|]|] eqn:E; [reflexivity| |].
    - exfalso. apply (NM n c nan Hin); [|reflexivity].
      apply nth_error_In in E. exact E.
    - apply nth_error_None in E. lia. }
  assert (Keep : filter (complete_row df) (seq 0 (nrows df)) = seq 0 (nrows df)).
  { apply forallb_filter_id. apply forallb_forall. exact All. }
  unfold df_dropna. rewrite Keep, length_seq.
  destruct df as [n l]. simpl in *. f_equal.
  rewrite <- (map_id l) at 2. apply map_ext_in. intros [k c] Hin. simpl.
  f_equal. unfold well_formed in W. simpl in W. rewrite Forall_forall in W.
  pose proof (W _ Hin) as Lc. simpl in Lc. rewrite <- Lc.
  rewrite (map_seq_nth (fun v => v) nan c). apply map_id.
Qed.

(** X24: after [df.dropna()] every column has one entry per remaining
    row and no cell is missing; no row is added; and dropping again
    changes nothing. *)
Theorem df_dropna_complete (df : DataFrame) :
  well_formed (df_dropna df) /\
  (forall name c v, get_col (df_dropna df) name = Ok c -> In v c -> v <> nan) /\
  nrows (df_dropna df) <= nrows df /\
  df_dropna (df_dropna df) = df_dropna df.
Proof.
  assert (W : well_formed (df_dropna df)).
  { unfold well_formed, df_dropna. cbn [cols nrows].
    apply Forall_forall. intros [k c] Hin. apply in_map_iff in Hin.
    destruct Hin as ([k' c'] & E & _). injection E as <- <-. simpl.
    apply length_map. }
  assert (NM : forall name c v, In (name, c) (cols (df_dropna df)) ->
                                In v c -> v <> nan).
  { intros name c v Hin Hv. unfold df_dropna in Hin. cbn [cols] in Hin.
    apply in_map_iff in Hin. destruct Hin as ([k c0] & E & Hin0).
    injection E as <- <-. simpl in Hv.
    apply in_map_iff in Hv. destruct Hv as (i & <- & Hi).
    apply filter_In in Hi. destruct Hi as [_ Hc].
    destruct (complete_row_cell df i k c0 Hc Hin0) as [x Hx].
    rewrite (nth_error_nth _ _ nan Hx). discriminate. }
  split; [exact W|]. split; [|split].
  - intros name c v G Hv.
    apply (NM name c v); [|exact Hv].
    unfold get_col in G.
    destruct (lookup (cols (df_dropna df)) name) as [c0|] eqn:E; [|discriminate].
    injection G as <-. apply lookup_in. exact E.
  - unfold df_dropna. cbn [nrows].
    pose proof (filter_length_le (complete_row df) (seq 0 (nrows df))) as Le.
    rewrite length_seq in Le. exact Le.
  - apply dropna_unchanged; assumption.
Qed.

(* ================================================================== *)
(** * Reading and cleaning the raw table *)

Lemma nodup_length_le (l : list string) :
  List.length (nodup string_dec l) <= List.length l.
Proof.
  induction l as [|a r IH]; simpl; [lia|].
  destruct (in_dec string_dec a r); simpl; lia.
Qed.

Lemma nodup_same_length (l : list string) :
  List.length (nodup string_dec l) = List.length l <-> NoDup l.
Proof.
  split.
  - induction l as [|a r IH]; simpl; intro H; [constructor|].
    pose proof (nodup_length_le r) as Le.
    destruct (in_dec string_dec a r) as [i|n]; simpl in H; [lia|].
    constructor; [exact n | apply IH; lia].
  - intro H. rewrite (nodup_fixed_point string_dec H). reflexivity.
Qed.

Lemma map_fst_combine_same {A B : Type} (l : list A) (l' : list B) :
  List.length l = List.length l' -> map fst (combine l l') = l.
Proof.
  revert l'. induction l as [|a r IH]; intros [|b r'] H; simpl in *;
    try reflexivity; try discriminate.
  f_equal. apply IH. lia.
Qed.

Lemma map_snd_combine_same {A B : Type} (l : list A) (l' : list B) :
  List.length l = List.length l' -> map snd (combine l l') = l'.
Proof.
  revert l'. induction l as [|a r IH]; intros [|b r'] H; simpl in *;
    try reflexivity; try discriminate.
  f_equal. apply IH. lia.
Qed.

Lemma dropna_raw_length (raw : list RawRow) :
  List.length (dropna_raw raw) <= List.length raw.
Proof.
  induction raw as [|r rest IH]; simpl; [lia|].
  destruct (complete r); simpl; lia.
Qed.

(** X25: when [read_and_clean_df] returns, only the rows with a missing
    field have been removed: the prices of the remaining rows are those
    of the complete raw rows, in order, each date is the normalised
    date of its row, and the duplicate alert is raised exactly when two
    rows carry the same normalised date; rows with duplicate dates are
    all kept. *)
Theorem read_and_clean_df_keeps_duplicates (raw : list RawRow)
  (rows : list DatedBar) (rep : CleanReport) :
  read_and_clean_df raw = Ok (rows, rep) ->
  map bar_prices rows = map bar_prices (dropna_raw raw) /\
  mapM standardizeTimeString (map bar_date (dropna_raw raw))
    = Ok (map bar_date rows) /\
  original_length rep = List.length raw /\
  cleaned_length rep = List.length rows /\
  cleaned_length rep <= original_length rep /\
  (duplicate_alert rep = true <-> ~ NoDup (map bar_date rows)).
Proof.
  unfold read_and_clean_df.
  destruct (mapM (fun b => standardizeTimeString (bar_date b)) (dropna_raw raw))
    as [dates|e] eqn:M; cbn [bind]; [|discriminate].
  intro H. injection H as <- <-.
  pose proof (mapM_length _ _ _ M) as L.
  assert (D : map bar_date
                (map (fun db => mkDated (fst db) (bar_prices (snd db)))
                   (combine dates (dropna_raw raw))) = dates).
  { rewrite map_map. cbn [bar_date].
    apply (map_fst_combine_same dates (dropna_raw raw)). exact L. }
  assert (P : map bar_prices
                (map (fun db => mkDated (fst db) (bar_prices (snd db)))
                   (combine dates (dropna_raw raw)))
              = map bar_prices (dropna_raw raw)).
  { rewrite map_map. cbn [bar_prices].
    rewrite <- (map_snd_combine_same dates (dropna_raw raw) L) at 2.
    rewrite map_map. reflexivity. }
  split; [exact P|]. rewrite D. cbn [original_length cleaned_length duplicate_alert].
  split; [|split; [|split; [|split]]].
  - rewrite <- M. clear. induction (dropna_raw raw) as [|b r IH]; simpl;
      [reflexivity|]. rewrite IH. reflexivity.
  - reflexivity.
  - rewrite length_map, length_combine. lia.
  - apply dropna_raw_length.
  - rewrite negb_true_iff, Nat.eqb_neq, nodup_same_length. reflexivity.
Qed.

(** X26: [read_and_clean_df] fails exactly when [standardizeTimeString]
    rejects the date of some row without missing field; the date of a
    row with a missing field is never inspected. *)
Theorem read_and_clean_df_fails_on_bad_date (raw : list RawRow) :
  (exists e, read_and_clean_df raw = Raise e) <->
  (exists b e, In b (dropna_raw raw) /\
               standardizeTimeString (bar_date b) = Raise e).
Proof.
  unfold read_and_clean_df. split.
  - intros [e H].
    destruct (mapM (fun b => standardizeTimeString (bar_date b)) (dropna_raw raw))
      as [dates|e'] eqn:M; cbn [bind] in H; [discriminate|].
    apply mapM_raise_inv in M. destruct M as (b & Hb & Fb).
    exists b, e'. split; assumption.
  - intros (b & e & Hb & Fb).
    destruct (mapM (fun b => standardizeTimeString (bar_date b)) (dropna_raw raw))
      as [dates|e'] eqn:M; cbn [bind]; [|eauto].
    exfalso. destruct (In_nth_error _ _ Hb) as [i Hi].
    destruct (mapM_nth _ _ _ i b M Hi) as (s & Fs & _).
    simpl in Fs. congruence.
Qed.

Lemma read_and_clean_df_keeps_duplicates_witness :
  read_and_clean_df raw_rows_sample
  = Ok ([ mkDated "2018/01/05" (mkBar 1 2 1 2);
          mkDated "2018/01/05" (mkBar 2 4 2 3) ]%R,
        mkReport 3 2 true) /\
  ~ NoDup (map bar_date [ mkDated "2018/01/05" (mkBar 1 2 1 2);
                          mkDated "2018/01/05" (mkBar 2 4 2 3) ]%R).
Proof.
  assert (Run : read_and_clean_df raw_rows_sample
                = Ok ([ mkDated "2018/01/05" (mkBar 1 2 1 2);
                        mkDated "2018/01/05" (mkBar 2 4 2 3) ]%R,
                      mkReport 3 2 true)) by reflexivity.
  split; [exact Run|].
  apply (read_and_clean_df_keeps_duplicates _ _ _ Run). reflexivity.
Defined.

(* ================================================================== *)
(** * The sweep over the window pairs *)

Lemma create_FS_ret_runs (xs : list R) (df : DataFrame) (F S : nat)
  (ma : string) :
  priced xs df ->
  Forall (fun x => x <> 0%R) xs ->
  ma_defined ma F (List.length xs) -> ma_defined ma S (List.length xs) ->
  exists df',
    create_FS_ret df F S ma "Close" = Ok df' /\
    priced xs df' /\
    has_col df' (return_col ma F S) = true /\
    (forall n, n <> "past_Close" -> has_col df n = true -> has_col df' n = true).
Proof.
  intros P NZ HF HS. unfold create_FS_ret.
  destruct (ensure_MA_returns xs df ma F P HF) as (dff & -> & Pf & Hf & KeepF).
  cbn [bind].
  destruct (ensure_MA_returns xs dff ma S Pf HS) as (dfm & -> & Pm & Hs & Keep).
  cbn [bind]. pose proof Pm as (Wm & Nm & Gm).
  destruct (apply_rows_returns dfm (fun row =>
              f <- row (ma ++ "_" ++ str F)%string ;;
              s <- row (ma ++ "_" ++ str S)%string ;;
              Ok (if fgt f s then num 1 else num (-1)))) as [sig Hsig].
  { intros i Hi. unfold row_of.
    destruct (loc_total dfm _ i Wm (Keep _ Hf) Hi) as [f ->].
    destruct (loc_total dfm _ i Wm Hs Hi) as [s ->]. cbn [bind]. eauto. }
  rewrite Hsig. cbn [bind]. rewrite get_set_same. cbn [bind].
  rewrite set_set_same.
  set (sname := (ma ++ "_" ++ str F ++ "_" ++ str S ++ "_Signal")%string).
  assert (Nc : sname <> "Close").
  { unfold sname. destruct HF as [-> | [-> _]]; discriminate. }
  assert (Np : sname <> "past_Close").
  { unfold sname. destruct HF as [-> | [-> _]]; discriminate. }
  assert (Ps : priced xs (set_col dfm sname (shift 1 sig))).
  { apply priced_set; [exact Pm | exact Nc |].
    rewrite length_shift. apply (apply_rows_length dfm _ sig Hsig). }
  destruct (calEndOfDayRet_returns xs _ Ps NZ) as (dfe & E & We & Ne & He & K).
  rewrite E. cbn [bind].
  destruct (apply_rows_returns dfe (fun row =>
              s <- row sname ;; e <- row "eodRet" ;; Ok (fmul s e)))
    as [ret Hret].
  { intros i Hi. unfold row_of.
    destruct (loc_total dfe sname i We) as [s ->];
      [apply K; [exact Np | apply has_set_same] | exact Hi |].
    destruct (loc_total dfe "eodRet" i We He Hi) as [e ->]. cbn [bind]. eauto. }
  rewrite Hret. cbn [bind]. eexists. split; [reflexivity|].
  assert (Rc : return_col ma F S <> "Close").
  { unfold return_col. destruct HF as [-> | [-> _]]; discriminate. }
  destruct (calEndOfDayRet_keeps _ _ "Close" "Close" ltac:(discriminate)
              ltac:(discriminate) E) as [Gc Nr].
  split; [|split].
  - apply priced_set.
    + split; [exact We|]. split.
      * rewrite Ne. apply Ps.
      * rewrite Gc. apply Ps.
    + exact Rc.
    + apply (apply_rows_length dfe _ ret Hret).
  - apply has_set_same.
  - intros n Hn H. apply has_set_mono. apply K; [exact Hn|].
    apply has_set_mono. apply Keep. apply KeepF. exact H.
Qed.

Lemma return_col_kept (ma : string) (F S : nat) :
  ma = "SMA" \/ ma = "EMA" -> return_col ma F S <> "past_Close".
Proof. unfold return_col. intros [-> | ->]; discriminate. Qed.

Lemma sweep_row (xs : list R) (f : nat) (rest : list nat) (df : DataFrame) :
  priced xs df ->
  Forall (fun x => x <> 0%R) xs ->
  1 <= f <= List.length xs ->
  Forall (fun w => 1 <= w <= List.length xs) rest ->
  exists df',
    fold_left (fun acc s =>
                 d <- acc ;;
                 d <- create_FS_ret d f s "SMA" "Close" ;;
                 create_FS_ret d f s "EMA" "Close") rest (Ok df) = Ok df' /\
    priced xs df' /\
    (forall s, In s rest ->
               has_col df' (return_col "SMA" f s) = true /\
               has_col df' (return_col "EMA" f s) = true) /\
    (forall n, n <> "past_Close" -> has_col df n = true -> has_col df' n = true).
Proof.
  intros P NZ Hf Hrest. revert df P.
  induction Hrest as [|s rest Hs Hrest IH]; intros df P.
  - exists df. simpl. split; [reflexivity|]. split; [exact P|].
    split; [intros s []|]. auto.
  - cbn [fold_left bind].
    destruct (create_FS_ret_runs xs df f s "SMA" P NZ)
      as (d1 & -> & P1 & H1 & K1); [left; reflexivity | left; reflexivity |].
    cbn [bind].
    destruct (create_FS_ret_runs xs d1 f s "EMA" P1 NZ)
      as (d2 & -> & P2 & H2 & K2);
      [right; split; [reflexivity | exact Hf]
      |right; split; [reflexivity | exact Hs] |].
    destruct (IH d2 P2) as (df' & Run & P' & Hcols & K').
    exists df'. split; [exact Run|]. split; [exact P'|]. split.
    + intros s' [<- | Hin].
      * split.
        -- apply K'; [apply return_col_kept; auto|].
           apply K2; [apply return_col_kept; auto | exact H1].
        -- apply K'; [apply return_col_kept; auto | exact H2].
      * apply Hcols. exact Hin.
    + intros n Hn H. apply K'; [exact Hn|]. apply K2; [exact Hn|].
      apply K1; [exact Hn | exact H].
Qed.

(** X27: on a table of non-zero closes, with every window of the list
    between one and the number of rows, the sweep over the window pairs
    returns; it leaves the closes and the number of rows as they were,
    and the table then holds the SMA and the EMA strategy return of
    every pair [(f, s)] with [f] before [s] in the list. *)
Theorem trend_sweep_covers_pairs (xs : list R) (fs_choices : list nat)
  (df : DataFrame) :
  priced xs df ->
  Forall (fun x => x <> 0%R) xs ->
  Forall (fun w => 1 <= w <= List.length xs) fs_choices ->
  exists df',
    trend_sweep fs_choices df = Ok df' /\
    priced xs df' /\
    forall f s, In (f, s) (ordered_pairs fs_choices) ->
                has_col df' (return_col "SMA" f s) = true /\
                has_col df' (return_col "EMA" f s) = true.
Proof.
  intros P NZ Hfs. revert df P.
  induction Hfs as [|f rest Hf Hrest IH]; intros df P.
  - exists df. simpl. split; [reflexivity|]. split; [exact P|]. intros f s [].
  - cbn [trend_sweep].
    destruct (sweep_row xs f rest df P NZ Hf Hrest) as (d1 & -> & P1 & H1 & _).
    cbn [bind].
    assert (Mono : forall d, priced xs d -> exists d',
              trend_sweep rest d = Ok d' /\ priced xs d' /\
              (forall n, n <> "past_Close" -> has_col d n = true ->
                         has_col d' n = true)).
    { clear - NZ Hrest. induction Hrest as [|g more Hg Hmore IHm]; intros d Pd.
      - exists d. simpl. auto.
      - cbn [trend_sweep].
        destruct (sweep_row xs g more d Pd NZ Hg Hmore) as (d1 & -> & P1 & _ & K1).
        cbn [bind]. destruct (IHm d1 P1) as (d' & R' & P' & K').
        exists d'. split; [exact R'|]. split; [exact P'|].
        intros n Hn H. apply K'; [exact Hn|]. apply K1; [exact Hn | exact H]. }
    destruct (Mono d1 P1) as (d' & Run & P' & K').
    destruct (IH d1 P1) as (d'' & Run' & _ & Hpairs).
    rewrite Run in Run'. injection Run' as <-.
    exists d'. split; [exact Run|]. split; [exact P'|].
    intros f' s' Hin. cbn [ordered_pairs] in Hin. apply in_app_or in Hin.
    destruct Hin as [Hin | Hin].
    + apply in_map_iff in Hin. destruct Hin as (s0 & E & Hs0).
      injection E as <- <-. destruct (H1 s0 Hs0) as [A B].
      split; (apply K'; [apply return_col_kept; auto | assumption]).
    + apply Hpairs. exact Hin.
Qed.

Lemma trend_sweep_covers_pairs_witness :
  exists df',
    trend_sweep [1; 2; 3] closes_1_2_4 = Ok df' /\
    priced [1; 2; 4]%R df' /\
    forall f s, In (f, s) (ordered_pairs [1; 2; 3]) ->
                has_col df' (return_col "SMA" f s) = true /\
                has_col df' (return_col "EMA" f s) = true.
Proof.
  apply (trend_sweep_covers_pairs [1; 2; 4]%R [1; 2; 3] closes_1_2_4).
  - split; [|split; reflexivity].
    unfold well_formed, closes_1_2_4. cbn [cols nrows].
    constructor; [reflexivity | constructor].
  - repeat constructor; simpl; lra.
  - repeat constructor; simpl; lia.
Defined.

Lemma str_inj (a b : nat) : str a = str b -> a = b.
Proof.
  unfold str. intro H. apply (f_equal NilEmpty.uint_of_string) in H.
  rewrite !NilEmpty.usu in H. injection H as H.
  apply Unsigned.to_uint_inj. exact H.
Qed.

Lemma calEMA_out_of_range (df : DataFrame) (period : nat) (col : string)
  (c : column) (numerator : R) :
  col <> ("EMA_" ++ str period)%string ->
  get_col df col = Ok c ->
  ~ 1 <= period <= List.length c ->
  calEMA df period col numerator = Raise KeyError.
Proof.
  intros Hn G Hp. unfold calEMA.
  rewrite get_set_other by congruence. rewrite G. cbn [bind].
  destruct (Nat.leb_spec 1 period), (Nat.leb_spec period (List.length c));
    cbn [andb]; try reflexivity. lia.
Qed.

(** X28: the EMA strategy needs as many rows as its longer window.  On a
    table of non-zero closes that has neither EMA column yet, with two
    different windows, [create_FS_ret] returns when both windows are
    between one and the number of rows, and raises [KeyError] otherwise. *)
Theorem create_FS_ret_EMA_needs_history (xs : list R) (df : DataFrame)
  (F S : nat) :
  priced xs df ->
  Forall (fun x => x <> 0%R) xs ->
  has_col df ("EMA_" ++ str F)%string = false ->
  has_col df ("EMA_" ++ str S)%string = false ->
  F <> S ->
  (1 <= F <= List.length xs /\ 1 <= S <= List.length xs ->
   exists df', create_FS_ret df F S "EMA" "Close" = Ok df') /\
  (~ (1 <= F <= List.length xs /\ 1 <= S <= List.length xs) ->
   create_FS_ret df F S "EMA" "Close" = Raise KeyError).
Proof.
  intros P NZ HF HS Ne. split.
  - intros [InF InS].
    apply (create_FS_ret_returns xs df F S "EMA" P NZ); right; auto.
  - intro Out. pose proof P as (W & N & G).
    unfold create_FS_ret.
    change ("EMA" ++ "_" ++ str F)%string with ("EMA_" ++ str F)%string.
    change ("EMA" ++ "_" ++ str S)%string with ("EMA_" ++ str S)%string.
    rewrite HF. unfold compute_MA. simpl String.eqb.
    destruct (Nat.le_gt_cases 1 F) as [LoF|];
      [destruct (Nat.le_gt_cases F (List.length xs)) as [HiF|]|].
    + destruct (calEMA_column df F "Close" (map num xs) 2) as (e & E & _);
        [discriminate | exact G | rewrite length_map; auto
        | rewrite length_map; lia |].
      rewrite E. cbn [bind].
      rewrite has_set_other, HS.
      2:{ intro H. injection H as H. apply str_inj in H. contradiction. }
      rewrite (calEMA_out_of_range _ S "Close" (map num xs) 2);
        [reflexivity | discriminate | |].
      * rewrite get_set_other by discriminate. exact G.
      * rewrite length_map. lia.
    + rewrite (calEMA_out_of_range df F "Close" (map num xs) 2);
        [reflexivity | discriminate | exact G | rewrite length_map; lia].
    + rewrite (calEMA_out_of_range df F "Close" (map num xs) 2);
        [reflexivity | discriminate | exact G | rewrite length_map; lia].
Qed.

Lemma create_FS_ret_EMA_needs_history_witness :
  (1 <= 2 <= 3 /\ 1 <= 3 <= 3 ->
   exists df', create_FS_ret closes_1_2_4 2 3 "EMA" "Close" = Ok df') /\
  create_FS_ret closes_1_2_4 2 5 "EMA" "Close" = Raise KeyError.
Proof.
  assert (P : priced [1; 2; 4]%R closes_1_2_4).
  { split; [|split; reflexivity].
    unfold well_formed, closes_1_2_4. cbn [cols nrows].
    constructor; [reflexivity | constructor]. }
  assert (NZ : Forall (fun x => x <> 0%R) [1; 2; 4]%R)
    by (repeat constructor; simpl; lra).
  split.
  - apply (create_FS_ret_EMA_needs_history [1; 2; 4]%R closes_1_2_4 2 3 P NZ);
      [reflexivity | reflexivity | discriminate].
  - apply (create_FS_ret_EMA_needs_history [1; 2; 4]%R closes_1_2_4 2 5 P NZ);
      [reflexivity | reflexivity | discriminate | simpl; lia].
Defined.
